(** * The vipsprocessor thumbnail pipeline, embedded in Rocq

    The Go package [vipsprocessor] decides how a source image is loaded,
    restricted to a frame range, resized and cropped.  Pixel work is done
    by libvips; the package only chooses which library operation to call,
    in which order and with which arguments.

    The embedding follows that division.  Every call into a collaborator
    (libvips, the error reporter) is recorded in a trace, in program
    order, so that a statement about "which operation is called with
    which arguments" is a statement about the trace.  Go [int] is the
    64-bit two's complement integer, [float64] is IEEE 754 binary64. *)

From Stdlib Require Import ZArith String Ascii List Bool Lia.
From Stdlib Require Import Floats.SpecFloat.
Import ListNotations.
Local Open Scope Z_scope.

(** ** Go machine integers *)

Module GoInt.

Definition MinInt : Z := - 2 ^ 63.
Definition MaxInt : Z := 2 ^ 63 - 1.

(** Two's complement wrap-around of a mathematical integer. *)
Definition wrap (z : Z) : Z := (z + 2 ^ 63) mod 2 ^ 64 - 2 ^ 63.

Definition sub (a b : Z) : Z := wrap (a - b).
Definition mul (a b : Z) : Z := wrap (a * b).
Definition neg (a : Z) : Z := wrap (- a).

(** Go's [/] truncates toward zero. *)
Definition div (a b : Z) : Z := wrap (Z.quot a b).

Definition in_range (z : Z) : Prop := MinInt <= z <= MaxInt.

(** The values a C [int] can hold: libvips reports image extents as
    C ints, which the binding converts to Go ints. *)
Definition c_int (z : Z) : Prop := - 2 ^ 31 <= z < 2 ^ 31.

End GoInt.

(** ** Go float64 *)

Module Float64.

Definition prec : Z := 53.
Definition emax : Z := 1024.

Definition t : Type := spec_float.

Definition zero : t := S754_zero false.
Definition NaN : t := S754_nan.
(** [float64(i)] for an integer [i]: rounded to nearest, ties to even. *)
Definition of_int (z : Z) : t := binary_normalize prec emax z 0 false.

Definition two : t := of_int 2.

Definition mul (x y : t) : t := SFmul prec emax x y.
Definition sub (x y : t) : t := SFsub prec emax x y.
Definition div (x y : t) : t := SFdiv prec emax x y.

(** Comparisons; each is false as soon as an operand is NaN. *)
Definition lt (x y : t) : bool := SFltb x y.
Definition gt (x y : t) : bool := SFltb y x.
Definition le (x y : t) : bool := SFleb x y.
Definition eq (x y : t) : bool := SFeqb x y.

Definition IsNaN (x : t) : bool :=
  match x with S754_nan => true | _ => false end.

(** [math.IsInf(x, sign)]: [neg = false] asks for +Inf, [neg = true] for -Inf. *)
Definition IsInf (x : t) (neg : bool) : bool :=
  match x with S754_infinity s => Bool.eqb s neg | _ => false end.

Definition Signbit (x : t) : bool :=
  match x with
  | S754_zero s | S754_infinity s | S754_finite s _ _ => s
  | S754_nan => false
  end.

(** [math.Max], with the special cases of the Go library. *)
Definition Max (x y : t) : t :=
  if IsInf x false || IsInf y false then S754_infinity false
  else if IsNaN x || IsNaN y then NaN
  else if eq x zero && eq x y then (if Signbit x then y else x)
  else if gt x y then x else y.

(** [math.Min], with the special cases of the Go library. *)
Definition Min (x y : t) : t :=
  if IsInf x true || IsInf y true then S754_infinity true
  else if IsNaN x || IsNaN y then NaN
  else if eq x zero && eq x y then (if Signbit x then x else y)
  else if lt x y then x else y.

(** The integer part of a finite value, toward zero. *)
Definition trunc (x : t) : option Z :=
  match x with
  | S754_zero _ => Some 0
  | S754_finite s m e =>
      let a := if 0 <=? e then Zpos m * 2 ^ e else Zpos m / 2 ^ (- e) in
      Some (if s then - a else a)
  | S754_infinity _ | S754_nan => None
  end.

(** [int(x)]: truncation toward zero.  For NaN, the infinities and values
    outside the int range Go leaves the result to the platform; amd64
    yields the minimal int. *)
Definition to_int (x : t) : Z :=
  match trunc x with
  | Some z => if (GoInt.MinInt <=? z) && (z <=? GoInt.MaxInt) then z else GoInt.MinInt
  | None => GoInt.MinInt
  end.

End Float64.

(** ** Go strings *)

Module strings.

(** [strings.HasPrefix(s, prefix)] *)
Definition HasPrefix (s prefix : string) : bool := String.prefix prefix s.

(** [strings.HasSuffix(s, suffix)]:
    [len(s) >= len(suffix) && s[len(s)-len(suffix):] == suffix] *)
Definition HasSuffix (s suffix : string) : bool :=
  (String.length suffix <=? String.length s)%nat
  && String.eqb (String.substring (String.length s - String.length suffix)
                                  (String.length suffix) s) suffix.

End strings.

(** ** Data of the collaborators *)

(** [vips.Interesting] *)
Inductive Interesting : Type :=
| InterestingNone | InterestingCentre | InterestingEntropy | InterestingAttention
| InterestingLow | InterestingHigh | InterestingAll.

(** [vips.Size]; the zero value, used when an option struct leaves the
    field out, is [SizeBoth]. *)
Inductive Size : Type := SizeBoth | SizeUp | SizeDown | SizeForce.

Definition Interesting_eqb (a b : Interesting) : bool :=
  match a, b with
  | InterestingNone, InterestingNone | InterestingCentre, InterestingCentre
  | InterestingEntropy, InterestingEntropy | InterestingAttention, InterestingAttention
  | InterestingLow, InterestingLow | InterestingHigh, InterestingHigh
  | InterestingAll, InterestingAll => true
  | _, _ => false
  end.

Definition Size_eqb (a b : Size) : bool :=
  match a, b with
  | SizeBoth, SizeBoth | SizeUp, SizeUp | SizeDown, SizeDown | SizeForce, SizeForce => true
  | _, _ => false
  end.

(** What the pipeline reads from a [*vips.Image]: the accessors
    [Width], [Height], [PageHeight], [Pages] and [Orientation]. *)
Record Image : Type := mkImage {
  Width : Z;
  Height : Z;
  PageHeight : Z;
  Pages : Z;
  Orientation : Z
}.

(** [vips.LoadOptions], the fields the pipeline sets. *)
Record LoadOptions : Type := mkLoadOptions {
  Page : Z;
  N : Z;
  Dpi : Z;
  OptUnlimited : bool
}.

(** [imagor.BlobType], the types the pipeline distinguishes. *)
Inductive BlobType : Type :=
| BlobTypeMemory | BlobTypeJPEG | BlobTypePNG | BlobTypeGIF | BlobTypeWEBP
| BlobTypePDF | BlobTypeOther.

(** What the pipeline asks of an [*imagor.Blob]. *)
Record Blob : Type := mkBlob {
  blobType : BlobType;
  SupportsAnimation : bool;
  IsEmpty : bool
}.

(** [imagor.Error], the classified error of the application. *)
Record ImagorError : Type := NewError {
  Message : string;
  Code : Z
}.

(** A Go [error] value: either an [imagor.Error], or an error of any other
    dynamic type, known by the text its [Error()] method returns. *)
Inductive error : Type :=
| ErrImagor (e : ImagorError)
| ErrOther (msg : string).

(** The processor configuration the pipeline consults. *)
Record Processor : Type := mkProcessor {
  MaxWidth : Z;
  MaxHeight : Z;
  MaxResolution : Z;
  Unlimited : bool
}.

(** The collaborators: the error constants of package imagor, Go's
    [strings.TrimSpace], and the libvips operations.  A libvips operation
    yields the resulting image or an error. *)
Record Env : Type := mkEnv {
  ErrNotFound : ImagorError;
  ErrUnsupportedFormat : ImagorError;
  ErrMaxResolutionExceeded : ImagorError;
  TrimSpace : string -> string;
  (** decoding a blob: the loaders behind [newImageFromBlob], with the
      configured fallback *)
  vips_load : Blob -> LoadOptions -> Image + error;
  (** [vips.NewThumbnailSource] on the blob's reader *)
  vips_thumbnail_source :
    Blob -> Z -> Z -> Interesting -> Size -> LoadOptions -> Image + error;
  (** [img.ThumbnailImage(width, {Height, Crop, Size})] *)
  vips_thumbnail_image : Image -> Z -> Z -> Interesting -> Size -> Image + error;
  (** [img.ExtractAreaMultiPage(left, top, width, height)] *)
  vips_extract_area_multi_page : Image -> Z -> Z -> Z -> Z -> Image + error
}.

(** ** Effects *)

(** One entry per call into a collaborator. *)
Inductive Event : Type :=
| EvLoad (blob : Blob) (options : LoadOptions)
| EvThumbnailSource (blob : Blob) (width height : Z) (crop : Interesting)
                    (size : Size) (options : LoadOptions)
| EvThumbnailImage (img : Image) (width height : Z) (crop : Interesting) (size : Size)
| EvExtractAreaMultiPage (img : Image) (left' top' width height : Z)
| EvClose (img : Image)
| EvCaptureException (err : error).

Definition Trace : Type := list Event.

(** How a call ends: it returns, it panics (a nil dereference), or the
    model ran out of recursion fuel. *)
Inductive Outcome (A : Type) : Type :=
| Ok (a : A)
| Panic
| OutOfFuel.

Arguments Ok {A} a.
Arguments Panic {A}.
Arguments OutOfFuel {A}.

(** Computations: the trace so far in, outcome and extended trace out. *)
Definition M (A : Type) : Type := Trace -> Outcome A * Trace.

Definition ret {A : Type} (a : A) : M A := fun t => (Ok a, t).

Definition bind {A B : Type} (m : M A) (k : A -> M B) : M B :=
  fun t =>
    match m t with
    | (Ok a, t') => k a t'
    | (Panic, t') => (Panic, t')
    | (OutOfFuel, t') => (OutOfFuel, t')
    end.

Definition emit (e : Event) : M unit := fun t => (Ok tt, t ++ [e]).
Definition panic {A : Type} : M A := fun t => (Panic, t).
Definition out_of_fuel {A : Type} : M A := fun t => (OutOfFuel, t).

(** A computation that never stops for lack of fuel. *)
Definition fuel_free {A : Type} (m : M A) : Prop :=
  forall t, fst (m t) <> OutOfFuel.

Notation "x <- m ;; k" := (bind m (fun x => k))
  (at level 61, m at next level, right associativity).
Notation "m ;;; k" := (bind m (fun _ => k))
  (at level 61, right associativity).

(** ** The pipeline *)

Section Pipeline.

Variable E : Env.

(** *** Calls into libvips *)

(** [img.Close()] *)
Definition Close (img : Image) : M unit := emit (EvClose img).

(** [img.ThumbnailImage]: the image is replaced in place on success and
    left as it was on failure. *)
Definition ThumbnailImage (img : Image) (width height : Z)
           (crop : Interesting) (size : Size) : M (Image * option error) :=
  emit (EvThumbnailImage img width height crop size) ;;;
  match vips_thumbnail_image E img width height crop size with
  | inl img' => ret (img', None)
  | inr err => ret (img, Some err)
  end.

(** [img.ExtractAreaMultiPage] *)
Definition ExtractAreaMultiPage (img : Image) (left' top' w h : Z)
  : M (Image * option error) :=
  emit (EvExtractAreaMultiPage img left' top' w h) ;;;
  match vips_extract_area_multi_page E img left' top' w h with
  | inl img' => ret (img', None)
  | inr err => ret (img, Some err)
  end.

(** *** Error classifier *)

(** [WrapErr] *)
Definition WrapErr (err : option error) : M (option error) :=
  match err with
  | None => ret None
  | Some (ErrImagor e) => ret (Some (ErrImagor e))
  | Some (ErrOther m) =>
      let msg := TrimSpace E m in
      if strings.HasPrefix msg "VipsForeignLoad:"
         && strings.HasSuffix msg "is not in a known format"
      then ret (Some (ErrImagor (ErrUnsupportedFormat E)))
      else
        emit (EvCaptureException (ErrOther m)) ;;;
        ret (Some (ErrImagor (NewError msg 406)))
  end.

(** *** Resolution guard *)

(** [CheckResolution] *)
Definition CheckResolution (v : Processor) (img : option Image) (err : option error)
  : M (option Image * option error) :=
  match err, img with
  | Some _, _ | _, None => ret (img, err)
  | None, Some i =>
      if negb (Unlimited v)
         && ((Width i >? MaxWidth v) || (PageHeight i >? MaxHeight v)
             || (GoInt.mul (Width i) (Height i) >? MaxResolution v))
      then Close i ;;; ret (None, Some (ErrImagor (ErrMaxResolutionExceeded E)))
      else ret (Some i, None)
  end.

(** *** Frame-range resolver *)

(** [isMultiPage] *)
Definition isMultiPage (blob : option Blob) (n page : Z) : bool :=
  match blob with
  | None => false
  | Some b =>
      (SupportsAnimation b || match blobType b with BlobTypePDF => true | _ => false end)
      && ((negb (n =? 1) && negb (n =? 0)) || (negb (page =? 1) && negb (page =? 0)))
  end.

(** [applyMultiPageOptions] *)
Definition applyMultiPageOptions (params : LoadOptions) (n page : Z) : LoadOptions :=
  if page <? -1 then
    mkLoadOptions (GoInt.sub (GoInt.neg page) 1) (N params) (Dpi params) (OptUnlimited params)
  else if n <? -1 then
    mkLoadOptions (Page params) (GoInt.neg n) (Dpi params) (OptUnlimited params)
  else
    mkLoadOptions (Page params) (-1) (Dpi params) (OptUnlimited params).

(** [recalculateImage]: the result is the pair [(n, page)]. *)
Definition recalculateImage (img : Image) (n page : Z) : M (Z * Z) :=
  let numPages := Pages img in
  Close img ;;;
  if (page >? 1) && (page >? numPages) then ret (n, numPages)
  else if (n >? 1) && (n >? numPages) then ret (numPages, page)
  else ret (n, page).

(** The pair of indices [recalculateImage] returns. *)
Definition recalculated (img : Image) (n page : Z) : Z * Z :=
  if (page >? 1) && (page >? Pages img) then (n, Pages img)
  else if (n >? 1) && (n >? Pages img) then (Pages img, page)
  else (n, page).

(** *** Crop-strategy selector *)

(** The comparison [float64(w)/float64(h) > float64(iw)/float64(ih)]. *)
Definition aspectGreater (w h iw ih : Z) : bool :=
  Float64.gt (Float64.div (Float64.of_int w) (Float64.of_int h))
             (Float64.div (Float64.of_int iw) (Float64.of_int ih)).

(** [animatedThumbnailWithCrop]: the image after the call and the error. *)
Definition animatedThumbnailWithCrop (v : Processor) (img : Image) (w h : Z)
           (crop : Interesting) (size : Size) : M (Image * option error) :=
  if Size_eqb size SizeDown && (Width img <? w) && (PageHeight img <? h)
  then ret (img, None)
  else
    r <- (if aspectGreater w h (Width img) (PageHeight img)
          then ThumbnailImage img w (MaxHeight v) InterestingNone size
          else ThumbnailImage img (MaxWidth v) h InterestingNone size) ;;
    match r with
    | (img, Some err) => ret (img, Some err)
    | (img, None) =>
        let '(left', top') :=
          if Interesting_eqb crop InterestingHigh then
            (GoInt.sub (Width img) w, GoInt.sub (PageHeight img) h)
          else if Interesting_eqb crop InterestingCentre
                  || Interesting_eqb crop InterestingAttention then
            (GoInt.div (GoInt.sub (Width img) w) 2,
             GoInt.div (GoInt.sub (PageHeight img) h) 2)
          else (0, 0) in
        ExtractAreaMultiPage img left' top' w h
    end.

(** [max(0, min(x, hi))] in float64, as [FocalThumbnail] writes it. *)
Definition clamp0 (x hi : Float64.t) : Float64.t :=
  Float64.Max Float64.zero (Float64.Min x hi).

(** [FocalThumbnail] *)
Definition FocalThumbnail (v : Processor) (img : Image) (w h : Z)
           (fx fy : Float64.t) : M (Image * option error) :=
  let '(imageWidth, imageHeight) :=
    if Orientation img >? 4 then (PageHeight img, Width img)
    else (Width img, PageHeight img) in
  r <- (if aspectGreater w h imageWidth imageHeight
        then ThumbnailImage img w (MaxHeight v) InterestingNone SizeBoth
        else ThumbnailImage img (MaxWidth v) h InterestingNone SizeBoth) ;;
  match r with
  | (img, Some err) => ret (img, Some err)
  | (img, None) =>
      let left' := Float64.sub (Float64.mul (Float64.of_int (Width img)) fx)
                               (Float64.div (Float64.of_int w) Float64.two) in
      let top' := Float64.sub (Float64.mul (Float64.of_int (PageHeight img)) fy)
                              (Float64.div (Float64.of_int h) Float64.two) in
      let left' := clamp0 left' (Float64.of_int (GoInt.sub (Width img) w)) in
      let top' := clamp0 top' (Float64.of_int (GoInt.sub (PageHeight img) h)) in
      ExtractAreaMultiPage img (Float64.to_int left') (Float64.to_int top') w h
  end.

(** [Thumbnail] *)
Definition Thumbnail (v : Processor) (img : Image) (width height : Z)
           (crop : Interesting) (size : Size) : M (Image * option error) :=
  if Interesting_eqb crop InterestingNone || Size_eqb size SizeForce
     || (Height img =? PageHeight img)
  then ThumbnailImage img width height crop size
  else animatedThumbnailWithCrop v img width height crop size.

(** *** Decoding *)

(** [newImageFromBlob]: a nil or empty blob is reported as not found;
    any other blob is handed to the library's loaders. *)
Definition newImageFromBlob (blob : option Blob) (options : LoadOptions)
  : M (option Image * option error) :=
  match blob with
  | None => ret (None, Some (ErrImagor (ErrNotFound E)))
  | Some b =>
      if IsEmpty b then ret (None, Some (ErrImagor (ErrNotFound E)))
      else
        emit (EvLoad b options) ;;;
        match vips_load E b options with
        | inl img => ret (Some img, None)
        | inr err => ret (None, Some err)
        end
  end.

(** [newThumbnailFromBlob] *)
Definition newThumbnailFromBlob (blob : option Blob) (width height : Z)
           (crop : Interesting) (size : Size) (options : LoadOptions)
  : M (option Image * option error) :=
  match blob with
  | None => ret (None, Some (ErrImagor (ErrNotFound E)))
  | Some b =>
      if IsEmpty b then ret (None, Some (ErrImagor (ErrNotFound E)))
      else
        emit (EvThumbnailSource b width height crop size options) ;;;
        match vips_thumbnail_source E b width height crop size options with
        | inl img => ret (Some img, None)
        | inr err => ret (None, Some err)
        end
  end.

(** [newThumbnailFallback] *)
Definition newThumbnailFallback (v : Processor) (blob : option Blob) (width height : Z)
           (crop : Interesting) (size : Size) (options : LoadOptions)
  : M (option Image * option error) :=
  r <- newImageFromBlob blob options ;;
  c <- CheckResolution v (fst r) (snd r) ;;
  match c with
  | (img, Some err) => ret (img, Some err)
  | (None, None) => panic
  | (Some img, None) =>
      r <- ThumbnailImage img width height crop size ;;
      match r with
      | (img, Some err) => Close img ;;; ret (Some img, Some err)
      | (img, None) => e <- WrapErr None ;; ret (Some img, e)
      end
  end.

(** *** Thumbnail pipeline *)

(** The test [n > 1 || page > 1] that sends [NewThumbnail] into a
    recalculation and a reload. *)
Definition needsRecalculation (n page : Z) : bool := (n >? 1) || (page >? 1).

(** [NewThumbnail].  The Go function calls itself; [fuel] bounds the
    depth of that recursion. *)
Fixpoint NewThumbnail (fuel : nat) (v : Processor) (blob : option Blob)
         (width height : Z) (crop : Interesting) (size : Size) (n page dpi : Z)
  : M (option Image * option error) :=
  match fuel with
  | O => out_of_fuel
  | S fuel' =>
    let options := mkLoadOptions 0 0 (if dpi >? 0 then dpi else 0) (Unlimited v) in
    if isMultiPage blob n page then
      let options := applyMultiPageOptions options n page in
      if Interesting_eqb crop InterestingNone || Size_eqb size SizeForce then
        r <- newImageFromBlob blob options ;;
        match r with
        | (_, Some err) => e <- WrapErr (Some err) ;; ret (None, e)
        | (None, None) => panic
        | (Some img, None) =>
            if needsRecalculation n page then
              np <- recalculateImage img n page ;;
              NewThumbnail fuel' v blob width height crop size
                           (GoInt.neg (fst np)) (GoInt.neg (snd np)) dpi
            else
              c <- CheckResolution v (Some img) None ;;
              match snd c with
              | Some err => ret (None, Some err)
              | None =>
                  r <- ThumbnailImage img width height crop size ;;
                  match r with
                  | (img, Some err) =>
                      Close img ;;; e <- WrapErr (Some err) ;; ret (None, e)
                  | (img, None) =>
                      e <- WrapErr None ;; CheckResolution v (Some img) e
                  end
              end
        end
      else
        r <- newImageFromBlob blob options ;;
        c <- CheckResolution v (fst r) (snd r) ;;
        match c with
        | (_, Some err) => e <- WrapErr (Some err) ;; ret (None, e)
        | (None, None) => panic
        | (Some img, None) =>
            if needsRecalculation n page then
              np <- recalculateImage img n page ;;
              NewThumbnail fuel' v blob width height crop size
                           (GoInt.neg (fst np)) (GoInt.neg (snd np)) dpi
            else
              r <- animatedThumbnailWithCrop v img width height crop size ;;
              match r with
              | (img, Some err) =>
                  Close img ;;; e <- WrapErr (Some err) ;; ret (None, e)
              | (img, None) =>
                  e <- WrapErr None ;; CheckResolution v (Some img) e
              end
        end
    else
      match blob with
      | None => panic
      | Some b =>
          r <- match blobType b with
               | BlobTypeJPEG | BlobTypeGIF | BlobTypeWEBP =>
                   newThumbnailFromBlob blob width height crop size options
               | _ =>
                   newThumbnailFallback v blob width height crop size options
               end ;;
          e <- WrapErr (snd r) ;;
          CheckResolution v (fst r) e
      end
  end.

(** The load options [NewThumbnail] builds for a multi-frame request. *)
Definition multiPageOptions (v : Processor) (n page dpi : Z) : LoadOptions :=
  applyMultiPageOptions
    (mkLoadOptions 0 0 (if dpi >? 0 then dpi else 0) (Unlimited v)) n page.

End Pipeline.

(** ** A stand-in for the collaborators

    Concrete collaborators, used to run the pipeline on examples: an
    ASCII [TrimSpace], a loader for one fixed multi-frame source, an
    aspect-preserving resize and a bounds-checked extraction. *)

Module Sim.

(** The white space of Go's [asciiSpace] table. *)
Definition is_space (c : ascii) : bool :=
  match nat_of_ascii c with
  | 9%nat | 10%nat | 11%nat | 12%nat | 13%nat | 32%nat => true
  | _ => false
  end.

Fixpoint trim_left (s : string) : string :=
  match s with
  | EmptyString => EmptyString
  | String c s' => if is_space c then trim_left s' else s
  end.

Fixpoint trim_right (s : string) : string :=
  match s with
  | EmptyString => EmptyString
  | String c s' =>
      match trim_right s' with
      | EmptyString => if is_space c then EmptyString else String c EmptyString
      | r => String c r
      end
  end.

(** [strings.TrimSpace] on strings of ASCII characters. *)
Definition TrimSpace (s : string) : string := trim_right (trim_left s).

(** Decoding the source [src], whose [Pages] is its true frame count:
    [Page] selects the first frame, [N] the number of frames ([-1] for
    all that remain, unset for one). *)
Definition load (src : Image) (_ : Blob) (o : LoadOptions) : Image + error :=
  let frames := if N o =? -1 then Pages src - Page o
                else if N o =? 0 then 1 else N o in
  if (Page o <? 0) || (frames <=? 0) || (Page o + frames >? Pages src)
  then inr (ErrOther "VipsForeignLoad: bad page number")
  else inl (mkImage (Width src) (PageHeight src * frames) (PageHeight src)
                    (Pages src) (Orientation src)).

(** Resizing to fit the box [width] x [height], keeping the aspect ratio
    of the upright image; [SizeDown] never enlarges, [SizeUp] never
    shrinks, [SizeForce] fills the box. *)
Definition thumbnail_image (img : Image) (width height : Z)
           (_ : Interesting) (size : Size) : Image + error :=
  if (Width img <=? 0) || (PageHeight img <=? 0) || (width <=? 0) || (height <=? 0)
  then inr (ErrOther "thumbnail: bad dimensions")
  else
    let rotated := Orientation img >? 4 in
    let sw := if rotated then PageHeight img else Width img in
    let sh := if rotated then Width img else PageHeight img in
    let frames := Height img / PageHeight img in
    let by_width := width * sh <=? height * sw in
    let nw := if by_width then width else Z.max 1 ((sw * height + sh / 2) / sh) in
    let nh := if by_width then Z.max 1 ((sh * width + sw / 2) / sw) else height in
    let keep :=
      match size with
      | SizeDown => (sw <=? nw) && (sh <=? nh)
      | SizeUp => (nw <=? sw) && (nh <=? sh)
      | _ => false
      end in
    let '(rw, rh) :=
      match size with
      | SizeForce => (width, height)
      | _ => if keep then (sw, sh) else (nw, nh)
      end in
    inl (mkImage rw (rh * frames) rh (Pages img)
                 (if rotated then 1 else Orientation img)).

(** Cutting the rectangle out of every frame; it has to lie inside one
    frame. *)
Definition extract_area_multi_page (img : Image) (left' top' w h : Z) : Image + error :=
  if (0 <=? left') && (0 <=? top') && (0 <? w) && (0 <? h)
     && (left' + w <=? Width img) && (top' + h <=? PageHeight img)
  then inl (mkImage w (h * (Height img / PageHeight img)) h (Pages img) (Orientation img))
  else inr (ErrOther "extract_area: bad extract area").

Definition thumbnail_source (src : Image) (b : Blob) (width height : Z)
           (crop : Interesting) (size : Size) (o : LoadOptions) : Image + error :=
  match load src b o with
  | inl img => thumbnail_image img width height crop size
  | inr err => inr err
  end.

Definition env (src : Image) : Env :=
  mkEnv (NewError "not found" 404)
        (NewError "unsupported format" 406)
        (NewError "maximum resolution exceeded" 422)
        TrimSpace
        (load src)
        (thumbnail_source src)
        thumbnail_image
        extract_area_multi_page.

(** The default limits of [NewProcessor]. *)
Definition processor : Processor := mkProcessor 9999 9999 81000000 false.

Definition gif : Blob := mkBlob BlobTypeGIF true false.

(** The focal coordinate 0.5. *)
Definition half : Float64.t := Float64.div (Float64.of_int 1) (Float64.of_int 2).

(** A single-frame image of the given extents and orientation. *)
Definition still (w h o : Z) : Image := mkImage w h h 1 o.

(** An animation of [frames] frames, decoded in full. *)
Definition animation (w h frames : Z) : Image := mkImage w (h * frames) h frames 1.

End Sim.

(** ** Loading without resizing *)

Section ImageLoading.

Variable E : Env.

(** [NewImage].  Like [NewThumbnail] it calls itself after a
    recalculation; [fuel] bounds the depth. *)
Fixpoint NewImage (fuel : nat) (v : Processor) (blob : option Blob) (n page dpi : Z)
  : M (option Image * option error) :=
  match fuel with
  | O => out_of_fuel
  | S fuel' =>
    let options := mkLoadOptions 0 0 (if dpi >? 0 then dpi else 0) (Unlimited v) in
    if isMultiPage blob n page then
      let options := applyMultiPageOptions options n page in
      r <- newImageFromBlob E blob options ;;
      c <- CheckResolution E v (fst r) (snd r) ;;
      match c with
      | (_, Some err) => e <- WrapErr E (Some err) ;; ret (None, e)
      | (None, None) =>
          if needsRecalculation n page then panic else ret (None, None)
      | (Some img, None) =>
          if needsRecalculation n page then
            np <- recalculateImage img n page ;;
            NewImage fuel' v blob (GoInt.neg (fst np)) (GoInt.neg (snd np)) dpi
          else ret (Some img, None)
      end
    else
      r <- newImageFromBlob E blob options ;;
      c <- CheckResolution E v (fst r) (snd r) ;;
      match c with
      | (_, Some err) => e <- WrapErr E (Some err) ;; ret (None, e)
      | (img, None) => ret (img, None)
      end
  end.

(** *** Handles *)

(** What an event does to the number of open image handles: a decode
    that succeeds opens one, a close releases one. *)
Definition handles (e : Event) : Z :=
  match e with
  | EvLoad b o => match vips_load E b o with inl _ => 1 | inr _ => 0 end
  | EvThumbnailSource b w h c s o =>
      match vips_thumbnail_source E b w h c s o with inl _ => 1 | inr _ => 0 end
  | EvClose _ => -1
  | _ => 0
  end.

(** The handles a trace leaves open. *)
Fixpoint live (t : Trace) : Z :=
  match t with
  | [] => 0
  | e :: t' => handles e + live t'
  end.

End ImageLoading.

(** The handle a call hands to its caller: an image returned without an
    error. *)
Definition handed {A : Type} (r : Outcome (option A * option error)) : Z :=
  match r with
  | Ok (Some _, None) => 1
  | _ => 0
  end.

(** An image that the resolution guard lets through. *)
Definition withinLimits (v : Processor) (img : Image) : Prop :=
  Unlimited v = true
  \/ (Width img <= MaxWidth v /\ PageHeight img <= MaxHeight v
      /\ GoInt.mul (Width img) (Height img) <= MaxResolution v).

(** What every way out of the loading pipeline has in common: the handles
    are accounted for, an error is a classified one, an image handed over
    has passed the resolution guard. *)
Definition settled (E : Env) (v : Processor) (t : Trace)
           (r : Outcome (option Image * option error) * Trace) : Prop :=
  live E (snd r) = live E t + handed (fst r)
  /\ (forall oi e, fst r = Ok (oi, Some e) -> exists c, e = ErrImagor c)
  /\ (forall img, fst r = Ok (Some img, None) -> withinLimits v img).

(** A call that resizes or cuts, as opposed to one that opens, closes or
    reports. *)
Definition isResizeCall (e : Event) : bool :=
  match e with
  | EvThumbnailImage _ _ _ _ _ | EvExtractAreaMultiPage _ _ _ _ _ => true
  | _ => false
  end.

(** ** Postconditions *)

(** [post m t Q]: run from the trace [t], the computation [m] ends in an
    outcome and a trace that satisfy [Q]. *)
Definition post {A : Type} (m : M A) (t : Trace) (Q : Outcome A -> Trace -> Prop) : Prop :=
  Q (fst (m t)) (snd (m t)).

(** ** Construction, start-up and shut-down of a processor *)

Module Setup.

(** The fallback loaders a processor can be configured with: the two
    built-in ones and any other function, known by a tag. *)
Inductive Fallback : Type :=
| bufferFallbackFunc
| bmpFallbackFunc
| customFallback (id : nat).

(** The struct [Processor] as [NewProcessor] and [Startup] see it, without
    the logger and the instrumentation.  [Filters] lists the names the
    filter map has a handler for; [Limits] holds [MaxWidth], [MaxHeight],
    [MaxResolution] and [Unlimited]; [disableFilters] is the map of the
    same name, read as Go reads a [map[string]bool]: false where no entry
    was made. *)
Record ProcessorStruct : Type := mkProcessorStruct {
  Filters : list string;
  FallbackFunc : option Fallback;
  DisableBlur : bool;
  DisableFilters : list string;
  MaxFilterOps : Z;
  Concurrency : Z;
  MaxCacheFiles : Z;
  MaxCacheMem : Z;
  MaxCacheSize : Z;
  Limits : Processor;
  MaxAnimationFrames : Z;
  MozJPEG : bool;
  StripMetadata : bool;
  AvifSpeed : Z;
  Debug : bool;
  PNGBufferThreshold : Z;
  disableFilters : string -> bool
}.

Definition set_FallbackFunc (f : option Fallback) (v : ProcessorStruct) : ProcessorStruct :=
  mkProcessorStruct (Filters v) f (DisableBlur v) (DisableFilters v) (MaxFilterOps v)
    (Concurrency v) (MaxCacheFiles v) (MaxCacheMem v) (MaxCacheSize v) (Limits v)
    (MaxAnimationFrames v) (MozJPEG v) (StripMetadata v) (AvifSpeed v) (Debug v)
    (PNGBufferThreshold v) (disableFilters v).

Definition set_DisableFilters (l : list string) (v : ProcessorStruct) : ProcessorStruct :=
  mkProcessorStruct (Filters v) (FallbackFunc v) (DisableBlur v) l (MaxFilterOps v)
    (Concurrency v) (MaxCacheFiles v) (MaxCacheMem v) (MaxCacheSize v) (Limits v)
    (MaxAnimationFrames v) (MozJPEG v) (StripMetadata v) (AvifSpeed v) (Debug v)
    (PNGBufferThreshold v) (disableFilters v).

Definition set_Concurrency (c : Z) (v : ProcessorStruct) : ProcessorStruct :=
  mkProcessorStruct (Filters v) (FallbackFunc v) (DisableBlur v) (DisableFilters v)
    (MaxFilterOps v) c (MaxCacheFiles v) (MaxCacheMem v) (MaxCacheSize v) (Limits v)
    (MaxAnimationFrames v) (MozJPEG v) (StripMetadata v) (AvifSpeed v) (Debug v)
    (PNGBufferThreshold v) (disableFilters v).

(** [v.disableFilters[name] = true] *)
Definition disable (name : string) (v : ProcessorStruct) : ProcessorStruct :=
  mkProcessorStruct (Filters v) (FallbackFunc v) (DisableBlur v) (DisableFilters v)
    (MaxFilterOps v) (Concurrency v) (MaxCacheFiles v) (MaxCacheMem v) (MaxCacheSize v)
    (Limits v) (MaxAnimationFrames v) (MozJPEG v) (StripMetadata v) (AvifSpeed v) (Debug v)
    (PNGBufferThreshold v)
    (fun k => if String.eqb k name then true else disableFilters v k).

(** The processor [NewProcessor] starts from, before the options. *)
Definition defaults : ProcessorStruct :=
  mkProcessorStruct
    ["watermark"; "round_corner"; "rotate"; "label"; "grayscale"; "brightness";
     "background_color"; "contrast"; "modulate"; "hue"; "saturation"; "rgb"; "blur";
     "sharpen"; "strip_icc"; "strip_exif"; "trim"; "padding"; "proportion"]%string
    None false [] (-1) 1 0 0 0 (mkProcessor 9999 9999 81000000 false) (-1)
    false false 0 false (1024 * 1024) (fun _ => false).

(** An [Option] changes the processor under construction. *)
Definition Option : Type := ProcessorStruct -> ProcessorStruct.

(** [NewProcessor]; [numCPU] is what [runtime.NumCPU()] answers. *)
Definition NewProcessor (numCPU : Z) (options : list Option) : ProcessorStruct :=
  let v := fold_left (fun v option => option v) options defaults in
  let v := if DisableBlur v
           then set_DisableFilters (DisableFilters v ++ ["blur"; "sharpen"]%string) v
           else v in
  let v := fold_left (fun v name => disable name v) (DisableFilters v) v in
  if Concurrency v =? -1 then set_Concurrency numCPU v else v.

(** [vips.LogLevel], the two levels [Startup] asks for. *)
Inductive LogLevel : Type := LogLevelError | LogLevelDebug.

(** [vips.Config] *)
Record Config : Type := mkConfig {
  CfgMaxCacheFiles : Z;
  CfgMaxCacheMem : Z;
  CfgMaxCacheSize : Z;
  ConcurrencyLevel : Z
}.

(** The calls into the library that start-up and shut-down make. *)
Inductive LibCall : Type :=
| SetLogging (level : LogLevel)
| VipsStartup (config : Config)
| VipsShutdown.

(** The state all processors of a process share: the package variable
    [processorCount], and the library calls made so far.  The lock that
    guards it makes the calls below run one at a time. *)
Record Global : Type := mkGlobal {
  processorCount : Z;
  libCalls : list LibCall
}.

Definition initial : Global := mkGlobal 0 [].

(** [Startup]; [hasMagick] is what
    [vips.HasOperation("magickload_buffer")] answers. *)
Definition Startup (hasMagick : bool) (v : ProcessorStruct) (g : Global)
  : ProcessorStruct * Global :=
  let count := GoInt.wrap (processorCount g + 1) in
  let calls :=
    if count <=? 1 then
      libCalls g
      ++ [SetLogging (if Debug v then LogLevelDebug else LogLevelError);
          VipsStartup (mkConfig (MaxCacheFiles v) (MaxCacheMem v) (MaxCacheSize v)
                                (Concurrency v))]
    else libCalls g in
  let v :=
    match FallbackFunc v with
    | None => set_FallbackFunc
                (Some (if hasMagick then bufferFallbackFunc else bmpFallbackFunc)) v
    | Some _ => v
    end in
  (v, mkGlobal count calls).

(** [Shutdown] *)
Definition Shutdown (g : Global) : Global :=
  if processorCount g <=? 0 then g
  else
    let count := GoInt.wrap (processorCount g - 1) in
    mkGlobal count (if count =? 0 then libCalls g ++ [VipsShutdown] else libCalls g).

(** A start-up of some processor, or a shut-down. *)
Inductive LifecycleCall : Type :=
| CallStartup (v : ProcessorStruct)
| CallShutdown.

(** A sequence of start-ups and shut-downs, in the order the lock lets
    them in. *)
Fixpoint run (hasMagick : bool) (calls : list LifecycleCall) (g : Global) : Global :=
  match calls with
  | [] => g
  | CallStartup v :: rest => run hasMagick rest (snd (Startup hasMagick v g))
  | CallShutdown :: rest => run hasMagick rest (Shutdown g)
  end.

(** How many library start-ups are not yet matched by a library
    shut-down. *)
Fixpoint libraryUp (calls : list LibCall) : Z :=
  match calls with
  | [] => 0
  | VipsStartup _ :: rest => 1 + libraryUp rest
  | VipsShutdown :: rest => -1 + libraryUp rest
  | SetLogging _ :: rest => libraryUp rest
  end.

(** *** Decoding a blob *)

(** What [blob.Memory()] hands out. *)
Record MemoryData : Type := mkMemoryData {
  buf : list Byte.byte;
  memWidth : Z;
  memHeight : Z;
  memBands : Z
}.

(** The collaborators of [newImageFromBlob]: the blob's accessors and
    readers, the library's loaders, and what a fallback loader does. *)
Record LoaderLib : Type := mkLoaderLib {
  blobSize : Blob -> Z;
  blobMemory : Blob -> MemoryData;
  blobReadAll : Blob -> list Byte.byte + error;
  (** [blob.NewReader()]: the error, if the reader cannot be had *)
  blobNewReader : Blob -> option error;
  NewImageFromMemory : MemoryData -> Image + error;
  NewImageFromBuffer : list Byte.byte -> LoadOptions -> Image + error;
  (** [vips.NewImageFromSource] on a source over the blob's reader *)
  NewImageFromSource : Blob -> LoadOptions -> Image + error;
  runFallback : Fallback -> Blob -> LoadOptions -> Image + error
}.

(** The calls [newImageFromBlob] makes. *)
Inductive LoadCall : Type :=
| CallMemory
| CallNewImageFromMemory
| CallReadAll
| CallNewImageFromBuffer
| CallNewReader
| CallNewImageFromSource
| CallSourceClose
| CallFallbackFunc (f : Fallback).

(** [newImageFromBlob], with the loaders it chooses between: the result and
    the calls made, in order. *)
Definition newImageFromBlob (L : LoaderLib) (errNotFound : ImagorError)
           (v : ProcessorStruct) (blob : option Blob) (options : LoadOptions)
  : (Image + error) * list LoadCall :=
  match blob with
  | None => (inr (ErrImagor errNotFound), [])
  | Some b =>
      if IsEmpty b then (inr (ErrImagor errNotFound), [])
      else
        match blobType b with
        | BlobTypeMemory =>
            (NewImageFromMemory L (blobMemory L b), [CallMemory; CallNewImageFromMemory])
        | bt =>
            if match bt with BlobTypePNG => true | _ => false end
               && (blobSize L b >? 0) && (blobSize L b >? PNGBufferThreshold v)
            then
              match blobReadAll L b with
              | inr err => (inr err, [CallReadAll])
              | inl bytes =>
                  (NewImageFromBuffer L bytes options, [CallReadAll; CallNewImageFromBuffer])
              end
            else
              match blobNewReader L b with
              | Some err => (inr err, [CallNewReader])
              | None =>
                  match NewImageFromSource L b options, FallbackFunc v with
                  | inr _, Some f =>
                      (runFallback L f b options,
                       [CallNewReader; CallNewImageFromSource; CallSourceClose;
                        CallFallbackFunc f])
                  | r, _ => (r, [CallNewReader; CallNewImageFromSource])
                  end
              end
        end
  end.

End Setup.

(** The count is not negative, and the library is up exactly while it is
    positive. *)
Definition counted (g : Setup.Global) : Prop :=
  0 <= Setup.processorCount g
  /\ Setup.libraryUp (Setup.libCalls g) = (if Setup.processorCount g =? 0 then 0 else 1).

(** The blob takes the streaming loader: it is neither raw memory nor a
    PNG above the buffering threshold. *)
Definition streamed (L : Setup.LoaderLib) (v : Setup.ProcessorStruct) (b : Blob) : Prop :=
  IsEmpty b = false
  /\ blobType b <> BlobTypeMemory
  /\ (blobType b = BlobTypePNG ->
      Setup.blobSize L b <= 0 \/ Setup.blobSize L b <= Setup.PNGBufferThreshold v).

(** The loaders that decode. *)
Definition decodes (c : Setup.LoadCall) : bool :=
  match c with
  | Setup.CallNewImageFromMemory | Setup.CallNewImageFromBuffer
  | Setup.CallNewImageFromSource => true
  | _ => false
  end.

(** ** Choosing the bucket, the region and the key of an S3 object *)

Module s3storage.

(** [S3Storage], without the client, the logger and the compiled safe
    characters; [Region] is [baseConfig.Region], durations are in
    nanoseconds. *)
Record S3Storage : Type := mkS3Storage {
  Bucket : string;
  BaseDir : string;
  PathPrefix : string;
  ACL : string;
  SafeChars : string;
  StorageClass : string;
  Expiration : Z;
  Endpoint : string;
  ForcePathStyle : bool;
  ImgixFallbackEnabled : bool;
  ImgixFallbackTimeout : Z;
  bucketFromRequest : bool;
  regionFromRequest : bool;
  Region : string
}.

(** [strings.Index]: where [substr] first occurs in [s], or -1. *)
Fixpoint Index (s substr : string) : Z :=
  if String.prefix substr s then 0
  else
    match s with
    | EmptyString => -1
    | String _ s' => let i := Index s' substr in if i <? 0 then -1 else i + 1
    end.

(** An [Option] changes the storage under construction. *)
Definition Option : Type := S3Storage -> S3Storage.

(** [New], up to the client and the safe characters it derives from the
    fields; [region] is the region of the configuration it is given. *)
Definition New (region bucket : string) (options : list Option) : S3Storage :=
  let idx := Index bucket "/" in
  let baseDir :=
    if idx >? -1
    then String.substring (Z.to_nat idx) (String.length bucket - Z.to_nat idx) bucket
    else "/"%string in
  let bucket := if idx >? -1 then String.substring 0 (Z.to_nat idx) bucket else bucket in
  fold_left (fun s option => option s) options
    (mkS3Storage bucket baseDir "/" "" "" "" 0 "" false false 0 false false region).

(** A value kept in a [context.Context]: a string, or anything else. *)
Inductive Value : Type :=
| VString (s : string)
| VOther.

(** [context.Context], as far as [Value] reads it. *)
Definition Context : Type := string -> option Value.

(** [context.WithValue] *)
Definition WithValue (ctx : Context) (key : string) (val : Value) : Context :=
  fun k => if String.eqb k key then Some val else ctx k.

(** [http.Request]: [Header] is [r.Header.Get], which answers the empty
    string for a header that is not there. *)
Record Request : Type := mkRequest {
  Header : string -> string;
  Ctx : Context
}.

Definition nonEmpty (s : string) : bool := negb (String.eqb s EmptyString).

(** [ctx.Value(key).(string)] with a value that is not empty *)
Definition stringValue (ctx : Context) (key : string) : option string :=
  match ctx key with
  | Some (VString s) => if nonEmpty s then Some s else None
  | _ => None
  end.

Definition getBucketFromRequest (s : S3Storage) (r : Request) : string :=
  if negb (bucketFromRequest s) then Bucket s
  else
    let bucket := Header r "AWS-BUCKET" in
    if String.eqb bucket "" then Bucket s else bucket.

Definition getBucketFromRequestForKey (s : S3Storage) (r : Request) : string :=
  if bucketFromRequest s then ""%string else Header r "AWS-BUCKET".

Definition getBucketFromContext (s : S3Storage) (ctx : Context) : string :=
  if negb (bucketFromRequest s) then Bucket s
  else
    match stringValue ctx "aws-bucket" with
    | Some bucket => bucket
    | None => Bucket s
    end.

Definition getBucketFromContextForKey (s : S3Storage) (ctx : Context) : string :=
  if bucketFromRequest s then ""%string
  else
    match stringValue ctx "aws-bucket" with
    | Some bucket => bucket
    | None => ""%string
    end.

Definition getRegionFromRequest (s : S3Storage) (r : Request) : string :=
  if negb (regionFromRequest s) then Region s
  else
    let region := Header r "AWS-REGION" in
    if String.eqb region "" then Region s else region.

Definition getRegionFromContext (s : S3Storage) (ctx : Context) : string :=
  if negb (regionFromRequest s) then Region s
  else
    match stringValue ctx "aws-region" with
    | Some region => region
    | None => Region s
    end.

Definition buildKeyWithBucketPrefix (key bucketPrefix : string) : string :=
  if String.eqb bucketPrefix "" then key
  else
    match key with
    | EmptyString => bucketPrefix
    | String c _ =>
        if Ascii.eqb c "/" then (bucketPrefix ++ key)%string
        else (bucketPrefix ++ "/" ++ key)%string
    end.

(** What the handler wrapped by [S3ConfigMiddleware] is given for the
    request [r]. *)
Definition S3ConfigMiddleware (TrimSpace : string -> string) (r : Request) : Request :=
  let bucket := Header r "AWS-BUCKET" in
  let region := Header r "AWS-REGION" in
  let r := if nonEmpty bucket
           then mkRequest (Header r) (WithValue (Ctx r) "aws-bucket" (VString (TrimSpace bucket)))
           else r in
  if nonEmpty region
  then mkRequest (Header r) (WithValue (Ctx r) "aws-region" (VString (TrimSpace region)))
  else r.

(** The bucket, the region and the key an operation addresses. *)
Record Target : Type := mkTarget {
  targetBucket : string;
  targetRegion : string;
  targetKey : string
}.

(** The target of [Get], for the path [image] that [Path] accepted. *)
Definition requestTarget (s : S3Storage) (r : Request) (image : string) : Target :=
  mkTarget (getBucketFromRequest s r) (getRegionFromRequest s r)
           (buildKeyWithBucketPrefix image (getBucketFromRequestForKey s r)).

(** The target of [Put], [Delete] and [Stat], for the path [image] that
    [Path] accepted. *)
Definition contextTarget (s : S3Storage) (ctx : Context) (image : string) : Target :=
  mkTarget (getBucketFromContext s ctx) (getRegionFromContext s ctx)
           (buildKeyWithBucketPrefix image (getBucketFromContextForKey s ctx)).

(** The region of the client [getClientWithRegion] answers: the storage's
    own client for the empty region, else a client made for the region,
    with the same endpoint and path style. *)
Definition getClientWithRegion (s : S3Storage) (region : string) : string :=
  if String.eqb region "" then Region s else region.

(** What [errors.As] and [ErrorCode] tell about an error of the S3
    client. *)
Record S3Error : Type := mkS3Error {
  asNoSuchKey : bool;
  asNoSuchBucket : bool;
  apiErrorCode : option string
}.

Definition isNotFoundError (err : S3Error) : bool :=
  if asNoSuchKey err || asNoSuchBucket err then true
  else
    match apiErrorCode err with
    | Some code => String.eqb code "NoSuchKey" || String.eqb code "NotFound"
    | None => false
    end.

(** [s3.GetObjectOutput]; [LastModified] is a point in time. *)
Record GetObjectOutput : Type := mkGetObjectOutput {
  Body : list Byte.byte;
  ContentType : option string;
  ContentLength : option Z;
  ETag : option string;
  LastModified : option Z
}.

(** [s3.PutObjectInput]; [PutACL] is absent when the field is left
    unset. *)
Record PutObjectInput : Type := mkPutObjectInput {
  PutBucket : string;
  PutKey : string;
  PutBody : list Byte.byte;
  PutContentType : string;
  PutContentLength : Z;
  PutStorageClass : string;
  PutACL : option string
}.

(** The response of imgix: the status, the content type header, and the
    body if it can be read to the end. *)
Record Response : Type := mkResponse {
  StatusCode : Z;
  ResponseContentType : string;
  ResponseBody : option (list Byte.byte)
}.

(** [imagor.Stat] *)
Record Stat : Type := mkStat {
  StatSize : Z;
  StatETag : string;
  StatModifiedTime : Z
}.

(** The collaborators of reading an object: [GetObject] of the client
    for a region, on a bucket and a key; [time.Since];
    whether [http.NewRequestWithContext] accepts a URL; the answer to a
    GET of a URL within a timeout, if there is one. *)
Record World : Type := mkWorld {
  GetObject : string -> string -> string -> GetObjectOutput + S3Error;
  Since : Z -> Z;
  NewRequest : string -> bool;
  Do : string -> Z -> option Response
}.

(** The calls that leave the process. *)
Inductive Call : Type :=
| CallGetObject (region bucket key : string)
| CallImgix (url : string) (timeout : Z)
| CallPutObject (region : string) (input : PutObjectInput).

(** The errors of reading an object: [imagor.ErrNotFound],
    [imagor.ErrExpired], or the client's own. *)
Inductive ReadError : Type :=
| ErrNotFound
| ErrExpired
| ErrS3 (err : S3Error).

(** [time.Second] *)
Definition Second : Z := 1000000000.

(** [fetchFromImgixAndSave]: the body and its length or the error, and the
    calls made.  The outcome of the [PutObject] is only logged. *)
Definition fetchFromImgixAndSave (s : S3Storage) (W : World) (r : Request)
           (bucket key image : string)
  : (list Byte.byte * Z + ReadError) * list Call :=
  let imgixURL := ("https://" ++ bucket ++ ".imgix.net/" ++ image ++ "?q=100&w=1")%string in
  let timeout := if ImgixFallbackTimeout s =? 0 then 30 * Second
                 else ImgixFallbackTimeout s in
  if negb (NewRequest W imgixURL) then (inr ErrNotFound, [])
  else
    match Do W imgixURL timeout with
    | None => (inr ErrNotFound, [CallImgix imgixURL timeout])
    | Some resp =>
        if negb (StatusCode resp =? 200)
        then (inr ErrNotFound, [CallImgix imgixURL timeout])
        else
          match ResponseBody resp with
          | None => (inr ErrNotFound, [CallImgix imgixURL timeout])
          | Some body =>
              let putInput :=
                mkPutObjectInput bucket key body (ResponseContentType resp)
                  (Z.of_nat (List.length body)) (StorageClass s)
                  (if negb (String.eqb (ACL s) "") then Some (ACL s) else None) in
              (inl (body, Z.of_nat (List.length body)),
               [CallImgix imgixURL timeout;
                CallPutObject (getClientWithRegion s (getRegionFromRequest s r)) putInput])
          end
    end.

(** What one run of the reader of a blob made by [Get] leaves behind: the
    body and its size or the error, the calls made, whether the [sync.Once]
    has fired, and the content type and the [Stat] it has set on the blob
    if it fired in this run. *)
Record Read : Type := mkRead {
  result : list Byte.byte * Z + ReadError;
  calls : list Call;
  onceDone : bool;
  blobSet : option (option string * option Stat)
}.

(** The reader of the blob [Get] answers for the path [image] that
    [Path] accepted; [once] tells whether the [sync.Once] has fired
    before. *)
Definition reader (s : S3Storage) (W : World) (r : Request) (image : string) (once : bool)
  : Read :=
  let bucket := getBucketFromRequest s r in
  let region := getRegionFromRequest s r in
  let client := getClientWithRegion s region in
  let key := buildKeyWithBucketPrefix image (getBucketFromRequestForKey s r) in
  match GetObject W client bucket key with
  | inr err =>
      if isNotFoundError err && ImgixFallbackEnabled s then
        let fetched := fetchFromImgixAndSave s W r bucket key image in
        mkRead (fst fetched) (CallGetObject client bucket key :: snd fetched) once None
      else if isNotFoundError err then
        mkRead (inr ErrNotFound) [CallGetObject client bucket key] once None
      else mkRead (inr (ErrS3 err)) [CallGetObject client bucket key] once None
  | inl out =>
      let set :=
        if once then None
        else Some (ContentType out,
                   match ContentLength out, ETag out, LastModified out with
                   | Some size, Some etag, Some modified => Some (mkStat size etag modified)
                   | _, _, _ => None
                   end) in
      if (Expiration s >? 0)
         && match LastModified out with
            | Some modified => Since W modified >? Expiration s
            | None => false
            end
      then mkRead (inr ErrExpired) [CallGetObject client bucket key] true set
      else mkRead (inl (Body out, match ContentLength out with
                                  | Some size => size
                                  | None => 0
                                  end))
                  [CallGetObject client bucket key] true set
  end.

End s3storage.

(** ** Request metrics *)

Module prometheusmetrics.

(** What a handler does to the [http.ResponseWriter] it is given. *)
Inductive WriterCall : Type :=
| WriteHeader (statusCode : Z)
| Write (data : list Byte.byte).

(** [http.Request]: the method, and [Header.Get]. *)
Record Request : Type := mkRequest {
  Method : string;
  Header : string -> string
}.

(** One observation of [http_request_duration_seconds]: the labels
    code, method and source, and the seconds observed. *)
Record Observation : Type := mkObservation {
  code : string;
  method : string;
  source : string;
  seconds : Float64.t
}.

(** [responseRecorder] *)
Record responseRecorder : Type := mkResponseRecorder {
  forwarded : list WriterCall;
  statusCode : Z
}.

(** A call on the recorder: [WriteHeader] is the recorder's own method,
    which notes the status and passes it on; any other call is the
    embedded writer's. *)
Definition record (rec : responseRecorder) (c : WriterCall) : responseRecorder :=
  match c with
  | WriteHeader s => mkResponseRecorder (forwarded rec ++ [c]) s
  | Write _ => mkResponseRecorder (forwarded rec ++ [c]) (statusCode rec)
  end.

(** The handler [Handle] wraps around [next], for one request: what
    reaches the writer [w], and the observation.  [next] is what the
    wrapped handler does to its writer, [elapsed] the seconds it took,
    [Itoa] is [strconv.Itoa]. *)
Definition Handle (Itoa : Z -> string) (next : Request -> list WriterCall)
           (r : Request) (elapsed : Float64.t) : list WriterCall * Observation :=
  let source := Header r "AWS-BUCKET" in
  let source := if String.eqb source "" then "unknown"%string else source in
  let recorder := fold_left record (next r) (mkResponseRecorder [] 200) in
  (forwarded recorder, mkObservation (Itoa (statusCode recorder)) (Method r) source elapsed).

(** The statuses a handler writes, in order. *)
Definition statuses (l : list WriterCall) : list Z :=
  flat_map (fun c => match c with WriteHeader s => [s] | Write _ => [] end) l.

End prometheusmetrics.

(** ** Stand-ins for the processor's and the storage's collaborators *)

Module SetupSim.

(** An option that sets [DisableBlur]. *)
Definition disableBlur : Setup.Option :=
  fun v =>
    Setup.mkProcessorStruct (Setup.Filters v) (Setup.FallbackFunc v) true
      (Setup.DisableFilters v) (Setup.MaxFilterOps v) (Setup.Concurrency v)
      (Setup.MaxCacheFiles v) (Setup.MaxCacheMem v) (Setup.MaxCacheSize v) (Setup.Limits v)
      (Setup.MaxAnimationFrames v) (Setup.MozJPEG v) (Setup.StripMetadata v)
      (Setup.AvifSpeed v) (Setup.Debug v) (Setup.PNGBufferThreshold v)
      (Setup.disableFilters v).

(** A PNG of unknown size. *)
Definition smallPng : Blob := mkBlob BlobTypePNG false false.

(** Loaders that all fail, with a buffer fallback that decodes. *)
Definition failingLib : Setup.LoaderLib :=
  Setup.mkLoaderLib (fun _ => 0) (fun _ => Setup.mkMemoryData [] 0 0 0)
    (fun _ => inl []) (fun _ => None)
    (fun _ => inr (ErrOther "memory"%string))
    (fun _ _ => inr (ErrOther "buffer"%string))
    (fun _ _ => inr (ErrOther "source"%string))
    (fun f _ _ => match f with
                  | Setup.bufferFallbackFunc => inl (mkImage 1 1 1 1 1)
                  | _ => inr (ErrOther "fallback"%string)
                  end).

(** A storage that takes bucket and region from the request. *)
Definition storage : s3storage.S3Storage :=
  s3storage.mkS3Storage "images" "/" "/" "" "" "" 0 "" false true 0 true true "us-east-1".

(** A request with the two headers and an empty context. *)
Definition request (bucket region : string) : s3storage.Request :=
  s3storage.mkRequest
    (fun k => if String.eqb k "AWS-BUCKET" then bucket
              else if String.eqb k "AWS-REGION" then region else ""%string)
    (fun _ => None).

(** The client's answer for an object that is not there, and for one
    that may not be read. *)
Definition missing : s3storage.S3Error := s3storage.mkS3Error false false (Some "NotFound"%string).

Definition denied : s3storage.S3Error :=
  s3storage.mkS3Error false false (Some "AccessDenied"%string).

(** A world where [GetObject] always answers [answer] and imgix always
    serves a one-byte image. *)
Definition world (answer : s3storage.GetObjectOutput + s3storage.S3Error) : s3storage.World :=
  s3storage.mkWorld (fun _ _ _ => answer) (fun modified => 100 - modified) (fun _ => true)
    (fun _ _ => Some (s3storage.mkResponse 200 "image/jpeg" (Some [Byte.x2a]))).

End SetupSim.

(** [t] continues [t0]. *)
Definition continues (t0 t : Trace) : Prop := exists d, t = t0 ++ d.

(** Between [t0] and [t] the image [img] has been closed. *)
Definition closedSince (t0 t : Trace) (img : Image) : Prop :=
  exists d, t = t0 ++ d /\ In (EvClose img) d.

(** An image that comes with an error has been closed since [t0]. *)
Definition failedImageClosed (t0 : Trace) (r : Outcome (option Image * option error))
           (t : Trace) : Prop :=
  forall img e, r = Ok (Some img, Some e) -> closedSince t0 t img.

(** * Properties *)

(** ** Machine integers *)

Lemma wrap_in_range (z : Z) : GoInt.in_range z -> GoInt.wrap z = z.
Proof.
  unfold GoInt.in_range, GoInt.MinInt, GoInt.MaxInt, GoInt.wrap. intros Hz.
  rewrite Z.mod_small; lia.
Qed.

Lemma mul_c_int (a b : Z) : GoInt.c_int a -> GoInt.c_int b -> GoInt.mul a b = a * b.
Proof.
  unfold GoInt.c_int. intros Ha Hb. unfold GoInt.mul. apply wrap_in_range.
  unfold GoInt.in_range, GoInt.MinInt, GoInt.MaxInt. nia.
Qed.

(** ** Resolution guard *)

(** C2.  With [Unlimited] unset, [CheckResolution] on a decoded image
    closes it and fails with the resolution error exactly when the width
    exceeds [MaxWidth], or the page height exceeds [MaxHeight], or width
    times full height exceeds [MaxResolution]; otherwise, and in
    particular when width times height equals [MaxResolution] within the
    two extent limits, the image is returned untouched.  With [Unlimited]
    set the image is always returned untouched.  Extents are the C ints
    libvips reports. *)
Theorem CheckResolution_guard (E : Env) (v : Processor) (img : Image) (t : Trace) :
  (Unlimited v = true ->
   CheckResolution E v (Some img) None t = (Ok (Some img, None), t))
  /\ (Unlimited v = false ->
      GoInt.c_int (Width img) -> GoInt.c_int (Height img) ->
      let exceeded := Width img > MaxWidth v \/ PageHeight img > MaxHeight v
                      \/ Width img * Height img > MaxResolution v in
      (CheckResolution E v (Some img) None t
       = (Ok (None, Some (ErrImagor (ErrMaxResolutionExceeded E))), t ++ [EvClose img])
       <-> exceeded)
      /\ (CheckResolution E v (Some img) None t = (Ok (Some img, None), t)
          <-> ~ exceeded)
      /\ (Width img <= MaxWidth v -> PageHeight img <= MaxHeight v ->
          Width img * Height img = MaxResolution v ->
          CheckResolution E v (Some img) None t = (Ok (Some img, None), t))).
Proof.
  split.
  - intros HU. unfold CheckResolution. rewrite HU. reflexivity.
  - intros HU HW HH exceeded.
    assert (Hdec : (CheckResolution E v (Some img) None t
                    = (Ok (None, Some (ErrImagor (ErrMaxResolutionExceeded E))),
                       t ++ [EvClose img]) /\ exceeded)
                   \/ (CheckResolution E v (Some img) None t = (Ok (Some img, None), t)
                       /\ ~ exceeded)).
    { unfold CheckResolution, exceeded. rewrite HU, (mul_c_int _ _ HW HH). simpl negb.
      rewrite andb_true_l.
      destruct (Width img >? MaxWidth v) eqn:H1;
        [left; split; [reflexivity | lia] |].
      destruct (PageHeight img >? MaxHeight v) eqn:H2;
        [left; split; [reflexivity | lia] |].
      destruct (Width img * Height img >? MaxResolution v) eqn:H3;
        [left; split; [reflexivity | lia] |].
      right. split; [reflexivity | lia]. }
    destruct Hdec as [[Heq Hex] | [Heq Hnex]]; rewrite Heq.
    + split; [| split].
      * split; [intros _; exact Hex | reflexivity].
      * split; [discriminate | intros Hn; contradiction].
      * intros; exfalso; unfold exceeded in Hex; lia.
    + split; [| split].
      * split; [discriminate | intros Hn; contradiction].
      * split; [intros _; exact Hnex | reflexivity].
      * reflexivity.
Qed.

Lemma CheckResolution_guard_witness :
  CheckResolution (Sim.env (Sim.still 1 1 1)) Sim.processor
                  (Some (Sim.still 9000 9000 1)) None []
  = (Ok (Some (Sim.still 9000 9000 1), None), [])
  /\ CheckResolution (Sim.env (Sim.still 1 1 1)) Sim.processor
                     (Some (Sim.still 9000 9001 1)) None []
     = (Ok (None, Some (ErrImagor (NewError "maximum resolution exceeded" 422))),
        [EvClose (Sim.still 9000 9001 1)]).
Proof.
  split.
  - apply (CheckResolution_guard (Sim.env (Sim.still 1 1 1)) Sim.processor
                                 (Sim.still 9000 9000 1) []).
    + reflexivity.
    + unfold GoInt.c_int; simpl; lia.
    + unfold GoInt.c_int; simpl; lia.
    + simpl; lia.
    + simpl; lia.
    + reflexivity.
  - apply (CheckResolution_guard (Sim.env (Sim.still 1 1 1)) Sim.processor
                                 (Sim.still 9000 9001 1) []).
    + reflexivity.
    + unfold GoInt.c_int; simpl; lia.
    + unfold GoInt.c_int; simpl; lia.
    + simpl; lia.
Defined.

(** ** Frame-range resolver *)

(** What [recalculateImage] does, whatever the arguments: the handle is
    closed, and the indices are those of the three-way case split. *)
Lemma recalculateImage_eq (img : Image) (n page : Z) (t : Trace) :
  recalculateImage img n page t = (Ok (recalculated img n page), t ++ [EvClose img]).
Proof.
  unfold recalculateImage, recalculated, Close, bind, emit, ret.
  destruct ((page >? 1) && (page >? Pages img));
    [reflexivity | destruct ((n >? 1) && (n >? Pages img)); reflexivity].
Qed.

(** C9.  [recalculateImage] changes at most one of the two indices and the
    page comes first: when [page > 1] exceeds the frame count only the page
    is clamped and [n] comes back as it was, also when [n] exceeds the
    frame count too; [n] is clamped only when the page branch does not
    apply. *)
Theorem recalculateImage_page_priority (img : Image) (n page : Z) (t : Trace) :
  exists n' page',
    recalculateImage img n page t = (Ok (n', page'), t ++ [EvClose img])
    /\ (n' = n \/ page' = page)
    /\ (page > 1 -> page > Pages img -> page' = Pages img /\ n' = n)
    /\ (n' <> n ->
        ~ (page > 1 /\ page > Pages img) /\ n > 1 /\ n > Pages img
        /\ n' = Pages img /\ page' = page)
    /\ (~ (page > 1 /\ page > Pages img) -> n > 1 -> n > Pages img ->
        n' = Pages img /\ page' = page).
Proof.
  rewrite recalculateImage_eq. unfold recalculated.
  destruct ((page >? 1) && (page >? Pages img)) eqn:Hp.
  - exists n, (Pages img). repeat split; auto; try lia; congruence.
  - assert (Hnp : ~ (page > 1 /\ page > Pages img)).
    { intros [H1 H2].
      apply Z.gt_lt, Z.gtb_lt in H1. apply Z.gt_lt, Z.gtb_lt in H2.
      rewrite H1, H2 in Hp. discriminate. }
    destruct ((n >? 1) && (n >? Pages img)) eqn:Hn.
    + apply andb_true_iff in Hn. destruct Hn as [H1 H2].
      apply Z.gtb_lt in H1. apply Z.gtb_lt in H2.
      exists (Pages img), page. repeat split; auto; try lia.
    + exists n, page. repeat split; auto; try lia; try congruence.
      all: intros; exfalso.
      all: assert (H1' : (n >? 1) = true) by (apply Z.gtb_lt; lia).
      all: assert (H2' : (n >? Pages img) = true) by (apply Z.gtb_lt; lia).
      all: rewrite H1', H2' in Hn; discriminate.
Qed.

Lemma recalculateImage_page_priority_witness :
  recalculateImage (Sim.animation 100 100 3) 7 5 []
  = (Ok (7, 3), [EvClose (Sim.animation 100 100 3)]).
Proof.
  destruct (recalculateImage_page_priority (Sim.animation 100 100 3) 7 5 [])
    as (n' & page' & Heq & _ & Hpage & _).
  destruct Hpage as [Hp Hn]; [lia | simpl; lia |].
  rewrite Heq, Hp, Hn. reflexivity.
Defined.

(** ** Error classifier *)

(** C10.  [WrapErr] keeps nil, returns a classified error as it is, and is
    idempotent: wrapping its own result gives that result again and
    reports nothing more. *)
Theorem WrapErr_idempotent (E : Env) :
  (forall t, WrapErr E None t = (Ok None, t))
  /\ (forall e t, WrapErr E (Some (ErrImagor e)) t = (Ok (Some (ErrImagor e)), t))
  /\ (forall err t, exists r t',
         WrapErr E err t = (Ok r, t')
         /\ WrapErr E r t' = (Ok r, t')
         /\ (r = None \/ exists c, r = Some (ErrImagor c))).
Proof.
  split; [reflexivity | split; [reflexivity |]].
  intros [[e | m] |] t; simpl.
  - exists (Some (ErrImagor e)), t. repeat split. right. eauto.
  - destruct (strings.HasPrefix (TrimSpace E m) "VipsForeignLoad:"
              && strings.HasSuffix (TrimSpace E m) "is not in a known format").
    + exists (Some (ErrImagor (ErrUnsupportedFormat E))), t. repeat split. right. eauto.
    + eexists _, _. unfold bind, emit, ret. simpl. repeat split. right. eauto.
  - exists None, t. repeat split. left. reflexivity.
Qed.

(** The specification promises the original message in the generic
    error, and the unsupported-format error for the pattern alone.  The
    message kept is the trimmed one.  And an error whose text is the
    message of the unsupported-format constant, which package imagor
    declares as [NewError("unsupported format", 406)], does not match the
    pattern, is reported, and comes back equal to that constant. *)
Lemma WrapErr_trimmed_message_and_collision :
  (WrapErr (Sim.env (Sim.still 1 1 1)) (Some (ErrOther " boom ")) []
   = (Ok (Some (ErrImagor (NewError "boom" 406))), [EvCaptureException (ErrOther " boom ")])
   /\ "boom"%string <> " boom "%string)
  /\ (strings.HasPrefix (Sim.TrimSpace "unsupported format") "VipsForeignLoad:" = false
      /\ WrapErr (Sim.env (Sim.still 1 1 1)) (Some (ErrOther "unsupported format")) []
         = (Ok (Some (ErrImagor (ErrUnsupportedFormat (Sim.env (Sim.still 1 1 1))))),
            [EvCaptureException (ErrOther "unsupported format")])).
Proof. split; split; try reflexivity. discriminate. Qed.

(** C8, amended.  For an error that is not yet classified: when the
    trimmed message starts with "VipsForeignLoad:" and ends with "is not
    in a known format", [WrapErr] returns the unsupported-format error and
    reports nothing; otherwise it first reports the error to the
    diagnostics sink and then returns a generic error that carries the
    trimmed message and the status code 406.  The sink is left out
    exactly when the pattern matches, and the error returned is the
    unsupported-format error exactly when the pattern matches or the
    generic error built from the trimmed message is that very constant. *)
Theorem WrapErr_classifies (E : Env) (m : string) (t : Trace) :
  let msg := TrimSpace E m in
  let known := strings.HasPrefix msg "VipsForeignLoad:"
               && strings.HasSuffix msg "is not in a known format" in
  (known = true ->
   WrapErr E (Some (ErrOther m)) t = (Ok (Some (ErrImagor (ErrUnsupportedFormat E))), t))
  /\ (known = false ->
      WrapErr E (Some (ErrOther m)) t
      = (Ok (Some (ErrImagor (NewError msg 406))), t ++ [EvCaptureException (ErrOther m)]))
  /\ (snd (WrapErr E (Some (ErrOther m)) t) = t <-> known = true)
  /\ (fst (WrapErr E (Some (ErrOther m)) t) = Ok (Some (ErrImagor (ErrUnsupportedFormat E)))
      <-> known = true \/ NewError msg 406 = ErrUnsupportedFormat E).
Proof.
  intros msg known. unfold WrapErr. fold msg. fold known.
  destruct known; unfold bind, emit, ret; cbn [fst snd].
  - split; [reflexivity | split; [discriminate | split]].
    + split; reflexivity.
    + split; [left; reflexivity | reflexivity].
  - split; [discriminate | split; [reflexivity | split]].
    + split; [| discriminate]. intros H. exfalso.
      assert (Hl : length (t ++ [EvCaptureException (ErrOther m)]) = length t)
        by (f_equal; exact H).
      rewrite length_app in Hl. simpl in Hl. lia.
    + split.
      * intros H. right. congruence.
      * intros [H | H]; [discriminate | rewrite H; reflexivity].
Qed.

Lemma WrapErr_classifies_witness :
  WrapErr (Sim.env (Sim.still 1 1 1))
          (Some (ErrOther "VipsForeignLoad: buffer is not in a known format
")) []
  = (Ok (Some (ErrImagor (NewError "unsupported format" 406))), [])
  /\ WrapErr (Sim.env (Sim.still 1 1 1)) (Some (ErrOther "disk on fire ")) []
     = (Ok (Some (ErrImagor (NewError "disk on fire" 406))),
        [EvCaptureException (ErrOther "disk on fire ")]).
Proof.
  split.
  - apply (proj1 (WrapErr_classifies (Sim.env (Sim.still 1 1 1))
                    "VipsForeignLoad: buffer is not in a known format
" [])).
    reflexivity.
  - apply (proj1 (proj2 (WrapErr_classifies (Sim.env (Sim.still 1 1 1))
                           "disk on fire " []))).
    reflexivity.
Defined.

(** ** Crop-strategy selector *)

(** *** The resize step *)

Lemma ThumbnailImage_eq (E : Env) (img : Image) (width height : Z)
      (crop : Interesting) (size : Size) (t : Trace) :
  ThumbnailImage E img width height crop size t
  = (Ok match vips_thumbnail_image E img width height crop size with
        | inl img' => (img', None)
        | inr err => (img, Some err)
        end,
     t ++ [EvThumbnailImage img width height crop size]).
Proof.
  unfold ThumbnailImage, bind, emit, ret.
  destruct (vips_thumbnail_image E img width height crop size); reflexivity.
Qed.

Lemma ExtractAreaMultiPage_eq (E : Env) (img : Image) (left' top' w h : Z) (t : Trace) :
  ExtractAreaMultiPage E img left' top' w h t
  = (Ok match vips_extract_area_multi_page E img left' top' w h with
        | inl img' => (img', None)
        | inr err => (img, Some err)
        end,
     t ++ [EvExtractAreaMultiPage img left' top' w h]).
Proof.
  unfold ExtractAreaMultiPage, bind, emit, ret.
  destruct (vips_extract_area_multi_page E img left' top' w h); reflexivity.
Qed.

(** The rectangle [animatedThumbnailWithCrop] computes for a resized image
    of the given extents. *)
Lemma animatedThumbnailWithCrop_eq (E : Env) (v : Processor) (img : Image) (w h : Z)
      (crop : Interesting) (size : Size) (t : Trace) :
  Size_eqb size SizeDown && (Width img <? w) && (PageHeight img <? h) = false ->
  let byWidth := aspectGreater w h (Width img) (PageHeight img) in
  let rw := if byWidth then w else MaxWidth v in
  let rh := if byWidth then MaxHeight v else h in
  let t1 := t ++ [EvThumbnailImage img rw rh InterestingNone size] in
  animatedThumbnailWithCrop E v img w h crop size t
  = match vips_thumbnail_image E img rw rh InterestingNone size with
    | inr err => (Ok (img, Some err), t1)
    | inl img' =>
        ExtractAreaMultiPage E img'
          (if Interesting_eqb crop InterestingHigh then GoInt.sub (Width img') w
           else if Interesting_eqb crop InterestingCentre
                   || Interesting_eqb crop InterestingAttention
                then GoInt.div (GoInt.sub (Width img') w) 2 else 0)
          (if Interesting_eqb crop InterestingHigh then GoInt.sub (PageHeight img') h
           else if Interesting_eqb crop InterestingCentre
                   || Interesting_eqb crop InterestingAttention
                then GoInt.div (GoInt.sub (PageHeight img') h) 2 else 0)
          w h t1
    end.
Proof.
  intros Hguard byWidth rw rh t1. unfold animatedThumbnailWithCrop. rewrite Hguard.
  fold byWidth. unfold bind, t1, rw, rh.
  destruct byWidth; rewrite ThumbnailImage_eq;
    match goal with
    | |- context [vips_thumbnail_image ?e ?i ?a ?b ?c ?d] =>
        destruct (vips_thumbnail_image e i a b c d)
    end; try reflexivity;
    destruct (Interesting_eqb crop InterestingHigh); try reflexivity;
    destruct (Interesting_eqb crop InterestingCentre
              || Interesting_eqb crop InterestingAttention); reflexivity.
Qed.

(** [FocalThumbnail] in one equation: the resize call chosen by the
    comparison against the display extents, then the extraction at the
    clamped focal offsets. *)
Lemma FocalThumbnail_eq (E : Env) (v : Processor) (img : Image) (w h : Z)
      (fx fy : Float64.t) (t : Trace) :
  let rot := Orientation img >? 4 in
  let byWidth := aspectGreater w h (if rot then PageHeight img else Width img)
                               (if rot then Width img else PageHeight img) in
  let rw := if byWidth then w else MaxWidth v in
  let rh := if byWidth then MaxHeight v else h in
  let t1 := t ++ [EvThumbnailImage img rw rh InterestingNone SizeBoth] in
  FocalThumbnail E v img w h fx fy t
  = match vips_thumbnail_image E img rw rh InterestingNone SizeBoth with
    | inr err => (Ok (img, Some err), t1)
    | inl img' =>
        ExtractAreaMultiPage E img'
          (Float64.to_int
             (clamp0 (Float64.sub (Float64.mul (Float64.of_int (Width img')) fx)
                                  (Float64.div (Float64.of_int w) Float64.two))
                     (Float64.of_int (GoInt.sub (Width img') w))))
          (Float64.to_int
             (clamp0 (Float64.sub (Float64.mul (Float64.of_int (PageHeight img')) fy)
                                  (Float64.div (Float64.of_int h) Float64.two))
                     (Float64.of_int (GoInt.sub (PageHeight img') h))))
          w h t1
    end.
Proof.
  intros rot byWidth rw rh t1. unfold FocalThumbnail. fold rot.
  assert (Hsel : (let '(imageWidth, imageHeight) :=
                    if rot then (PageHeight img, Width img) else (Width img, PageHeight img) in
                  aspectGreater w h imageWidth imageHeight) = byWidth)
    by (unfold byWidth; destruct rot; reflexivity).
  destruct rot; simpl in Hsel; unfold bind; rewrite Hsel;
    unfold t1, rw, rh; destruct byWidth; rewrite ThumbnailImage_eq;
    match goal with
    | |- context [vips_thumbnail_image ?e ?i ?a ?b ?c ?d] =>
        destruct (vips_thumbnail_image e i a b c d)
    end; reflexivity.
Qed.

(** C7.  With the size policy [SizeDown], an image narrower than the
    target width and with a page height below the target height is
    returned as it is: nothing is called and no error is produced. *)
Theorem animatedThumbnailWithCrop_down_noop
        (E : Env) (v : Processor) (img : Image) (w h : Z) (crop : Interesting) (t : Trace) :
  Width img < w -> PageHeight img < h ->
  animatedThumbnailWithCrop E v img w h crop SizeDown t = (Ok (img, None), t).
Proof.
  intros Hw Hh. unfold animatedThumbnailWithCrop.
  apply Z.ltb_lt in Hw. apply Z.ltb_lt in Hh. rewrite Hw, Hh. reflexivity.
Qed.

Lemma animatedThumbnailWithCrop_down_noop_witness :
  animatedThumbnailWithCrop (Sim.env (Sim.still 1 1 1)) Sim.processor
                            (Sim.still 50 50 1) 200 200 InterestingCentre SizeDown []
  = (Ok (Sim.still 50 50 1, None), []).
Proof.
  apply animatedThumbnailWithCrop_down_noop; simpl; lia.
Defined.

(** The specification promises coordinates that are never negative,
    also when the resized image is smaller than the target.  A 100 x 10
    image that [SizeDown] leaves as it is, cropped to 50 x 200 around the
    centre, is cut at top -95. *)
Lemma animatedThumbnailWithCrop_negative_top :
  snd (animatedThumbnailWithCrop (Sim.env (Sim.still 1 1 1)) Sim.processor
                                 (Sim.still 100 10 1) 50 200 InterestingCentre SizeDown [])
  = [EvThumbnailImage (Sim.still 100 10 1) 9999 200 InterestingNone SizeDown;
     EvExtractAreaMultiPage (Sim.still 100 10 1) 25 (-95) 50 200]
  /\ ~ (0 <= -95 <= 10 - 200).
Proof. split; [vm_compute; reflexivity | lia]. Qed.

(** C1, amended.  When the resize step yields an image at least as large
    as the target in both dimensions, the rectangle handed to the
    extraction has its left and top inside [0, width - w] and
    [0, pageHeight - h]: for HighAnchor they are width - w and
    pageHeight - h, for Centre and Attention (width - w)/2 and
    (pageHeight - h)/2.  The coordinates are not clamped. *)
Theorem animatedThumbnailWithCrop_rectangle
        (E : Env) (v : Processor) (img img' : Image) (w h : Z)
        (crop : Interesting) (size : Size) (t : Trace) :
  let byWidth := aspectGreater w h (Width img) (PageHeight img) in
  let rw := if byWidth then w else MaxWidth v in
  let rh := if byWidth then MaxHeight v else h in
  Size_eqb size SizeDown && (Width img <? w) && (PageHeight img <? h) = false ->
  vips_thumbnail_image E img rw rh InterestingNone size = inl img' ->
  GoInt.in_range (Width img') -> GoInt.in_range (PageHeight img') ->
  0 <= w <= Width img' -> 0 <= h <= PageHeight img' ->
  crop = InterestingHigh \/ crop = InterestingCentre \/ crop = InterestingAttention ->
  exists left' top',
    snd (animatedThumbnailWithCrop E v img w h crop size t)
    = t ++ [EvThumbnailImage img rw rh InterestingNone size;
            EvExtractAreaMultiPage img' left' top' w h]
    /\ 0 <= left' <= Width img' - w
    /\ 0 <= top' <= PageHeight img' - h
    /\ (crop = InterestingHigh ->
        left' = Width img' - w /\ top' = PageHeight img' - h)
    /\ (crop = InterestingCentre \/ crop = InterestingAttention ->
        left' = (Width img' - w) / 2 /\ top' = (PageHeight img' - h) / 2).
Proof.
  intros byWidth rw rh Hguard Hres HW HH Hw Hh Hcrop.
  unfold GoInt.in_range in HW, HH.
  assert (HM : GoInt.MaxInt = 9223372036854775807) by reflexivity.
  assert (Hm : GoInt.MinInt = -9223372036854775808) by reflexivity.
  assert (Hsw : GoInt.sub (Width img') w = Width img' - w)
    by (apply wrap_in_range; unfold GoInt.in_range; lia).
  assert (Hsh : GoInt.sub (PageHeight img') h = PageHeight img' - h)
    by (apply wrap_in_range; unfold GoInt.in_range; lia).
  assert (Hhalf : forall d, 0 <= d -> 0 <= d / 2 <= d)
    by (intros d Hd; split; [apply Z.div_pos; lia | apply Z.div_le_upper_bound; lia]).
  assert (Hdiv : forall d, 0 <= d <= GoInt.MaxInt -> GoInt.div d 2 = d / 2).
  { intros d Hd. unfold GoInt.div. rewrite Z.quot_div_nonneg by lia.
    apply wrap_in_range. unfold GoInt.in_range. specialize (Hhalf d). lia. }
  pose proof (Hhalf (Width img' - w)) as HbW.
  pose proof (Hhalf (PageHeight img' - h)) as HbH.
  rewrite animatedThumbnailWithCrop_eq by exact Hguard.
  fold byWidth. fold rw. fold rh. rewrite Hres, ExtractAreaMultiPage_eq.
  cbn [snd]. rewrite <- app_assoc. cbn [app].
  rewrite Hsw, Hsh, !Hdiv by lia.
  destruct Hcrop as [-> | [-> | ->]]; cbn [Interesting_eqb orb];
    eexists _, _; (split; [reflexivity |]);
    repeat match goal with |- _ /\ _ => split end; try lia;
    try (intros [Hc | Hc]; discriminate); try (intros Hc; discriminate).
Qed.

Lemma animatedThumbnailWithCrop_rectangle_witness :
  exists left' top',
    snd (animatedThumbnailWithCrop (Sim.env (Sim.still 1 1 1)) Sim.processor
                                   (Sim.animation 400 300 4) 100 100
                                   InterestingCentre SizeBoth [])
    = [] ++ [EvThumbnailImage (Sim.animation 400 300 4) 9999 100 InterestingNone SizeBoth;
             EvExtractAreaMultiPage (mkImage 133 400 100 4 1) left' top' 100 100]
    /\ 0 <= left' <= 133 - 100
    /\ 0 <= top' <= 100 - 100.
Proof.
  destruct (animatedThumbnailWithCrop_rectangle
              (Sim.env (Sim.still 1 1 1)) Sim.processor
              (Sim.animation 400 300 4) (mkImage 133 400 100 4 1) 100 100
              InterestingCentre SizeBoth [])
    as (left' & top' & Htrace & Hl & Ht & _).
  - reflexivity.
  - vm_compute. reflexivity.
  - unfold GoInt.in_range. vm_compute. split; discriminate.
  - unfold GoInt.in_range. vm_compute. split; discriminate.
  - simpl. lia.
  - simpl. lia.
  - right. left. reflexivity.
  - exists left', top'. split; [exact Htrace | split; [exact Hl | exact Ht]].
Defined.

(** The specification gives the focal-point path the rule of the
    animated path, on the raw extents.  A 200 x 100 image with orientation
    6 and target 150 x 100 has 150/100 below 200/100, yet it is scaled by
    width. *)
Lemma FocalThumbnail_rotated_rule_differs :
  aspectGreater 150 100 (Width (Sim.still 200 100 6)) (PageHeight (Sim.still 200 100 6)) = false
  /\ snd (FocalThumbnail (Sim.env (Sim.still 1 1 1)) Sim.processor
                         (Sim.still 200 100 6) 150 100 Sim.half Sim.half [])
     = [EvThumbnailImage (Sim.still 200 100 6) 150 9999 InterestingNone SizeBoth;
        EvExtractAreaMultiPage (Sim.still 150 300 1) 0 100 150 100].
Proof. split; vm_compute; reflexivity. Qed.

(** C5, amended.  The animated-crop path scales by width (thumbnail with
    width w, height [MaxHeight], no crop) exactly when the float64
    quotient w/h is greater than width/pageHeight of the source, and
    otherwise by height (width [MaxWidth], height h, no crop).  The
    focal-point path applies this rule to the display extents of the
    source: to width/pageHeight for orientation codes up to 4, to
    pageHeight/width for codes above 4. *)
Theorem resize_selection_rule
        (E : Env) (v : Processor) (img : Image) (w h : Z)
        (crop : Interesting) (size : Size) (fx fy : Float64.t) (t : Trace) :
  (Size_eqb size SizeDown && (Width img <? w) && (PageHeight img <? h) = false ->
   exists rest,
     snd (animatedThumbnailWithCrop E v img w h crop size t)
     = t ++ (if aspectGreater w h (Width img) (PageHeight img)
             then EvThumbnailImage img w (MaxHeight v) InterestingNone size
             else EvThumbnailImage img (MaxWidth v) h InterestingNone size) :: rest)
  /\ (Orientation img <= 4 ->
      exists rest,
        snd (FocalThumbnail E v img w h fx fy t)
        = t ++ (if aspectGreater w h (Width img) (PageHeight img)
                then EvThumbnailImage img w (MaxHeight v) InterestingNone SizeBoth
                else EvThumbnailImage img (MaxWidth v) h InterestingNone SizeBoth) :: rest)
  /\ (Orientation img > 4 ->
      exists rest,
        snd (FocalThumbnail E v img w h fx fy t)
        = t ++ (if aspectGreater w h (PageHeight img) (Width img)
                then EvThumbnailImage img w (MaxHeight v) InterestingNone SizeBoth
                else EvThumbnailImage img (MaxWidth v) h InterestingNone SizeBoth) :: rest).
Proof.
  assert (Hfocal : forall rot : bool,
             (Orientation img >? 4) = rot ->
             exists rest,
               snd (FocalThumbnail E v img w h fx fy t)
               = t ++ (if aspectGreater w h (if rot then PageHeight img else Width img)
                                        (if rot then Width img else PageHeight img)
                       then EvThumbnailImage img w (MaxHeight v) InterestingNone SizeBoth
                       else EvThumbnailImage img (MaxWidth v) h InterestingNone SizeBoth)
                      :: rest).
  { intros rot Hrot. rewrite FocalThumbnail_eq. rewrite Hrot.
    destruct (aspectGreater w h (if rot then PageHeight img else Width img)
                            (if rot then Width img else PageHeight img));
      match goal with
      | |- context [vips_thumbnail_image ?e ?i ?a ?b ?c ?d] =>
          destruct (vips_thumbnail_image e i a b c d)
      end;
      try (eexists; rewrite ExtractAreaMultiPage_eq; simpl;
           rewrite <- app_assoc; reflexivity);
      exists []; reflexivity. }
  split; [| split].
  - intros Hguard. rewrite animatedThumbnailWithCrop_eq by exact Hguard.
    destruct (aspectGreater w h (Width img) (PageHeight img));
      match goal with
      | |- context [vips_thumbnail_image ?e ?i ?a ?b ?c ?d] =>
          destruct (vips_thumbnail_image e i a b c d)
      end;
      try (exists []; reflexivity);
      eexists; rewrite ExtractAreaMultiPage_eq; simpl;
      rewrite <- app_assoc; reflexivity.
  - intros Ho. apply (Hfocal false). rewrite Z.gtb_ltb. apply Z.ltb_ge. lia.
  - intros Ho. apply (Hfocal true). apply Z.gtb_lt. lia.
Qed.

Lemma resize_selection_rule_witness :
  (exists rest,
      snd (animatedThumbnailWithCrop (Sim.env (Sim.still 1 1 1)) Sim.processor
                                     (Sim.animation 400 300 4) 100 100
                                     InterestingCentre SizeBoth [])
      = [] ++ EvThumbnailImage (Sim.animation 400 300 4) 9999 100 InterestingNone SizeBoth
              :: rest)
  /\ (exists rest,
         snd (FocalThumbnail (Sim.env (Sim.still 1 1 1)) Sim.processor
                             (Sim.still 200 100 6) 150 100 Sim.half Sim.half [])
         = [] ++ EvThumbnailImage (Sim.still 200 100 6) 150 9999 InterestingNone SizeBoth
                 :: rest).
Proof.
  split.
  - apply (proj1 (resize_selection_rule
                      (Sim.env (Sim.still 1 1 1)) Sim.processor
                      (Sim.animation 400 300 4) 100 100
                      InterestingCentre SizeBoth Sim.half Sim.half [])).
    reflexivity.
  - apply (proj2 (proj2 (resize_selection_rule
                             (Sim.env (Sim.still 1 1 1)) Sim.processor
                             (Sim.still 200 100 6) 150 100
                             InterestingCentre SizeBoth Sim.half Sim.half []))).
    simpl. lia.
Defined.

(** *** Focal point *)

(** In float64 order, [clamp0 x hi] lies between 0 and [hi] as soon as
    [x] is a number and [hi] is not below 0. *)
Lemma clamp0_bounds (x hi : Float64.t) :
  Float64.IsNaN x = false -> Float64.le Float64.zero hi = true ->
  Float64.le Float64.zero (clamp0 x hi) = true
  /\ Float64.le (clamp0 x hi) hi = true.
Proof.
  unfold clamp0, Float64.Max, Float64.Min, Float64.le, Float64.lt, Float64.gt,
    Float64.eq, Float64.zero, Float64.NaN, SFleb, SFltb, SFeqb.
  destruct x as [sx | sx | | sx mx ex], hi as [sh | sh | | sh mh eh];
    try destruct sx; try destruct sh; cbn; intros Hn Hh; try discriminate; auto.
  all: try (rewrite Z.compare_refl, Pos.compare_cont_refl; auto).
  all: try (destruct (ex ?= eh) eqn:He; cbn; auto).
  all: try (rewrite Z.compare_refl, Pos.compare_cont_refl; auto).
  all: try (destruct (Pos.compare_cont Eq mx mh) eqn:Hm; cbn; auto).
  all: try (rewrite ?He, ?Hm, ?Z.compare_refl, ?Pos.compare_cont_refl; auto).
Qed.

(** Binary64 facts behind the truncated coordinate. *)

Lemma digits2_pos_size (p : positive) : digits2_pos p = Pos.size p.
Proof. induction p; simpl; congruence. Qed.

Lemma digits2_pos_iter_xO (p d : positive) :
  Zpos (digits2_pos (Pos.iter xO p d)) = Zpos (digits2_pos p) + Zpos d.
Proof.
  induction d using Pos.peano_ind.
  - simpl. lia.
  - rewrite Pos.iter_succ. simpl digits2_pos. lia.
Qed.

Lemma Zpos_iter_xO (p d : positive) :
  Zpos (Pos.iter xO p d) = Zpos p * 2 ^ Zpos d.
Proof.
  induction d using Pos.peano_ind.
  - simpl. lia.
  - rewrite Pos.iter_succ, Pos2Z.inj_succ, Z.pow_succ_r by lia.
    rewrite Pos2Z.inj_xO, IHd. lia.
Qed.

(** A mantissa of full width at an exponent in the normal range is left
    as it is by the final rounding. *)
Lemma binary_round_aux_exact (m : positive) (e : Z) :
  Zpos (digits2_pos m) = 53 -> -1074 <= e <= 971 ->
  binary_round_aux Float64.prec Float64.emax false (Zpos m) e loc_Exact
  = S754_finite false m e.
Proof.
  intros Hd He. unfold binary_round_aux, shr_fexp. simpl Zdigits2.
  change Corelib.BinNums.IntDef.Z.sub with Z.sub.
  change Corelib.BinNums.IntDef.Z.add with Z.add.
  change Corelib.BinNums.IntDef.Z.leb with Z.leb.
  assert (H0 : fexp Float64.prec Float64.emax (Zpos (digits2_pos m) + e) - e = 0)
    by (unfold fexp, emin, Float64.prec, Float64.emax; lia).
  rewrite H0.
  cbv beta iota delta [shr shr_record_of_loc round_nearest_even loc_of_shr_record
                       shr_m shr_r shr_s Zdigits2].
  rewrite H0.
  assert (Hle : (e <=? Float64.emax - Float64.prec) = true)
    by (apply Z.leb_le; unfold Float64.prec, Float64.emax; lia).
  rewrite Hle. reflexivity.
Qed.

(** The same for the sign bit set. *)
Lemma binary_round_aux_exact_neg (m : positive) (e : Z) :
  Zpos (digits2_pos m) = 53 -> -1074 <= e <= 971 ->
  binary_round_aux Float64.prec Float64.emax true (Zpos m) e loc_Exact
  = S754_finite true m e.
Proof.
  intros Hd He. unfold binary_round_aux, shr_fexp. simpl Zdigits2.
  change Corelib.BinNums.IntDef.Z.sub with Z.sub.
  change Corelib.BinNums.IntDef.Z.add with Z.add.
  change Corelib.BinNums.IntDef.Z.leb with Z.leb.
  assert (H0 : fexp Float64.prec Float64.emax (Zpos (digits2_pos m) + e) - e = 0)
    by (unfold fexp, emin, Float64.prec, Float64.emax; lia).
  rewrite H0.
  cbv beta iota delta [shr shr_record_of_loc round_nearest_even loc_of_shr_record
                       shr_m shr_r shr_s Zdigits2].
  rewrite H0.
  assert (Hle : (e <=? Float64.emax - Float64.prec) = true)
    by (apply Z.leb_le; unfold Float64.prec, Float64.emax; lia).
  rewrite Hle. reflexivity.
Qed.

(** [float64(i)] is exact for 0 < i < 2^53: the mantissa is [i] shifted to
    53 bits. *)
Lemma of_int_exact (p : positive) :
  Zpos (digits2_pos p) <= 53 ->
  exists m e,
    Float64.of_int (Zpos p) = S754_finite false m e
    /\ Zpos (digits2_pos m) = 53 /\ -52 <= e <= 0
    /\ Zpos m = Zpos p * 2 ^ (- e).
Proof.
  intros Hd. unfold Float64.of_int, binary_normalize, binary_round.
  assert (Hf : fexp Float64.prec Float64.emax (Zpos (digits2_pos p) + 0)
               = Zpos (digits2_pos p) - 53)
    by (unfold fexp, emin, Float64.prec, Float64.emax; lia).
  change Corelib.BinNums.IntDef.Z.add with Z.add.
  rewrite Hf. unfold shl_align.
  change Corelib.BinNums.IntDef.Z.sub with Z.sub.
  destruct (Zpos (digits2_pos p) - 53 - 0) as [| d | d] eqn:Hk; try lia.
  - exists p, 0. split; [| split; [lia | split; [lia | simpl; lia]]].
    apply binary_round_aux_exact; lia.
  - exists (Pos.iter xO p d), (Zpos (digits2_pos p) - 53).
    assert (Hdd : Zpos (digits2_pos (Pos.iter xO p d)) = 53)
      by (rewrite digits2_pos_iter_xO; lia).
    split; [| split; [exact Hdd | split; [lia |]]].
    + apply binary_round_aux_exact; lia.
    + rewrite Zpos_iter_xO. f_equal. f_equal. lia.
Qed.

Lemma Zpos_lt_pow_digits (m : positive) : Zpos m < 2 ^ Zpos (digits2_pos m).
Proof.
  rewrite digits2_pos_size.
  pose proof (Pos.size_gt m) as H.
  apply Pos2Z.pos_lt_pos in H. rewrite Pos2Z.inj_pow in H. exact H.
Qed.

Lemma pow_digits_le_Zpos (m : positive) : 2 ^ (Zpos (digits2_pos m) - 1) <= Zpos m.
Proof.
  induction m as [m IH | m IH |].
  - simpl digits2_pos. rewrite Pos2Z.inj_succ.
    replace (Z.succ (Zpos (digits2_pos m)) - 1) with (Z.succ (Zpos (digits2_pos m) - 1)) by lia.
    rewrite Z.pow_succ_r by lia. change (Zpos m~1) with (2 * Zpos m + 1). lia.
  - simpl digits2_pos. rewrite Pos2Z.inj_succ.
    replace (Z.succ (Zpos (digits2_pos m)) - 1) with (Z.succ (Zpos (digits2_pos m) - 1)) by lia.
    rewrite Z.pow_succ_r by lia. change (Zpos m~0) with (2 * Zpos m). lia.
  - simpl. lia.
Qed.

(** The integer part of a positive finite value [m * 2^e] with [e <= 0]. *)
Lemma trunc_finite_nonpos (m : positive) (e : Z) :
  e <= 0 -> Float64.trunc (S754_finite false m e) = Some (Zpos m / 2 ^ (- e)).
Proof.
  intros He. unfold Float64.trunc.
  destruct (0 <=? e) eqn:H0; [| reflexivity].
  apply Z.leb_le in H0. assert (e = 0) by lia. subst e.
  simpl. rewrite Z.div_1_r. f_equal. lia.
Qed.

Lemma to_int_of_int (d : Z) : 0 <= d < 2 ^ 53 -> Float64.to_int (Float64.of_int d) = d.
Proof.
  intros Hd. destruct d as [| p | p]; [reflexivity | | lia].
  assert (Hdig : Zpos (digits2_pos p) <= 53).
  { destruct (Z.le_gt_cases (Zpos (digits2_pos p)) 53) as [H | H]; [exact H |].
    pose proof (pow_digits_le_Zpos p) as Hp.
    assert (2 ^ 53 <= 2 ^ (Zpos (digits2_pos p) - 1)) by (apply Z.pow_le_mono_r; lia).
    lia. }
  destruct (of_int_exact p Hdig) as (m & e & -> & _ & He & Hm).
  unfold Float64.to_int. rewrite trunc_finite_nonpos by lia.
  rewrite Hm, Z.div_mul by (apply Z.pow_nonzero; lia).
  assert (HM : GoInt.MaxInt = 9223372036854775807) by reflexivity.
  assert (Hmin : GoInt.MinInt = -9223372036854775808) by reflexivity.
  assert (H1 : (GoInt.MinInt <=? Zpos p) = true) by (apply Z.leb_le; lia).
  assert (H2 : (Zpos p <=? GoInt.MaxInt) = true).
  { apply Z.leb_le. rewrite HM. change (2 ^ 53) with 9007199254740992 in Hd. lia. }
  rewrite H1, H2. reflexivity.
Qed.

(** Below a full-width positive value, the integer part of a positive
    value with at most 53 mantissa bits is not larger. *)
Lemma trunc_le_of_lt (mx my : positive) (ex ey : Z) :
  Zpos (digits2_pos mx) <= 53 -> Zpos (digits2_pos my) = 53 -> -52 <= ey <= 0 ->
  SFltb (S754_finite false mx ex) (S754_finite false my ey) = true ->
  Zpos mx / 2 ^ (- ex) <= Zpos my / 2 ^ (- ey) /\ ex <= 0.
Proof.
  intros Hdx Hdy Hey Hlt. unfold SFltb, SFcompare in Hlt.
  change Corelib.BinNums.IntDef.Z.compare with Z.compare in Hlt.
  destruct (ex ?= ey) eqn:Hc; try discriminate.
  - apply Z.compare_eq in Hc. subst ey. split; [| lia].
    apply Z.div_le_mono; [apply Z.pow_pos_nonneg; lia |].
    destruct (Pos.compare_cont Eq mx my) eqn:Hm; try discriminate.
    change (Pos.compare_cont Eq mx my) with (Pos.compare mx my) in Hm.
    assert (Zpos mx < Zpos my) by (apply Pos2Z.pos_lt_pos; exact Hm). lia.
  - assert (Hc' : ex < ey) by exact Hc. split; [| lia].
    pose proof (Zpos_lt_pow_digits mx) as Hx.
    pose proof (pow_digits_le_Zpos my) as Hy. rewrite Hdy in Hy.
    change (2 ^ (53 - 1)) with (2 ^ 52) in Hy.
    assert (Hx53 : Zpos mx < 2 ^ 53).
    { assert (2 ^ Zpos (digits2_pos mx) <= 2 ^ 53) by (apply Z.pow_le_mono_r; lia). lia. }
    assert (Hlow : 2 ^ (52 + ey) <= Zpos my / 2 ^ (- ey)).
    { apply Z.div_le_lower_bound; [apply Z.pow_pos_nonneg; lia |].
      rewrite <- Z.pow_add_r by lia. replace (- ey + (52 + ey)) with 52 by lia. exact Hy. }
    assert (Hup : Zpos mx / 2 ^ (- ex) < 2 ^ (52 + ey)).
    { apply Z.div_lt_upper_bound; [apply Z.pow_pos_nonneg; lia |].
      rewrite <- Z.pow_add_r by lia.
      assert (2 ^ 53 <= 2 ^ (- ex + (52 + ey))) by (apply Z.pow_le_mono_r; lia). lia. }
    lia.
Qed.

Lemma clamp0_cases (x : Float64.t) (m : positive) (e : Z) :
  Float64.IsNaN x = false ->
  clamp0 x (S754_finite false m e) = Float64.zero
  \/ clamp0 x (S754_finite false m e) = S754_finite false m e
  \/ exists mx ex, x = S754_finite false mx ex
                   /\ clamp0 x (S754_finite false m e) = x
                   /\ SFltb x (S754_finite false m e) = true.
Proof.
  unfold clamp0, Float64.Max, Float64.Min, Float64.le, Float64.lt, Float64.gt,
    Float64.eq, Float64.zero, Float64.NaN, SFleb, SFltb, SFeqb.
  destruct x as [sx | sx | | sx mx ex]; try destruct sx; cbn; intros Hn;
    try discriminate; auto.
  destruct (Corelib.BinNums.IntDef.Z.compare ex e); cbn; auto.
  - destruct (Pos.compare_cont Eq mx m); cbn; auto.
    right. right. exists mx, ex. auto.
  - right. right. exists mx, ex. auto.
Qed.

Lemma clamp0_zero_bound (x : Float64.t) (s : bool) :
  Float64.IsNaN x = false -> Float64.to_int (clamp0 x (S754_zero s)) = 0.
Proof.
  unfold clamp0, Float64.Max, Float64.Min, Float64.le, Float64.lt, Float64.gt,
    Float64.eq, Float64.zero, Float64.NaN, SFleb, SFltb, SFeqb.
  destruct x as [sx | sx | | sx mx ex]; try destruct sx; destruct s; cbn; intros Hn;
    try discriminate; auto.
Qed.

(** The clamped offset, truncated, is a coordinate between 0 and the
    bound [d], when the offset is a valid binary64 number and [d] is an
    integer that binary64 represents exactly. *)
Lemma clamp0_to_int_bounds (x : Float64.t) (d : Z) :
  Float64.IsNaN x = false -> valid_binary Float64.prec Float64.emax x = true ->
  0 <= d < 2 ^ 53 ->
  0 <= Float64.to_int (clamp0 x (Float64.of_int d)) <= d.
Proof.
  intros Hn Hv Hd. destruct d as [| p | p]; [| | lia].
  - change (Float64.of_int 0) with (S754_zero false).
    rewrite clamp0_zero_bound by exact Hn. lia.
  - pose proof (to_int_of_int (Zpos p) Hd) as Hhi.
    assert (Hdig : Zpos (digits2_pos p) <= 53).
    { destruct (Z.le_gt_cases (Zpos (digits2_pos p)) 53) as [H | H]; [exact H |].
      pose proof (pow_digits_le_Zpos p) as Hp.
      assert (2 ^ 53 <= 2 ^ (Zpos (digits2_pos p) - 1)) by (apply Z.pow_le_mono_r; lia).
      lia. }
    destruct (of_int_exact p Hdig) as (m & e & Heq & Hdm & He & Hm).
    rewrite Heq in *.
    destruct (clamp0_cases x m e Hn) as [-> | [-> | (mx & ex & -> & -> & Hlt)]].
    + cbn. lia.
    + rewrite Hhi. lia.
    + simpl in Hv. unfold bounded, canonical_mantissa in Hv.
      apply andb_true_iff in Hv. destruct Hv as [Hcan _].
      change Corelib.BinNums.IntDef.Z.eqb with Z.eqb in Hcan.
      change Corelib.BinNums.IntDef.Z.add with Z.add in Hcan.
      apply Z.eqb_eq in Hcan.
      assert (Hdx : Zpos (digits2_pos mx) <= 53).
      { unfold fexp, emin, Float64.prec, Float64.emax in Hcan.
        change Corelib.BinNums.IntDef.Z.max with Z.max in Hcan.
        change Corelib.BinNums.IntDef.Z.sub with Z.sub in Hcan. lia. }
      destruct (trunc_le_of_lt mx m ex e Hdx Hdm He Hlt) as [Hle Hex].
      assert (Hp : Zpos m / 2 ^ (- e) = Zpos p)
        by (rewrite Hm; apply Z.div_mul; apply Z.pow_nonzero; lia).
      assert (H0 : 0 <= Zpos mx / 2 ^ (- ex))
        by (apply Z.div_pos; [lia | apply Z.pow_pos_nonneg; lia]).
      unfold Float64.to_int. rewrite trunc_finite_nonpos by exact Hex.
      assert (HM : GoInt.MaxInt = 9223372036854775807) by reflexivity.
      assert (Hmin : GoInt.MinInt = -9223372036854775808) by reflexivity.
      change (2 ^ 53) with 9007199254740992 in Hd.
      assert (H1 : (GoInt.MinInt <=? Zpos mx / 2 ^ (- ex)) = true) by (apply Z.leb_le; lia).
      assert (H2 : (Zpos mx / 2 ^ (- ex) <=? GoInt.MaxInt) = true) by (apply Z.leb_le; lia).
      rewrite H1, H2. cbn [andb]. lia.
Qed.

(** [float64(i)] for -2^53 < i < 0 is a negative finite value. *)
Lemma of_int_negative (d : Z) :
  - 2 ^ 53 < d < 0 -> exists m e, Float64.of_int d = S754_finite true m e.
Proof.
  intros Hd. destruct d as [| p | p]; try lia.
  assert (Hdig : Zpos (digits2_pos p) <= 53).
  { destruct (Z.le_gt_cases (Zpos (digits2_pos p)) 53) as [H | H]; [exact H |].
    pose proof (pow_digits_le_Zpos p) as Hp.
    assert (2 ^ 53 <= 2 ^ (Zpos (digits2_pos p) - 1)) by (apply Z.pow_le_mono_r; lia).
    lia. }
  unfold Float64.of_int, binary_normalize, binary_round.
  assert (Hf : fexp Float64.prec Float64.emax (Zpos (digits2_pos p) + 0)
               = Zpos (digits2_pos p) - 53)
    by (unfold fexp, emin, Float64.prec, Float64.emax; lia).
  change Corelib.BinNums.IntDef.Z.add with Z.add.
  rewrite Hf. unfold shl_align.
  change Corelib.BinNums.IntDef.Z.sub with Z.sub.
  destruct (Zpos (digits2_pos p) - 53 - 0) as [| k | k] eqn:Hk; try lia.
  - exists p, 0. apply binary_round_aux_exact_neg; lia.
  - exists (Pos.iter xO p k), (Zpos (digits2_pos p) - 53).
    apply binary_round_aux_exact_neg; [rewrite digits2_pos_iter_xO; lia | lia].
Qed.

(** Below a negative bound nothing is left of the offset: the clamp
    gives 0. *)
Lemma clamp0_negative_bound (x : Float64.t) (m : positive) (e : Z) :
  Float64.IsNaN x = false -> clamp0 x (S754_finite true m e) = Float64.zero.
Proof.
  unfold clamp0, Float64.Max, Float64.Min, Float64.le, Float64.lt, Float64.gt,
    Float64.eq, Float64.zero, Float64.NaN, SFleb, SFltb, SFeqb.
  destruct x as [sx | sx | | sx mx ex]; try destruct sx; cbn; intros Hn;
    try discriminate; auto.
  destruct (Corelib.BinNums.IntDef.Z.compare ex e); cbn; auto.
  destruct (Pos.compare_cont Eq mx m); cbn; auto.
Qed.

Lemma clamp0_to_int_negative (x : Float64.t) (d : Z) :
  Float64.IsNaN x = false -> - 2 ^ 53 < d < 0 ->
  Float64.to_int (clamp0 x (Float64.of_int d)) = 0.
Proof.
  intros Hn Hd. destruct (of_int_negative d Hd) as (m & e & ->).
  rewrite clamp0_negative_bound by exact Hn. reflexivity.
Qed.

(** The specification has both coordinates inside [0, width - w] and
    [0, pageHeight - h].  A 100 x 5000 image, within the limits, resized
    for the target 400 x 100 is scaled by width with the height capped at
    [MaxHeight]: it comes out 200 x 9999, narrower than the target, and is
    cut at left 0, outside the empty range [0, 200 - 400]; the extraction
    fails. *)
Lemma FocalThumbnail_narrow_result_cut_at_zero :
  CheckResolution (Sim.env (Sim.still 1 1 1)) Sim.processor
                  (Some (Sim.still 100 5000 1)) None []
  = (Ok (Some (Sim.still 100 5000 1), None), [])
  /\ FocalThumbnail (Sim.env (Sim.still 1 1 1)) Sim.processor
                    (Sim.still 100 5000 1) 400 100 Sim.half Sim.half []
     = (Ok (Sim.still 200 9999 1, Some (ErrOther "extract_area: bad extract area")),
        [EvThumbnailImage (Sim.still 100 5000 1) 400 9999 InterestingNone SizeBoth;
         EvExtractAreaMultiPage (Sim.still 200 9999 1) 0 4949 400 100])
  /\ ~ (0 <= 0 <= Width (Sim.still 200 9999 1) - 400).
Proof.
  split; [vm_compute; reflexivity | split; [vm_compute; reflexivity |]].
  simpl. lia.
Qed.

(** C6, amended.  [FocalThumbnail] compares the target aspect against the
    swapped extents (page height as width, width as height) when the
    orientation code is above 4 and against the unswapped ones otherwise,
    and resizes without crop accordingly.  On the resized image it
    computes left = width * fx - w/2 and top = pageHeight * fy - h/2 in
    float64, passes each through max(0, min(., width - w)) resp.
    max(0, min(., pageHeight - h)), and hands the truncated values to the
    page-aware extraction.  The offset being a number and the bound not
    negative, the clamped value lies between 0 and the bound in float64
    order; the offset being a valid binary64 number and the resized image
    not smaller than the target, the coordinate handed over lies in
    [0, width - w] resp. [0, pageHeight - h]; the offset being a number
    and the resized image smaller than the target, the coordinate handed
    over is 0.
    Two images with the same raw extents and orientation codes 1 and 6 are
    cut at different rectangles. *)
Theorem FocalThumbnail_orientation_and_clamp :
  (forall (E : Env) (v : Processor) (img : Image) (w h : Z)
          (fx fy : Float64.t) (t : Trace),
      let iw := if Orientation img >? 4 then PageHeight img else Width img in
      let ih := if Orientation img >? 4 then Width img else PageHeight img in
      let byWidth := aspectGreater w h iw ih in
      let rw := if byWidth then w else MaxWidth v in
      let rh := if byWidth then MaxHeight v else h in
      let t1 := t ++ [EvThumbnailImage img rw rh InterestingNone SizeBoth] in
      (Orientation img > 4 -> iw = PageHeight img /\ ih = Width img)
      /\ (Orientation img <= 4 -> iw = Width img /\ ih = PageHeight img)
      /\ match vips_thumbnail_image E img rw rh InterestingNone SizeBoth with
         | inr err => FocalThumbnail E v img w h fx fy t = (Ok (img, Some err), t1)
         | inl img' =>
             let left' := Float64.sub (Float64.mul (Float64.of_int (Width img')) fx)
                                      (Float64.div (Float64.of_int w) Float64.two) in
             let top' := Float64.sub (Float64.mul (Float64.of_int (PageHeight img')) fy)
                                     (Float64.div (Float64.of_int h) Float64.two) in
             let maxLeft := Float64.of_int (GoInt.sub (Width img') w) in
             let maxTop := Float64.of_int (GoInt.sub (PageHeight img') h) in
             FocalThumbnail E v img w h fx fy t
             = ExtractAreaMultiPage E img' (Float64.to_int (clamp0 left' maxLeft))
                                    (Float64.to_int (clamp0 top' maxTop)) w h t1
             /\ snd (FocalThumbnail E v img w h fx fy t)
                = t1 ++ [EvExtractAreaMultiPage img' (Float64.to_int (clamp0 left' maxLeft))
                                                (Float64.to_int (clamp0 top' maxTop)) w h]
             /\ (Float64.IsNaN left' = false -> Float64.le Float64.zero maxLeft = true ->
                 Float64.le Float64.zero (clamp0 left' maxLeft) = true
                 /\ Float64.le (clamp0 left' maxLeft) maxLeft = true)
             /\ (Float64.IsNaN top' = false -> Float64.le Float64.zero maxTop = true ->
                 Float64.le Float64.zero (clamp0 top' maxTop) = true
                 /\ Float64.le (clamp0 top' maxTop) maxTop = true)
             /\ (Float64.IsNaN left' = false ->
                 valid_binary Float64.prec Float64.emax left' = true ->
                 0 <= Width img' - w < 2 ^ 53 ->
                 0 <= Float64.to_int (clamp0 left' maxLeft) <= Width img' - w)
             /\ (Float64.IsNaN top' = false ->
                 valid_binary Float64.prec Float64.emax top' = true ->
                 0 <= PageHeight img' - h < 2 ^ 53 ->
                 0 <= Float64.to_int (clamp0 top' maxTop) <= PageHeight img' - h)
             /\ (Float64.IsNaN left' = false -> - 2 ^ 53 < Width img' - w < 0 ->
                 Float64.to_int (clamp0 left' maxLeft) = 0)
             /\ (Float64.IsNaN top' = false -> - 2 ^ 53 < PageHeight img' - h < 0 ->
                 Float64.to_int (clamp0 top' maxTop) = 0)
         end)
  /\ snd (FocalThumbnail (Sim.env (Sim.still 1 1 1)) Sim.processor
                         (Sim.still 200 100 1) 100 100 Sim.half Sim.half [])
     = [EvThumbnailImage (Sim.still 200 100 1) 9999 100 InterestingNone SizeBoth;
        EvExtractAreaMultiPage (Sim.still 200 100 1) 50 0 100 100]
  /\ snd (FocalThumbnail (Sim.env (Sim.still 1 1 1)) Sim.processor
                         (Sim.still 200 100 6) 100 100 Sim.half Sim.half [])
     = [EvThumbnailImage (Sim.still 200 100 6) 100 9999 InterestingNone SizeBoth;
        EvExtractAreaMultiPage (Sim.still 100 200 1) 0 50 100 100].
Proof.
  split; [| split; vm_compute; reflexivity].
  intros E v img w h fx fy t iw ih byWidth rw rh t1.
  split; [| split].
  - intros Ho. unfold iw, ih.
    assert (Hb : (Orientation img >? 4) = true) by (apply Z.gtb_lt; lia).
    rewrite Hb. split; reflexivity.
  - intros Ho. unfold iw, ih.
    assert (Hb : (Orientation img >? 4) = false) by (rewrite Z.gtb_ltb; apply Z.ltb_ge; lia).
    rewrite Hb. split; reflexivity.
  - rewrite FocalThumbnail_eq. fold iw ih byWidth rw rh t1.
    destruct (vips_thumbnail_image E img rw rh InterestingNone SizeBoth) as [img' | err];
      [| reflexivity].
    intros left' top' maxLeft maxTop.
    split; [reflexivity |].
    split; [rewrite ExtractAreaMultiPage_eq; reflexivity |].
    assert (Hsub : forall a b, 0 <= a - b < 2 ^ 53 -> GoInt.sub a b = a - b).
    { intros a b Hab. apply wrap_in_range.
      change (2 ^ 53) with 9007199254740992 in Hab.
      unfold GoInt.in_range, GoInt.MinInt, GoInt.MaxInt. lia. }
    assert (Hsubn : forall a b, - 2 ^ 53 < a - b < 0 -> GoInt.sub a b = a - b).
    { intros a b Hab. apply wrap_in_range.
      change (2 ^ 53) with 9007199254740992 in Hab.
      unfold GoInt.in_range, GoInt.MinInt, GoInt.MaxInt. lia. }
    split; [apply clamp0_bounds |]. split; [apply clamp0_bounds |].
    split; [intros Hn Hv Hd; unfold maxLeft; rewrite Hsub by exact Hd;
            apply clamp0_to_int_bounds; assumption |].
    split; [intros Hn Hv Hd; unfold maxTop; rewrite Hsub by exact Hd;
            apply clamp0_to_int_bounds; assumption |].
    split; intros Hn Hd; unfold maxLeft, maxTop; rewrite Hsubn by exact Hd;
      apply clamp0_to_int_negative; assumption.
Qed.

Lemma FocalThumbnail_orientation_and_clamp_witness :
  let left' := Float64.sub (Float64.mul (Float64.of_int 200) Sim.half)
                           (Float64.div (Float64.of_int 100) Float64.two) in
  let maxLeft := Float64.of_int (GoInt.sub 200 100) in
  (Float64.le Float64.zero (clamp0 left' maxLeft) = true
   /\ Float64.le (clamp0 left' maxLeft) maxLeft = true)
  /\ 0 <= Float64.to_int (clamp0 left' maxLeft) <= 200 - 100.
Proof.
  intros left' maxLeft.
  pose proof (proj1 FocalThumbnail_orientation_and_clamp
                    (Sim.env (Sim.still 1 1 1)) Sim.processor
                    (Sim.still 200 100 1) 100 100 Sim.half Sim.half []) as H.
  destruct H as (_ & _ & H).
  change (vips_thumbnail_image (Sim.env (Sim.still 1 1 1)) (Sim.still 200 100 1)
            9999 100 InterestingNone SizeBoth)
    with (@inl Image error (Sim.still 200 100 1)) in H.
  destruct H as (_ & _ & Hl & _ & Hi & _).
  split.
  - apply Hl; reflexivity.
  - apply Hi; [reflexivity | reflexivity | simpl; lia].
Defined.

(** ** The pipeline and its retry *)

(** *** Fuel *)

Lemma fuel_free_ret {A : Type} (a : A) : fuel_free (ret a).
Proof. intros t. discriminate. Qed.

Lemma fuel_free_panic {A : Type} : fuel_free (@panic A).
Proof. intros t. discriminate. Qed.

Lemma fuel_free_emit (e : Event) : fuel_free (emit e).
Proof. intros t. discriminate. Qed.

Lemma fuel_free_bind {A B : Type} (m : M A) (k : A -> M B) :
  fuel_free m -> (forall a, fuel_free (k a)) -> fuel_free (bind m k).
Proof.
  intros Hm Hk t. unfold bind. specialize (Hm t).
  destruct (m t) as [[a | |] t']; simpl in *; try congruence; try apply Hk.
Qed.

Create HintDb fuel.
#[local] Hint Resolve fuel_free_ret fuel_free_panic fuel_free_emit fuel_free_bind : fuel.

Ltac fuel_free_cases :=
  repeat first
    [ apply fuel_free_ret | apply fuel_free_panic | apply fuel_free_emit
    | apply fuel_free_bind; [| intros ?]
    | match goal with
      | |- fuel_free (match ?x with _ => _ end) => destruct x
      | |- fuel_free (let '(_, _) := ?x in _) => destruct x
      end
    | solve [auto with fuel] ].

Lemma fuel_free_Close img : fuel_free (Close img).
Proof. apply fuel_free_emit. Qed.

Lemma fuel_free_ThumbnailImage E img a b c d : fuel_free (ThumbnailImage E img a b c d).
Proof. unfold ThumbnailImage. fuel_free_cases. Qed.

Lemma fuel_free_ExtractAreaMultiPage E img a b c d :
  fuel_free (ExtractAreaMultiPage E img a b c d).
Proof. unfold ExtractAreaMultiPage. fuel_free_cases. Qed.

Lemma fuel_free_WrapErr E err : fuel_free (WrapErr E err).
Proof. unfold WrapErr. fuel_free_cases. Qed.

Lemma fuel_free_CheckResolution E v img err : fuel_free (CheckResolution E v img err).
Proof. unfold CheckResolution, Close. fuel_free_cases. Qed.

Lemma fuel_free_newImageFromBlob E blob o : fuel_free (newImageFromBlob E blob o).
Proof. unfold newImageFromBlob. fuel_free_cases. Qed.

Lemma fuel_free_newThumbnailFromBlob E blob a b c d o :
  fuel_free (newThumbnailFromBlob E blob a b c d o).
Proof. unfold newThumbnailFromBlob. fuel_free_cases. Qed.

#[local] Hint Resolve fuel_free_Close fuel_free_ThumbnailImage fuel_free_ExtractAreaMultiPage
  fuel_free_WrapErr fuel_free_CheckResolution fuel_free_newImageFromBlob
  fuel_free_newThumbnailFromBlob : fuel.

Lemma fuel_free_animatedThumbnailWithCrop E v img w h crop size :
  fuel_free (animatedThumbnailWithCrop E v img w h crop size).
Proof. unfold animatedThumbnailWithCrop. fuel_free_cases. Qed.

Lemma fuel_free_newThumbnailFallback E v blob a b c d o :
  fuel_free (newThumbnailFallback E v blob a b c d o).
Proof. unfold newThumbnailFallback. fuel_free_cases. Qed.

#[local] Hint Resolve fuel_free_animatedThumbnailWithCrop fuel_free_newThumbnailFallback : fuel.

(** A call that needs no recalculation does not call itself. *)
Lemma NewThumbnail_no_recalculation (E : Env) (v : Processor) (blob : option Blob)
      (width height : Z) (crop : Interesting) (size : Size) (n page dpi : Z) :
  isMultiPage blob n page && needsRecalculation n page = false ->
  fuel_free (NewThumbnail E 1 v blob width height crop size n page dpi)
  /\ forall k t, NewThumbnail E (S k) v blob width height crop size n page dpi t
                 = NewThumbnail E 1 v blob width height crop size n page dpi t.
Proof.
  intros Hno. split.
  - cbn [NewThumbnail].
    destruct (isMultiPage blob n page); simpl in Hno; [rewrite Hno |]; fuel_free_cases.
  - intros k t. cbn [NewThumbnail].
    destruct (isMultiPage blob n page); simpl in Hno; [rewrite Hno |]; reflexivity.
Qed.

(** *** The retry *)

Lemma newImageFromBlob_eq (E : Env) (b : Blob) (o : LoadOptions) (t : Trace) :
  IsEmpty b = false ->
  newImageFromBlob E (Some b) o t
  = (Ok match vips_load E b o with
        | inl img => (Some img, None)
        | inr err => (None, Some err)
        end, t ++ [EvLoad b o]).
Proof.
  intros Hb. unfold newImageFromBlob, bind, emit, ret. rewrite Hb.
  destruct (vips_load E b o); reflexivity.
Qed.

(** A multi-frame request that needs a recalculation and whose source
    decodes (and, on the crop path, passes the resolution guard) closes
    the decoded image and calls [NewThumbnail] again with the recalculated
    indices negated. *)
Lemma NewThumbnail_retry (E : Env) (v : Processor) (b : Blob)
      (width height : Z) (crop : Interesting) (size : Size) (n page dpi : Z)
      (img : Image) (t : Trace) (k : nat) :
  isMultiPage (Some b) n page = true ->
  needsRecalculation n page = true ->
  IsEmpty b = false ->
  vips_load E b (multiPageOptions v n page dpi) = inl img ->
  Interesting_eqb crop InterestingNone || Size_eqb size SizeForce = true
  \/ CheckResolution E v (Some img) None (t ++ [EvLoad b (multiPageOptions v n page dpi)])
     = (Ok (Some img, None), t ++ [EvLoad b (multiPageOptions v n page dpi)]) ->
  NewThumbnail E (S k) v (Some b) width height crop size n page dpi t
  = NewThumbnail E k v (Some b) width height crop size
                 (GoInt.neg (fst (recalculated img n page)))
                 (GoInt.neg (snd (recalculated img n page))) dpi
                 (t ++ [EvLoad b (multiPageOptions v n page dpi); EvClose img]).
Proof.
  intros Hmp Hrec Hb Hload Hres. cbn [NewThumbnail]. rewrite Hmp, Hrec.
  fold (multiPageOptions v n page dpi).
  assert (Hgo : forall t1,
             bind (recalculateImage img n page)
                  (fun np => NewThumbnail E k v (Some b) width height crop size
                                          (GoInt.neg (fst np)) (GoInt.neg (snd np)) dpi) t1
             = NewThumbnail E k v (Some b) width height crop size
                            (GoInt.neg (fst (recalculated img n page)))
                            (GoInt.neg (snd (recalculated img n page))) dpi
                            (t1 ++ [EvClose img])).
  { intros t1. unfold bind at 1. rewrite recalculateImage_eq. reflexivity. }
  destruct (Interesting_eqb crop InterestingNone || Size_eqb size SizeForce) eqn:Hc.
  - unfold bind at 1. rewrite newImageFromBlob_eq, Hload by exact Hb.
    rewrite Hgo, <- app_assoc. reflexivity.
  - destruct Hres as [Hres | Hres]; [discriminate |].
    unfold bind at 1. rewrite newImageFromBlob_eq, Hload by exact Hb.
    unfold bind at 1. cbn [fst snd]. rewrite Hres.
    rewrite Hgo, <- app_assoc. reflexivity.
Qed.

(** Every call either is such a retry, or ends without calling itself. *)
Lemma NewThumbnail_step (E : Env) (v : Processor) (blob : option Blob)
      (width height : Z) (crop : Interesting) (size : Size) (n page dpi : Z) (t : Trace) :
  (exists b img,
      blob = Some b
      /\ isMultiPage blob n page = true /\ needsRecalculation n page = true
      /\ vips_load E b (multiPageOptions v n page dpi) = inl img
      /\ forall k,
          NewThumbnail E (S k) v blob width height crop size n page dpi t
          = NewThumbnail E k v blob width height crop size
                         (GoInt.neg (fst (recalculated img n page)))
                         (GoInt.neg (snd (recalculated img n page))) dpi
                         (t ++ [EvLoad b (multiPageOptions v n page dpi); EvClose img]))
  \/ (fst (NewThumbnail E 1 v blob width height crop size n page dpi t) <> OutOfFuel
      /\ forall k,
          NewThumbnail E (S k) v blob width height crop size n page dpi t
          = NewThumbnail E 1 v blob width height crop size n page dpi t).
Proof.
  destruct (isMultiPage blob n page && needsRecalculation n page) eqn:Hcond.
  2:{ right. destruct (NewThumbnail_no_recalculation E v blob width height crop size
                                                      n page dpi Hcond) as [Hf Hk].
      split; [apply Hf | intros k; apply Hk]. }
  apply andb_true_iff in Hcond. destruct Hcond as [Hmp Hrec].
  destruct blob as [b |]; [| discriminate].
  set (o := multiPageOptions v n page dpi).
  assert (Hfail : forall err t1,
             (forall k, NewThumbnail E (S k) v (Some b) width height crop size n page dpi t
                        = bind (WrapErr E (Some err)) (fun e => ret (None, e)) t1) ->
             fst (NewThumbnail E 1 v (Some b) width height crop size n page dpi t) <> OutOfFuel
             /\ forall k,
                 NewThumbnail E (S k) v (Some b) width height crop size n page dpi t
                 = NewThumbnail E 1 v (Some b) width height crop size n page dpi t).
  { intros err t1 Hk. split.
    - rewrite (Hk 0%nat). apply fuel_free_bind; fuel_free_cases.
    - intros k. rewrite (Hk k), (Hk 0%nat). reflexivity. }
  destruct (IsEmpty b) eqn:Hb.
  { right. apply (Hfail (ErrImagor (ErrNotFound E)) t). intros k.
    cbn [NewThumbnail]. rewrite Hmp, Hrec. unfold newImageFromBlob. rewrite Hb.
    destruct (Interesting_eqb crop InterestingNone || Size_eqb size SizeForce); reflexivity. }
  destruct (vips_load E b o) as [img | err] eqn:Hload.
  2:{ right. apply (Hfail err (t ++ [EvLoad b o])). intros k.
      cbn [NewThumbnail]. rewrite Hmp, Hrec. fold (multiPageOptions v n page dpi). fold o.
      destruct (Interesting_eqb crop InterestingNone || Size_eqb size SizeForce);
        unfold bind at 1; rewrite newImageFromBlob_eq, Hload by exact Hb; reflexivity. }
  destruct (Interesting_eqb crop InterestingNone || Size_eqb size SizeForce) eqn:Hc.
  { left. exists b, img. repeat split; auto. intros k.
    apply NewThumbnail_retry; auto. }
  set (t1 := t ++ [EvLoad b o]).
  destruct (CheckResolution E v (Some img) None t1) as [r t2] eqn:Hck.
  assert (Hcases : (r = Ok (Some img, None) /\ t2 = t1)
                   \/ (r = Ok (None, Some (ErrImagor (ErrMaxResolutionExceeded E))))).
  { unfold CheckResolution in Hck.
    destruct (negb (Unlimited v)
              && ((Width img >? MaxWidth v) || (PageHeight img >? MaxHeight v)
                  || (GoInt.mul (Width img) (Height img) >? MaxResolution v)));
      inversion Hck; auto. }
  destruct Hcases as [[-> ->] | ->].
  - left. exists b, img. repeat split; auto. intros k.
    apply NewThumbnail_retry; auto.
  - right. apply (Hfail (ErrImagor (ErrMaxResolutionExceeded E)) t2). intros k.
    cbn [NewThumbnail]. rewrite Hmp, Hrec, Hc.
    fold (multiPageOptions v n page dpi). fold o.
    unfold bind at 1; rewrite newImageFromBlob_eq, Hload by exact Hb.
    unfold bind at 1. cbn [fst snd]. fold t1. rewrite Hck. reflexivity.
Qed.

Lemma neg_in_range (z : Z) : - GoInt.MaxInt <= z <= GoInt.MaxInt -> GoInt.neg z = - z.
Proof.
  intros Hz. unfold GoInt.neg. apply wrap_in_range.
  unfold GoInt.in_range, GoInt.MinInt, GoInt.MaxInt in *. lia.
Qed.

(** The indices of the retried call never ask for a recalculation, when
    the request follows the sign convention of a first pass. *)
Lemma retried_indices_settled (img : Image) (n page : Z) :
  GoInt.in_range n -> GoInt.in_range page -> -1 <= n -> -1 <= page ->
  1 <= Pages img <= GoInt.MaxInt ->
  needsRecalculation (GoInt.neg (fst (recalculated img n page)))
                     (GoInt.neg (snd (recalculated img n page))) = false.
Proof.
  unfold GoInt.in_range. intros Hn Hp Hn1 Hp1 HP.
  assert (HM : GoInt.MaxInt = 9223372036854775807) by reflexivity.
  unfold needsRecalculation, recalculated.
  destruct ((page >? 1) && (page >? Pages img));
    [| destruct ((n >? 1) && (n >? Pages img))]; cbn [fst snd];
    rewrite !neg_in_range by lia;
    apply orb_false_iff; split; rewrite Z.gtb_ltb; apply Z.ltb_ge; lia.
Qed.

(** C3, amended.  For a request that follows the sign convention of a
    first pass (n and page not below -1) on a source whose decoded frame
    count is at least 1: [NewThumbnail] calls itself only on a multi-frame
    request with n > 1 or page > 1; it then closes the decoded image and
    calls itself exactly once, with the recalculated indices negated, and
    these never satisfy the recalculation test again.  One level of
    recursion is therefore always enough: the call returns (or panics)
    with fuel 2, and more fuel changes nothing.  (With fuel 1 the model
    stops for lack of fuel exactly when the Go function calls itself.) *)
Theorem NewThumbnail_single_retry
        (E : Env) (v : Processor) (blob : option Blob) (width height : Z)
        (crop : Interesting) (size : Size) (n page dpi : Z) (t : Trace) :
  GoInt.in_range n -> GoInt.in_range page -> -1 <= n -> -1 <= page ->
  (forall b o img, vips_load E b o = inl img -> 1 <= Pages img <= GoInt.MaxInt) ->
  (fst (NewThumbnail E 1 v blob width height crop size n page dpi t) = OutOfFuel ->
   isMultiPage blob n page = true /\ (n > 1 \/ page > 1)
   /\ exists b img,
       blob = Some b
       /\ vips_load E b (multiPageOptions v n page dpi) = inl img
       /\ needsRecalculation (GoInt.neg (fst (recalculated img n page)))
                             (GoInt.neg (snd (recalculated img n page))) = false
       /\ forall k,
           NewThumbnail E (S (S k)) v blob width height crop size n page dpi t
           = NewThumbnail E 1 v blob width height crop size
                          (GoInt.neg (fst (recalculated img n page)))
                          (GoInt.neg (snd (recalculated img n page))) dpi
                          (t ++ [EvLoad b (multiPageOptions v n page dpi); EvClose img]))
  /\ fst (NewThumbnail E 2 v blob width height crop size n page dpi t) <> OutOfFuel
  /\ forall k, NewThumbnail E (2 + k) v blob width height crop size n page dpi t
               = NewThumbnail E 2 v blob width height crop size n page dpi t.
Proof.
  intros Hn Hp Hn1 Hp1 Hpages.
  destruct (NewThumbnail_step E v blob width height crop size n page dpi t)
    as [(b & img & -> & Hmp & Hrec & Hload & Hk) | [Hfree Hk]].
  - pose proof (retried_indices_settled img n page Hn Hp Hn1 Hp1 (Hpages _ _ _ Hload))
      as Hset.
    assert (Hnext : isMultiPage (Some b)
                      (GoInt.neg (fst (recalculated img n page)))
                      (GoInt.neg (snd (recalculated img n page)))
                    && needsRecalculation
                         (GoInt.neg (fst (recalculated img n page)))
                         (GoInt.neg (snd (recalculated img n page))) = false)
      by (rewrite Hset; apply andb_false_r).
    destruct (NewThumbnail_no_recalculation E v (Some b) width height crop size _ _ dpi Hnext)
      as [Hfree' Hk'].
    split; [| split].
    + intros _. split; [exact Hmp |]. split.
      * unfold needsRecalculation in Hrec. apply orb_true_iff in Hrec.
        destruct Hrec as [H | H]; apply Z.gtb_lt in H; lia.
      * exists b, img. repeat split; auto.
        intros k. rewrite Hk. apply Hk'.
    + rewrite Hk. apply Hfree'.
    + intros k. cbn [Nat.add]. rewrite (Hk (S k)), (Hk 1%nat), (Hk' k). reflexivity.
  - split; [| split].
    + intros Hoof. contradiction.
    + rewrite Hk. exact Hfree.
    + intros k. cbn [Nat.add]. rewrite (Hk (S k)), (Hk 1%nat). reflexivity.
Qed.

Lemma Sim_pages (src : Image) :
  1 <= Pages src <= GoInt.MaxInt ->
  forall b o img, vips_load (Sim.env src) b o = inl img -> 1 <= Pages img <= GoInt.MaxInt.
Proof.
  intros Hsrc b o img. simpl. unfold Sim.load.
  destruct ((Page o <? 0)
            || ((if N o =? -1 then Pages src - Page o else if N o =? 0 then 1 else N o) <=? 0)
            || (Page o + (if N o =? -1 then Pages src - Page o
                          else if N o =? 0 then 1 else N o) >? Pages src));
    [discriminate |].
  intros H. injection H as <-. exact Hsrc.
Qed.

Lemma NewThumbnail_single_retry_witness :
  fst (NewThumbnail (Sim.env (Sim.animation 100 100 3)) 2 Sim.processor (Some Sim.gif)
                    50 50 InterestingNone SizeBoth 1 5 0 []) <> OutOfFuel.
Proof.
  apply (NewThumbnail_single_retry (Sim.env (Sim.animation 100 100 3)) Sim.processor
                                   (Some Sim.gif) 50 50 InterestingNone SizeBoth 1 5 0 []).
  - unfold GoInt.in_range. vm_compute. split; discriminate.
  - unfold GoInt.in_range. vm_compute. split; discriminate.
  - lia.
  - lia.
  - apply Sim_pages. vm_compute. split; discriminate.
Defined.

(** The specification bounds the retry for every (n, page).  With n = -5 and page = 3
    on a ten-frame source the retried call gets (5, -3), which asks for a
    recalculation again. *)
Lemma NewThumbnail_mixed_signs_retry_again :
  needsRecalculation (-5) 3 = true
  /\ recalculated (mkImage 100 500 100 10 1) (-5) 3 = (-5, 3)
  /\ needsRecalculation (GoInt.neg (-5)) (GoInt.neg 3) = true
  /\ fst (NewThumbnail (Sim.env (Sim.animation 100 100 10)) 2 Sim.processor (Some Sim.gif)
                       50 50 InterestingNone SizeBoth (-5) 3 0 []) = OutOfFuel
  /\ fst (NewThumbnail (Sim.env (Sim.animation 100 100 10)) 200 Sim.processor (Some Sim.gif)
                       50 50 InterestingNone SizeBoth (-5) 3 0 []) = OutOfFuel.
Proof. repeat split; vm_compute; reflexivity. Qed.

(** The specification has no retry for a page within range.  Page 2 of
    a three-frame source is decoded twice: once in full, then, after the
    recalculation, restricted to the page. *)
Lemma NewThumbnail_page_in_range_retries :
  NewThumbnail (Sim.env (Sim.animation 100 100 3)) 2 Sim.processor (Some Sim.gif)
               50 50 InterestingNone SizeBoth 1 2 0 []
  = (Ok (Some (mkImage 50 50 50 3 1), None),
     [EvLoad Sim.gif (mkLoadOptions 0 (-1) 0 false);
      EvClose (mkImage 100 300 100 3 1);
      EvLoad Sim.gif (mkLoadOptions 1 0 0 false);
      EvThumbnailImage (mkImage 100 100 100 3 1) 50 50 InterestingNone SizeBoth])
  /\ fst (NewThumbnail (Sim.env (Sim.animation 100 100 3)) 1 Sim.processor (Some Sim.gif)
                       50 50 InterestingNone SizeBoth 1 2 0 []) = OutOfFuel.
Proof. split; vm_compute; reflexivity. Qed.

(** C4, amended.  [recalculateImage] reads the frame count of the decoded
    handle, closes the handle, and brings a page above the count down to
    the count; a page within the count comes back as it is.  In both
    cases [NewThumbnail], asked for a page above 1 of a multi-frame source
    that decodes, calls itself again, with the negated page: page 5 of
    three frames is retried as page 3, page 2 of three frames as page 2. *)
Theorem recalculateImage_clamps_page
        (E : Env) (v : Processor) (b : Blob) (width height : Z)
        (crop : Interesting) (size : Size) (n page dpi : Z) (img : Image)
        (t : Trace) (k : nat) :
  (1 <= Pages img -> Pages img < page ->
   recalculateImage img n page t = (Ok (n, Pages img), t ++ [EvClose img]))
  /\ (page <= Pages img ->
      exists n', recalculateImage img n page t = (Ok (n', page), t ++ [EvClose img]))
  /\ (1 < page ->
      isMultiPage (Some b) n page = true ->
      IsEmpty b = false ->
      vips_load E b (multiPageOptions v n page dpi) = inl img ->
      Interesting_eqb crop InterestingNone || Size_eqb size SizeForce = true
      \/ CheckResolution E v (Some img) None (t ++ [EvLoad b (multiPageOptions v n page dpi)])
         = (Ok (Some img, None), t ++ [EvLoad b (multiPageOptions v n page dpi)]) ->
      exists n',
        recalculated img n page = (n', if Pages img <? page then Pages img else page)
        /\ NewThumbnail E (S k) v (Some b) width height crop size n page dpi t
           = NewThumbnail E k v (Some b) width height crop size (GoInt.neg n')
                          (GoInt.neg (if Pages img <? page then Pages img else page)) dpi
                          (t ++ [EvLoad b (multiPageOptions v n page dpi); EvClose img])).
Proof.
  split; [| split].
  - intros HP Hlt. rewrite recalculateImage_eq. unfold recalculated.
    assert (H1 : (page >? 1) = true) by (apply Z.gtb_lt; lia).
    assert (H2 : (page >? Pages img) = true) by (apply Z.gtb_lt; lia).
    rewrite H1, H2. reflexivity.
  - intros Hle. rewrite recalculateImage_eq. unfold recalculated.
    assert (H2 : (page >? Pages img) = false) by (rewrite Z.gtb_ltb; apply Z.ltb_ge; lia).
    rewrite H2, andb_false_r.
    destruct ((n >? 1) && (n >? Pages img)); eexists; reflexivity.
  - intros Hpage Hmp Hb Hload Hres.
    assert (Hrec : needsRecalculation n page = true).
    { unfold needsRecalculation. apply orb_true_iff. right. apply Z.gtb_lt. lia. }
    rewrite (NewThumbnail_retry E v b width height crop size n page dpi img t k
                                Hmp Hrec Hb Hload Hres).
    unfold recalculated.
    assert (H1 : (page >? 1) = true) by (apply Z.gtb_lt; lia).
    rewrite H1, andb_true_l, Z.gtb_ltb.
    destruct (Pages img <? page).
    + exists n. split; reflexivity.
    + destruct ((n >? 1) && (n >? Pages img)); eexists; split; reflexivity.
Qed.

Lemma recalculateImage_clamps_page_witness :
  recalculateImage (mkImage 100 300 100 3 1) 1 5 []
  = (Ok (1, 3), [] ++ [EvClose (mkImage 100 300 100 3 1)])
  /\ exists n',
      recalculated (mkImage 100 300 100 3 1) 1 5 = (n', 3)
      /\ NewThumbnail (Sim.env (Sim.animation 100 100 3)) 2 Sim.processor (Some Sim.gif)
                      50 50 InterestingNone SizeBoth 1 5 0 []
         = NewThumbnail (Sim.env (Sim.animation 100 100 3)) 1 Sim.processor (Some Sim.gif)
                        50 50 InterestingNone SizeBoth (GoInt.neg n') (GoInt.neg 3) 0
                        ([] ++ [EvLoad Sim.gif (mkLoadOptions 0 (-1) 0 false);
                                EvClose (mkImage 100 300 100 3 1)]).
Proof.
  pose proof (recalculateImage_clamps_page
                (Sim.env (Sim.animation 100 100 3)) Sim.processor Sim.gif 50 50
                InterestingNone SizeBoth 1 5 0 (mkImage 100 300 100 3 1) [] 1%nat)
    as (Hclamp & _ & Hretry).
  split.
  - apply Hclamp; simpl; lia.
  - apply Hretry.
    + lia.
    + reflexivity.
    + reflexivity.
    + reflexivity.
    + left. reflexivity.
Defined.

(** With mixed signs the two calls keep calling each other: no amount of
    fuel is enough. *)
Lemma NewThumbnail_mixed_signs_diverges (fuel : nat) :
  forall t,
    fst (NewThumbnail (Sim.env (Sim.animation 100 100 10)) fuel Sim.processor (Some Sim.gif)
                      50 50 InterestingNone SizeBoth (-5) 3 0 t) = OutOfFuel
    /\ fst (NewThumbnail (Sim.env (Sim.animation 100 100 10)) fuel Sim.processor
                         (Some Sim.gif) 50 50 InterestingNone SizeBoth 5 (-3) 0 t)
       = OutOfFuel.
Proof.
  induction fuel as [| k IH]; intros t; [split; reflexivity |].
  split.
  - rewrite (NewThumbnail_retry _ _ _ _ _ _ _ _ _ _ (mkImage 100 500 100 10 1));
      try reflexivity; [| left; reflexivity].
    apply (IH _).
  - rewrite (NewThumbnail_retry _ _ _ _ _ _ _ _ _ _ (mkImage 100 100 100 10 1));
      try reflexivity; [| left; reflexivity].
    apply (IH _).
Qed.

(** ** Every way out of the pipeline *)

Lemma live_app (E : Env) (t d : Trace) : live E (t ++ d) = live E t + live E d.
Proof. induction t as [| e t IH]; simpl; [reflexivity | rewrite IH; lia]. Qed.

Lemma live_snoc (E : Env) (t : Trace) (e : Event) :
  live E (t ++ [e]) = live E t + handles E e.
Proof. rewrite live_app. simpl. lia. Qed.

(** [WrapErr] on an error: a classified error comes back, no handle is
    touched. *)
Lemma WrapErr_some (E : Env) (err : error) (t : Trace) :
  exists c t', WrapErr E (Some err) t = (Ok (Some (ErrImagor c)), t')
               /\ live E t' = live E t.
Proof.
  destruct err as [c | m]; simpl.
  - exists c, t. split; reflexivity.
  - destruct (strings.HasPrefix (TrimSpace E m) "VipsForeignLoad:"
              && strings.HasSuffix (TrimSpace E m) "is not in a known format").
    + eexists _, t. split; reflexivity.
    + eexists _, _. unfold bind, emit, ret. split; [reflexivity |].
      rewrite live_snoc. simpl. lia.
Qed.

(** The image the guard is asked about either passes, untouched, or is
    closed and replaced by the resolution error. *)
Lemma CheckResolution_image (E : Env) (v : Processor) (img : Image) (t : Trace) :
  (CheckResolution E v (Some img) None t = (Ok (Some img, None), t)
   /\ withinLimits v img)
  \/ CheckResolution E v (Some img) None t
     = (Ok (None, Some (ErrImagor (ErrMaxResolutionExceeded E))), t ++ [EvClose img]).
Proof.
  unfold CheckResolution, withinLimits.
  destruct (Unlimited v); simpl; [left; split; [reflexivity | left; reflexivity] |].
  destruct (Width img >? MaxWidth v) eqn:H1; simpl; [right; reflexivity |].
  destruct (PageHeight img >? MaxHeight v) eqn:H2; simpl; [right; reflexivity |].
  destruct (GoInt.mul (Width img) (Height img) >? MaxResolution v) eqn:H3;
    simpl; [right; reflexivity |].
  left. split; [reflexivity | right]. rewrite Z.gtb_ltb in H1, H2, H3.
  apply Z.ltb_ge in H1, H2, H3. auto.
Qed.

(** The three ways [newImageFromBlob] ends. *)
Lemma newImageFromBlob_cases (E : Env) (blob : option Blob) (o : LoadOptions) (t : Trace) :
  newImageFromBlob E blob o t = (Ok (None, Some (ErrImagor (ErrNotFound E))), t)
  \/ (exists b err, vips_load E b o = inr err
                    /\ newImageFromBlob E blob o t = (Ok (None, Some err), t ++ [EvLoad b o]))
  \/ (exists b img, vips_load E b o = inl img
                    /\ newImageFromBlob E blob o t
                       = (Ok (Some img, None), t ++ [EvLoad b o])).
Proof.
  destruct blob as [b |]; [| left; reflexivity].
  unfold newImageFromBlob. destruct (IsEmpty b); [left; reflexivity |].
  unfold bind, emit, ret. destruct (vips_load E b o) as [img | err] eqn:Hl.
  - right. right. exists b, img. auto.
  - right. left. exists b, err. auto.
Qed.

Lemma newThumbnailFromBlob_cases (E : Env) (blob : option Blob) (w h : Z)
      (crop : Interesting) (size : Size) (o : LoadOptions) (t : Trace) :
  newThumbnailFromBlob E blob w h crop size o t
  = (Ok (None, Some (ErrImagor (ErrNotFound E))), t)
  \/ (exists b err,
         vips_thumbnail_source E b w h crop size o = inr err
         /\ newThumbnailFromBlob E blob w h crop size o t
            = (Ok (None, Some err), t ++ [EvThumbnailSource b w h crop size o]))
  \/ (exists b img,
         vips_thumbnail_source E b w h crop size o = inl img
         /\ newThumbnailFromBlob E blob w h crop size o t
            = (Ok (Some img, None), t ++ [EvThumbnailSource b w h crop size o])).
Proof.
  destruct blob as [b |]; [| left; reflexivity].
  unfold newThumbnailFromBlob. destruct (IsEmpty b); [left; reflexivity |].
  unfold bind, emit, ret.
  destruct (vips_thumbnail_source E b w h crop size o) as [img | err] eqn:Hl.
  - right. right. exists b, img. auto.
  - right. left. exists b, err. auto.
Qed.

(** The crop step returns, with or without an error, and opens or closes
    nothing. *)
Lemma animatedThumbnailWithCrop_live (E : Env) (v : Processor) (img : Image) (w h : Z)
      (crop : Interesting) (size : Size) (t : Trace) :
  exists img' oe t',
    animatedThumbnailWithCrop E v img w h crop size t = (Ok (img', oe), t')
    /\ live E t' = live E t.
Proof.
  destruct (Size_eqb size SizeDown && (Width img <? w) && (PageHeight img <? h)) eqn:Hg.
  - unfold animatedThumbnailWithCrop. rewrite Hg. exists img, None, t. split; reflexivity.
  - rewrite animatedThumbnailWithCrop_eq by exact Hg.
    match goal with
    | |- context [vips_thumbnail_image ?e ?i ?a ?b ?c ?d] =>
        destruct (vips_thumbnail_image e i a b c d)
    end.
    + rewrite ExtractAreaMultiPage_eq.
      match goal with
      | |- context [vips_extract_area_multi_page ?e ?i ?a ?b ?c ?d] =>
          destruct (vips_extract_area_multi_page e i a b c d)
      end; eexists _, _, _; (split; [reflexivity |]); rewrite !live_snoc; simpl; lia.
    + eexists _, _, _. split; [reflexivity |]. rewrite live_snoc. simpl. lia.
Qed.

(** *** Reasoning by postconditions *)

Lemma post_ret {A : Type} (a : A) (t : Trace) (Q : Outcome A -> Trace -> Prop) :
  Q (Ok a) t -> post (ret a) t Q.
Proof. exact (fun H => H). Qed.

Lemma post_panic {A : Type} (t : Trace) (Q : Outcome A -> Trace -> Prop) :
  Q Panic t -> post panic t Q.
Proof. exact (fun H => H). Qed.

Lemma post_bind {A B : Type} (m : M A) (k : A -> M B) (t : Trace)
      (Q : Outcome B -> Trace -> Prop) :
  post m t (fun r t1 => match r with
                        | Ok a => post (k a) t1 Q
                        | Panic => Q Panic t1
                        | OutOfFuel => Q OutOfFuel t1
                        end) ->
  post (bind m k) t Q.
Proof.
  unfold post, bind. destruct (m t) as [[a | |] t1]; simpl; auto.
Qed.

Lemma post_emit (e : Event) (t : Trace) (Q : Outcome unit -> Trace -> Prop) :
  Q (Ok tt) (t ++ [e]) -> post (emit e) t Q.
Proof. exact (fun H => H). Qed.

Lemma post_WrapErr_none (E : Env) (t : Trace) (Q : Outcome (option error) -> Trace -> Prop) :
  Q (Ok None) t -> post (WrapErr E None) t Q.
Proof. exact (fun H => H). Qed.

Lemma post_WrapErr_some (E : Env) (err : error) (t : Trace)
      (Q : Outcome (option error) -> Trace -> Prop) :
  (forall c t', live E t' = live E t -> Q (Ok (Some (ErrImagor c))) t') ->
  post (WrapErr E (Some err)) t Q.
Proof.
  intros H. unfold post. destruct (WrapErr_some E err t) as (c & t' & -> & Hl).
  apply H. exact Hl.
Qed.

Lemma post_CheckResolution_through (E : Env) (v : Processor) (img : option Image)
      (err : option error) (t : Trace)
      (Q : Outcome (option Image * option error) -> Trace -> Prop) :
  img = None \/ err <> None ->
  Q (Ok (img, err)) t -> post (CheckResolution E v img err) t Q.
Proof.
  intros Hc H. unfold post, CheckResolution.
  destruct err as [e |]; [exact H |]. destruct img as [i |]; [| exact H].
  destruct Hc as [Hc | Hc]; [discriminate | contradiction].
Qed.

Lemma post_CheckResolution_image (E : Env) (v : Processor) (img : Image) (t : Trace)
      (Q : Outcome (option Image * option error) -> Trace -> Prop) :
  (withinLimits v img -> Q (Ok (Some img, None)) t) ->
  Q (Ok (None, Some (ErrImagor (ErrMaxResolutionExceeded E)))) (t ++ [EvClose img]) ->
  post (CheckResolution E v (Some img) None) t Q.
Proof.
  intros H1 H2. unfold post.
  destruct (CheckResolution_image E v img t) as [[-> Hw] | ->]; auto.
Qed.

Lemma post_newImageFromBlob (E : Env) (blob : option Blob) (o : LoadOptions) (t : Trace)
      (Q : Outcome (option Image * option error) -> Trace -> Prop) :
  Q (Ok (None, Some (ErrImagor (ErrNotFound E)))) t ->
  (forall b err, vips_load E b o = inr err -> Q (Ok (None, Some err)) (t ++ [EvLoad b o])) ->
  (forall b img, vips_load E b o = inl img ->
                 Q (Ok (Some img, None)) (t ++ [EvLoad b o])) ->
  post (newImageFromBlob E blob o) t Q.
Proof.
  intros H1 H2 H3. unfold post.
  destruct (newImageFromBlob_cases E blob o t)
    as [-> | [(b & err & Hl & ->) | (b & img & Hl & ->)]]; eauto.
Qed.

Lemma post_newThumbnailFromBlob (E : Env) (blob : option Blob) (w h : Z)
      (crop : Interesting) (size : Size) (o : LoadOptions) (t : Trace)
      (Q : Outcome (option Image * option error) -> Trace -> Prop) :
  Q (Ok (None, Some (ErrImagor (ErrNotFound E)))) t ->
  (forall b err, vips_thumbnail_source E b w h crop size o = inr err ->
                 Q (Ok (None, Some err)) (t ++ [EvThumbnailSource b w h crop size o])) ->
  (forall b img, vips_thumbnail_source E b w h crop size o = inl img ->
                 Q (Ok (Some img, None)) (t ++ [EvThumbnailSource b w h crop size o])) ->
  post (newThumbnailFromBlob E blob w h crop size o) t Q.
Proof.
  intros H1 H2 H3. unfold post.
  destruct (newThumbnailFromBlob_cases E blob w h crop size o t)
    as [-> | [(b & err & Hl & ->) | (b & img & Hl & ->)]]; eauto.
Qed.

Lemma post_ThumbnailImage (E : Env) (img : Image) (w h : Z) (crop : Interesting)
      (size : Size) (t : Trace) (Q : Outcome (Image * option error) -> Trace -> Prop) :
  (forall img', Q (Ok (img', None)) (t ++ [EvThumbnailImage img w h crop size])) ->
  (forall err, Q (Ok (img, Some err)) (t ++ [EvThumbnailImage img w h crop size])) ->
  post (ThumbnailImage E img w h crop size) t Q.
Proof.
  intros H1 H2. unfold post. rewrite ThumbnailImage_eq.
  destruct (vips_thumbnail_image E img w h crop size); simpl; auto.
Qed.

Lemma post_animatedThumbnailWithCrop (E : Env) (v : Processor) (img : Image) (w h : Z)
      (crop : Interesting) (size : Size) (t : Trace)
      (Q : Outcome (Image * option error) -> Trace -> Prop) :
  (forall img' oe t', live E t' = live E t -> Q (Ok (img', oe)) t') ->
  post (animatedThumbnailWithCrop E v img w h crop size) t Q.
Proof.
  intros H. unfold post.
  destruct (animatedThumbnailWithCrop_live E v img w h crop size t)
    as (img' & oe & t' & -> & Hl). simpl. auto.
Qed.

Lemma post_recalculateImage (img : Image) (n page : Z) (t : Trace)
      (Q : Outcome (Z * Z) -> Trace -> Prop) :
  Q (Ok (recalculated img n page)) (t ++ [EvClose img]) ->
  post (recalculateImage img n page) t Q.
Proof. intros H. unfold post. rewrite recalculateImage_eq. exact H. Qed.

(** Closing a leaf: the three parts of [settled]. *)
Ltac settle_core :=
  cbn [fst snd handed];
  repeat rewrite live_snoc in *; cbn [handles] in *;
  repeat match goal with
         | H : vips_load _ _ _ = _ |- _ => rewrite H in *; clear H
         | H : vips_thumbnail_source _ _ _ _ _ _ _ = _ |- _ => rewrite H in *; clear H
         end;
  split;
  [ lia
  | split;
    [ intros ? ? Heq; inversion Heq; subst; eauto
    | intros ? Heq; inversion Heq; subst; auto ] ].

Ltac settle :=
  unfold settled; cbn [fst snd];
  try match goal with
      | |- context [handed (Ok (?o, _))] => is_var o; destruct o
      end;
  settle_core.

(** Stepping through a body. *)
Ltac step :=
  lazymatch goal with
  | |- post (WrapErr _ None) _ _ => apply post_WrapErr_none
  | |- post (WrapErr _ (Some _)) _ _ => apply post_WrapErr_some; intros ? ? ?
  | |- post (newImageFromBlob _ _ _) _ _ =>
      apply post_newImageFromBlob; [| intros ? ? ? | intros ? ? ?]
  | |- post (newThumbnailFromBlob _ _ _ _ _ _ _) _ _ =>
      apply post_newThumbnailFromBlob; [| intros ? ? ? | intros ? ? ?]
  | |- post (CheckResolution _ _ (Some _) None) _ _ =>
      apply post_CheckResolution_image; [intros ? |]
  | |- post (CheckResolution _ _ _ _) _ _ =>
      apply post_CheckResolution_through; [solve [auto | right; discriminate] |]
  | |- post (ThumbnailImage _ _ _ _ _ _) _ _ =>
      apply post_ThumbnailImage; [intros ? | intros ?]
  | |- post (animatedThumbnailWithCrop _ _ _ _ _ _ _) _ _ =>
      apply post_animatedThumbnailWithCrop; intros ? ? ? ?
  | |- post (recalculateImage _ _ _) _ _ => apply post_recalculateImage

  | |- post (Close _) _ _ => apply post_emit
  | |- post (emit _) _ _ => apply post_emit
  | |- post (ret _) _ _ => apply post_ret
  | |- post panic _ _ => apply post_panic
  | |- post (bind _ _) _ _ => apply post_bind
  | |- post out_of_fuel _ _ => unfold post, out_of_fuel
  | |- post (if ?c then _ else _) _ _ => destruct c eqn:?
  | |- post (match ?x with _ => _ end) _ _ => destruct x eqn:?
  end;
  cbv beta iota; cbn [fst snd].

Lemma settled_post (E : Env) (v : Processor) (t : Trace)
      (m : M (option Image * option error)) :
  post m t (fun r t' => settled E v t (r, t')) -> settled E v t (m t).
Proof. exact (fun H => H). Qed.

(** [newThumbnailFallback] ends with an error and no open handle of its
    own, or with an image and one open handle. *)
Lemma post_newThumbnailFallback (E : Env) (v : Processor) (blob : option Blob)
      (w h : Z) (crop : Interesting) (size : Size) (o : LoadOptions) (t : Trace)
      (Q : Outcome (option Image * option error) -> Trace -> Prop) :
  (forall oi err t', live E t' = live E t -> Q (Ok (oi, Some err)) t') ->
  (forall img t', live E t' = live E t + 1 -> Q (Ok (Some img, None)) t') ->
  post (newThumbnailFallback E v blob w h crop size o) t Q.
Proof.
  intros HE HI. unfold newThumbnailFallback.
  repeat step;
    first [ apply HE | apply HI ];
    repeat rewrite live_snoc; cbn [handles];
    repeat match goal with
           | H : vips_load _ _ _ = _ |- _ => rewrite H
           end; lia.
Qed.

Ltac walk :=
  lazymatch goal with
  | |- post (newThumbnailFallback _ _ _ _ _ _ _ _) _ _ =>
      apply post_newThumbnailFallback; [intros ? ? ? ? | intros ? ? ?];
      cbv beta iota; cbn [fst snd]
  | _ => step
  end.

(** Whatever the fuel, the request and the collaborators, [NewThumbnail]
    leaves by a settled exit. *)
Lemma NewThumbnail_settled (E : Env) (v : Processor) (blob : option Blob)
      (width height : Z) (crop : Interesting) (size : Size) (dpi : Z) (t0 : Trace) :
  forall (fuel : nat) (n page : Z) (t : Trace),
    live E t = live E t0 ->
    post (NewThumbnail E fuel v blob width height crop size n page dpi) t
         (fun r t' => settled E v t0 (r, t')).
Proof.
  induction fuel as [| fuel IH]; intros n page t H0; cbn [NewThumbnail].
  - step. settle.
  - repeat first
      [ apply IH; rewrite ?live_snoc; cbn [handles];
        repeat match goal with
               | H : vips_load _ _ _ = _ |- _ => rewrite H
               end; lia
      | walk ];
      try settle.
Qed.

Lemma NewImage_settled (E : Env) (v : Processor) (blob : option Blob) (dpi : Z)
      (t0 : Trace) :
  forall (fuel : nat) (n page : Z) (t : Trace),
    live E t = live E t0 ->
    post (NewImage E fuel v blob n page dpi) t (fun r t' => settled E v t0 (r, t')).
Proof.
  induction fuel as [| fuel IH]; intros n page t H0; cbn [NewImage].
  - step. settle.
  - repeat first
      [ apply IH; rewrite ?live_snoc; cbn [handles];
        repeat match goal with
               | H : vips_load _ _ _ = _ |- _ => rewrite H
               end; lia
      | step ];
      try settle.
Qed.

(** ** What the loading pipeline guarantees *)

(** X1.  Every error [NewThumbnail] returns is a classified
    [imagor.Error], whatever the collaborators do. *)
Theorem NewThumbnail_errors_classified
        (E : Env) (fuel : nat) (v : Processor) (blob : option Blob) (width height : Z)
        (crop : Interesting) (size : Size) (n page dpi : Z) (t t' : Trace)
        (oi : option Image) (e : error) :
  NewThumbnail E fuel v blob width height crop size n page dpi t = (Ok (oi, Some e), t') ->
  exists c, e = ErrImagor c.
Proof.
  intros Hrun.
  pose proof (NewThumbnail_settled E v blob width height crop size dpi t fuel n page t
                                   eq_refl) as H.
  unfold post in H. rewrite Hrun in H. destruct H as (_ & Hc & _).
  apply (Hc oi e). reflexivity.
Qed.

Lemma NewThumbnail_errors_classified_witness :
  exists c,
    ErrImagor (NewError "VipsForeignLoad: bad page number" 406) = ErrImagor c.
Proof.
  apply (NewThumbnail_errors_classified
           (Sim.env (Sim.animation 100 100 3)) 2 Sim.processor (Some Sim.gif) 50 50
           InterestingNone SizeBoth (-7) 1 0 []
           [EvLoad Sim.gif (mkLoadOptions 0 7 0 false);
            EvCaptureException (ErrOther "VipsForeignLoad: bad page number")]
           None).
  vm_compute. reflexivity.
Defined.

(** X2.  An image [NewThumbnail] returns without an error has passed the
    resolution guard: unless [Unlimited] is set, its width, page height
    and area are within the configured limits. *)
Theorem NewThumbnail_result_within_limits
        (E : Env) (fuel : nat) (v : Processor) (blob : option Blob) (width height : Z)
        (crop : Interesting) (size : Size) (n page dpi : Z) (t t' : Trace) (img : Image) :
  NewThumbnail E fuel v blob width height crop size n page dpi t
  = (Ok (Some img, None), t') ->
  Unlimited v = true
  \/ (Width img <= MaxWidth v /\ PageHeight img <= MaxHeight v
      /\ GoInt.mul (Width img) (Height img) <= MaxResolution v).
Proof.
  intros Hrun.
  pose proof (NewThumbnail_settled E v blob width height crop size dpi t fuel n page t
                                   eq_refl) as H.
  unfold post in H. rewrite Hrun in H. destruct H as (_ & _ & Hw).
  apply (Hw img). reflexivity.
Qed.

Lemma NewThumbnail_result_within_limits_witness :
  Unlimited Sim.processor = true
  \/ (Width (mkImage 50 50 50 3 1) <= MaxWidth Sim.processor
      /\ PageHeight (mkImage 50 50 50 3 1) <= MaxHeight Sim.processor
      /\ GoInt.mul (Width (mkImage 50 50 50 3 1)) (Height (mkImage 50 50 50 3 1))
         <= MaxResolution Sim.processor).
Proof.
  apply (NewThumbnail_result_within_limits
           (Sim.env (Sim.animation 100 100 3)) 2 Sim.processor (Some Sim.gif) 50 50
           InterestingNone SizeBoth 1 5 0 []
           [EvLoad Sim.gif (mkLoadOptions 0 (-1) 0 false);
            EvClose (mkImage 100 300 100 3 1);
            EvLoad Sim.gif (mkLoadOptions 2 0 0 false);
            EvThumbnailImage (mkImage 100 100 100 3 1) 50 50 InterestingNone SizeBoth]).
  vm_compute. reflexivity.
Defined.

(** *** The image that comes with an error *)

Lemma continues_refl (t : Trace) : continues t t.
Proof. exists []. symmetry. apply app_nil_r. Qed.

Lemma continues_app (t0 t d : Trace) : continues t0 t -> continues t0 (t ++ d).
Proof. intros [d0 ->]. exists (d0 ++ d). symmetry. apply app_assoc. Qed.

Lemma continues_trans (t0 t1 t2 : Trace) :
  continues t0 t1 -> continues t1 t2 -> continues t0 t2.
Proof. intros H [d ->]. apply continues_app. exact H. Qed.

Lemma closedSince_close (t0 t : Trace) (img : Image) :
  continues t0 t -> closedSince t0 (t ++ [EvClose img]) img.
Proof.
  intros [d ->]. exists (d ++ [EvClose img]). split.
  - symmetry. apply app_assoc.
  - apply in_or_app. right. left. reflexivity.
Qed.

Lemma closedSince_continues (t0 t t' : Trace) (img : Image) :
  closedSince t0 t img -> continues t t' -> closedSince t0 t' img.
Proof.
  intros (d & -> & Hin) [d' ->]. exists (d ++ d'). split.
  - symmetry. apply app_assoc.
  - apply in_or_app. left. exact Hin.
Qed.

Lemma WrapErr_continues (E : Env) (err : option error) (t : Trace) :
  exists r, fst (WrapErr E err t) = Ok r /\ continues t (snd (WrapErr E err t))
            /\ (err = None -> r = None).
Proof.
  destruct err as [[e | m] |]; cbn [WrapErr].
  - eexists. split; [reflexivity | split; [apply continues_refl | discriminate]].
  - destruct (strings.HasPrefix (TrimSpace E m) "VipsForeignLoad:"
              && strings.HasSuffix (TrimSpace E m) "is not in a known format").
    + eexists. split; [reflexivity | split; [apply continues_refl | discriminate]].
    + eexists. split; [reflexivity | split; [| discriminate]].
      unfold bind, emit, ret. cbn [snd]. apply continues_app, continues_refl.
  - eexists. split; [reflexivity | split; [apply continues_refl | reflexivity]].
Qed.

Lemma post_WrapErr_continues (E : Env) (err : option error) (t : Trace)
      (Q : Outcome (option error) -> Trace -> Prop) :
  (forall r t', continues t t' -> (err = None -> r = None) -> Q (Ok r) t') ->
  post (WrapErr E err) t Q.
Proof.
  intros H. unfold post. destruct (WrapErr_continues E err t) as (r & -> & Hc & Hn).
  apply H; assumption.
Qed.

(** Only the last exit of [newThumbnailFallback] returns an image with
    an error, and it has closed that image. *)
Lemma post_newThumbnailFallback_closed (E : Env) (v : Processor) (blob : option Blob)
      (w h : Z) (crop : Interesting) (size : Size) (o : LoadOptions) (t : Trace)
      (Q : Outcome (option Image * option error) -> Trace -> Prop) :
  Q Panic t ->
  (forall oi oe t',
      continues t t' ->
      (forall img e, oi = Some img -> oe = Some e -> closedSince t t' img) ->
      Q (Ok (oi, oe)) t') ->
  post (newThumbnailFallback E v blob w h crop size o) t Q.
Proof.
  intros HP HQ. unfold newThumbnailFallback.
  repeat step;
    try (apply HQ;
         [ repeat apply continues_app; apply continues_refl
         | intros ? ? Hi He; try discriminate ]).
  all: try exact HP.
  all: try (inversion Hi; subst; apply closedSince_close;
            repeat apply continues_app; apply continues_refl).
Qed.

Ltac no_failed_image :=
  unfold failedImageClosed; intros ? ? Heq; solve [discriminate Heq | inversion Heq].

(** An image that [NewThumbnail] returns together with an error has been
    closed during the call. *)
Lemma NewThumbnail_failed_image_closed (E : Env) (v : Processor) (blob : option Blob)
      (width height : Z) (crop : Interesting) (size : Size) (dpi : Z) (t0 : Trace) :
  forall (fuel : nat) (n page : Z) (t : Trace),
    continues t0 t ->
    post (NewThumbnail E fuel v blob width height crop size n page dpi) t
         (failedImageClosed t0).
Proof.
  induction fuel as [| fuel IH]; intros n page t H0; cbn [NewThumbnail].
  - step. no_failed_image.
  - destruct (isMultiPage blob n page).
    + repeat first
        [ apply IH; repeat apply continues_app; exact H0
        | step ];
        try no_failed_image.
    + destruct blob as [b |]; [| step; no_failed_image].
      apply post_bind.
      assert (Hafter : forall oi oe t1,
                 continues t t1 ->
                 (forall img e, oi = Some img -> oe = Some e -> closedSince t t1 img) ->
                 post (e <- WrapErr E oe ;; CheckResolution E v oi e) t1
                      (failedImageClosed t0)).
      { intros oi oe t1 Hc Hcl. apply post_bind. apply post_WrapErr_continues.
        intros r t2 Hc2 Hn. cbv beta iota.
        destruct r as [e |].
        - apply post_CheckResolution_through; [right; discriminate |].
          intros img e' Heq. inversion Heq; subst.
          destruct oe as [e0 |]; [| discriminate (Hn eq_refl)].
          apply closedSince_continues with (t := t1); [| exact Hc2].
          destruct (Hcl img e0 eq_refl eq_refl) as (d & -> & Hin).
          destruct H0 as [d0 ->]. exists (d0 ++ d). split.
          + symmetry. apply app_assoc.
          + apply in_or_app. right. exact Hin.
        - destruct oi as [img |].
          + step; no_failed_image.
          + step. no_failed_image. }
      destruct (blobType b).
      all: try (apply post_newThumbnailFallback_closed;
                [ no_failed_image
                | intros oi oe t1 Hc Hcl; cbv beta iota; cbn [fst snd];
                  apply Hafter; assumption ]).
      all: apply post_newThumbnailFromBlob; [| intros ? ? ? | intros ? ? ?];
        cbv beta iota; cbn [fst snd]; apply Hafter;
        try (repeat apply continues_app; apply continues_refl);
        intros ? ? Hi He; discriminate.
Qed.

(** X3.  [NewThumbnail] accounts for every image handle: across a call,
    however it ends, the decodes that succeeded outnumber the closes by
    one when an image is returned without an error, and by none
    otherwise; and an image that is returned together with an error has
    been closed during the call. *)
Theorem NewThumbnail_handles_balanced
        (E : Env) (fuel : nat) (v : Processor) (blob : option Blob) (width height : Z)
        (crop : Interesting) (size : Size) (n page dpi : Z) (t : Trace) :
  live E (snd (NewThumbnail E fuel v blob width height crop size n page dpi t))
  = live E t
    + handed (fst (NewThumbnail E fuel v blob width height crop size n page dpi t))
  /\ forall img e,
       fst (NewThumbnail E fuel v blob width height crop size n page dpi t)
       = Ok (Some img, Some e) ->
       exists d,
         snd (NewThumbnail E fuel v blob width height crop size n page dpi t) = t ++ d
         /\ In (EvClose img) d.
Proof.
  split.
  - pose proof (NewThumbnail_settled E v blob width height crop size dpi t fuel n page t
                                     eq_refl) as H.
    exact (proj1 H).
  - exact (NewThumbnail_failed_image_closed E v blob width height crop size dpi t
             fuel n page t (continues_refl t)).
Qed.

Lemma NewThumbnail_handles_balanced_witness :
  exists d,
    snd (NewThumbnail (Sim.env (Sim.still 100 100 1)) 1 Sim.processor
                      (Some (mkBlob BlobTypePNG false false)) 0 50
                      InterestingNone SizeBoth 1 1 0 [])
    = [] ++ d
    /\ In (EvClose (Sim.still 100 100 1)) d.
Proof.
  apply (proj2 (NewThumbnail_handles_balanced
                  (Sim.env (Sim.still 100 100 1)) 1 Sim.processor
                  (Some (mkBlob BlobTypePNG false false)) 0 50
                  InterestingNone SizeBoth 1 1 0 [])
               (Sim.still 100 100 1)
               (ErrImagor (NewError "thumbnail: bad dimensions" 406))).
  reflexivity.
Defined.

(** X4.  [NewImage] returns only classified errors, and an image it
    returns without an error has passed the resolution guard. *)
Theorem NewImage_result_guarded
        (E : Env) (fuel : nat) (v : Processor) (blob : option Blob) (n page dpi : Z)
        (t t' : Trace) (oi : option Image) (oe : option error) :
  NewImage E fuel v blob n page dpi t = (Ok (oi, oe), t') ->
  (forall e, oe = Some e -> exists c, e = ErrImagor c)
  /\ (forall img, oi = Some img -> oe = None ->
                  Unlimited v = true
                  \/ (Width img <= MaxWidth v /\ PageHeight img <= MaxHeight v
                      /\ GoInt.mul (Width img) (Height img) <= MaxResolution v)).
Proof.
  intros Hrun.
  pose proof (NewImage_settled E v blob dpi t fuel n page t eq_refl) as H.
  unfold post in H. rewrite Hrun in H. destruct H as (_ & Hc & Hw). split.
  - intros e ->. apply (Hc oi e). reflexivity.
  - intros img -> ->. apply (Hw img). reflexivity.
Qed.

Lemma NewImage_result_guarded_witness :
  (forall e, Some (ErrImagor (NewError "maximum resolution exceeded" 422)) = Some e ->
             exists c, e = ErrImagor c)
  /\ (forall img, @None Image = Some img ->
                  Some (ErrImagor (NewError "maximum resolution exceeded" 422)) = None ->
                  Unlimited Sim.processor = true
                  \/ (Width img <= MaxWidth Sim.processor
                      /\ PageHeight img <= MaxHeight Sim.processor
                      /\ GoInt.mul (Width img) (Height img) <= MaxResolution Sim.processor)).
Proof.
  apply (NewImage_result_guarded
           (Sim.env (Sim.animation 10000 100 3)) 2 Sim.processor (Some Sim.gif) 1 5 0 []
           [EvLoad Sim.gif (mkLoadOptions 0 (-1) 0 false);
            EvClose (mkImage 10000 300 100 3 1)]).
  vm_compute. reflexivity.
Defined.

(** X5.  [NewImage] accounts for every image handle, like
    [NewThumbnail]. *)
Theorem NewImage_handles_balanced
        (E : Env) (fuel : nat) (v : Processor) (blob : option Blob) (n page dpi : Z)
        (t : Trace) :
  live E (snd (NewImage E fuel v blob n page dpi t))
  = live E t + handed (fst (NewImage E fuel v blob n page dpi t)).
Proof.
  pose proof (NewImage_settled E v blob dpi t fuel n page t eq_refl) as H.
  exact (proj1 H).
Qed.

(** X6.  An empty blob is answered with the not-found error by
    [NewThumbnail] and by [NewImage], on every path and without a single
    call into the library. *)
Theorem empty_blob_not_found
        (E : Env) (k : nat) (v : Processor) (b : Blob) (width height : Z)
        (crop : Interesting) (size : Size) (n page dpi : Z) (t : Trace) :
  IsEmpty b = true ->
  NewThumbnail E (S k) v (Some b) width height crop size n page dpi t
  = (Ok (None, Some (ErrImagor (ErrNotFound E))), t)
  /\ NewImage E (S k) v (Some b) n page dpi t
     = (Ok (None, Some (ErrImagor (ErrNotFound E))), t).
Proof.
  intros Hb. split.
  - cbn [NewThumbnail].
    destruct (isMultiPage (Some b) n page).
    + destruct (Interesting_eqb crop InterestingNone || Size_eqb size SizeForce);
        unfold bind, newImageFromBlob; rewrite Hb; reflexivity.
    + destruct (blobType b);
        unfold bind, newThumbnailFromBlob, newThumbnailFallback, bind, newImageFromBlob;
        rewrite Hb; reflexivity.
  - cbn [NewImage].
    destruct (isMultiPage (Some b) n page);
      unfold bind, newImageFromBlob; rewrite Hb; reflexivity.
Qed.

Lemma empty_blob_not_found_witness :
  NewThumbnail (Sim.env (Sim.animation 100 100 3)) 1 Sim.processor
               (Some (mkBlob BlobTypeOther false true)) 50 50
               InterestingCentre SizeBoth 1 1 0 []
  = (Ok (None, Some (ErrImagor (NewError "not found" 404))), []).
Proof.
  apply (empty_blob_not_found (Sim.env (Sim.animation 100 100 3)) 0 Sim.processor
                              (mkBlob BlobTypeOther false true)).
  reflexivity.
Defined.

(** ** The reload after a recalculation *)

Lemma sub_in_range (a b : Z) :
  GoInt.MinInt <= a - b <= GoInt.MaxInt -> GoInt.sub a b = a - b.
Proof. intros H. apply wrap_in_range. exact H. Qed.

(** X7.  On a source of at least two frames, the reload that follows a
    recalculation is again a multi-frame request and stays inside the
    source: a requested page above 1 loads the single page
    min(page, frames) (zero-based index one less, frame count left
    unset), otherwise the first min(n, frames) frames are loaded. *)
Theorem retry_reload_options
        (v : Processor) (b : Blob) (img : Image) (n page dpi : Z) :
  GoInt.in_range n -> GoInt.in_range page -> -1 <= n -> -1 <= page ->
  2 <= Pages img <= GoInt.MaxInt ->
  isMultiPage (Some b) n page = true ->
  needsRecalculation n page = true ->
  let n' := GoInt.neg (fst (recalculated img n page)) in
  let page' := GoInt.neg (snd (recalculated img n page)) in
  let o := multiPageOptions v n' page' dpi in
  isMultiPage (Some b) n' page' = true
  /\ (page > 1 -> Page o = Z.min page (Pages img) - 1 /\ N o = 0)
  /\ (page <= 1 -> Page o = 0 /\ N o = Z.min n (Pages img))
  /\ 0 <= Page o /\ Page o + Z.max 1 (N o) <= Pages img.
Proof.
  unfold GoInt.in_range. intros Hn Hp Hn1 Hp1 HP Hmp Hrec.
  assert (HM : GoInt.MaxInt = 9223372036854775807) by reflexivity.
  assert (Hm : GoInt.MinInt = -9223372036854775808) by reflexivity.
  assert (Hcap : (SupportsAnimation b
                  || match blobType b with BlobTypePDF => true | _ => false end) = true).
  { unfold isMultiPage in Hmp. apply andb_true_iff in Hmp. apply Hmp. }
  unfold needsRecalculation in Hrec. apply orb_true_iff in Hrec.
  assert (Hmulti : forall a c, a <= -2 \/ c <= -2 -> isMultiPage (Some b) a c = true).
  { intros a c Hac. unfold isMultiPage. rewrite Hcap. cbn [andb].
    apply orb_true_iff.
    destruct Hac as [Ha | Hc]; [left | right]; apply andb_true_iff; split;
      apply negb_true_iff; apply Z.eqb_neq; lia. }
  cbv zeta. unfold recalculated, multiPageOptions, applyMultiPageOptions.
  destruct (page >? 1) eqn:Hpg.
  - apply Z.gtb_lt in Hpg. cbn [andb].
    destruct (page >? Pages img) eqn:Hpp.
    + apply Z.gtb_lt in Hpp. cbn [fst snd].
      rewrite !neg_in_range by lia.
      assert (Hlt : (- Pages img <? -1) = true) by (apply Z.ltb_lt; lia).
      rewrite Hlt. cbn [Page N].
      rewrite ?neg_in_range, ?sub_in_range by lia.
      repeat split; try lia. apply Hmulti. lia.
    + rewrite Z.gtb_ltb in Hpp. apply Z.ltb_ge in Hpp.
      destruct ((n >? 1) && (n >? Pages img)); cbn [fst snd];
        rewrite !neg_in_range by lia;
        assert (Hlt : (- page <? -1) = true) by (apply Z.ltb_lt; lia);
        rewrite Hlt; cbn [Page N];
        rewrite ?neg_in_range, ?sub_in_range by lia;
        (repeat split; try lia; apply Hmulti; lia).
  - rewrite Z.gtb_ltb in Hpg. apply Z.ltb_ge in Hpg. cbn [andb].
    destruct Hrec as [Hn2 | Hp2]; [| discriminate].
    apply Z.gtb_lt in Hn2.
    assert (Hn2' : (n >? 1) = true) by (apply Z.gtb_lt; lia). rewrite Hn2'. cbn [andb].
    assert (Hpl : (- page <? -1) = false) by (apply Z.ltb_ge; lia).
    destruct (n >? Pages img) eqn:Hnp; cbn [fst snd]; rewrite !neg_in_range by lia;
      rewrite Hpl.
    + apply Z.gtb_lt in Hnp.
      assert (Hlt : (- Pages img <? -1) = true) by (apply Z.ltb_lt; lia).
      rewrite Hlt. cbn [Page N]. rewrite ?neg_in_range by lia.
      repeat split; try lia. apply Hmulti. lia.
    + rewrite Z.gtb_ltb in Hnp. apply Z.ltb_ge in Hnp.
      assert (Hlt : (- n <? -1) = true) by (apply Z.ltb_lt; lia).
      rewrite Hlt. cbn [Page N]. rewrite ?neg_in_range by lia.
      repeat split; try lia. apply Hmulti. lia.
Qed.

Lemma retry_reload_options_witness :
  Page (multiPageOptions Sim.processor
          (GoInt.neg (fst (recalculated (mkImage 100 300 100 3 1) 7 5)))
          (GoInt.neg (snd (recalculated (mkImage 100 300 100 3 1) 7 5))) 0)
  = Z.min 5 3 - 1.
Proof.
  apply (retry_reload_options Sim.processor Sim.gif (mkImage 100 300 100 3 1) 7 5 0).
  - unfold GoInt.in_range. vm_compute. split; discriminate.
  - unfold GoInt.in_range. vm_compute. split; discriminate.
  - lia.
  - lia.
  - vm_compute. split; discriminate.
  - reflexivity.
  - reflexivity.
  - lia.
Defined.

(** X8.  On a one-frame source the page is clamped to 1 but a frame count
    above 1 is not clamped: a request with page > 1 and n > 1 is reloaded
    with the frame count n, more frames than the source has. *)
Theorem single_frame_retry_keeps_n
        (v : Processor) (img : Image) (n page dpi : Z) :
  GoInt.in_range n -> GoInt.in_range page -> Pages img = 1 -> 1 < page -> 1 < n ->
  let n' := GoInt.neg (fst (recalculated img n page)) in
  let page' := GoInt.neg (snd (recalculated img n page)) in
  recalculated img n page = (n, 1)
  /\ Page (multiPageOptions v n' page' dpi) = 0
  /\ N (multiPageOptions v n' page' dpi) = n
  /\ Pages img < N (multiPageOptions v n' page' dpi).
Proof.
  unfold GoInt.in_range. intros Hn Hp HP Hpage Hn1.
  assert (HM : GoInt.MaxInt = 9223372036854775807) by reflexivity.
  assert (Hm : GoInt.MinInt = -9223372036854775808) by reflexivity.
  cbv zeta. unfold recalculated. rewrite HP.
  assert (H1 : (page >? 1) = true) by (apply Z.gtb_lt; lia).
  rewrite H1. cbn [andb fst snd].
  unfold multiPageOptions, applyMultiPageOptions.
  rewrite !neg_in_range by lia.
  change (- (1) <? -1) with false. cbv iota.
  assert (Hlt : (- n <? -1) = true) by (apply Z.ltb_lt; lia).
  rewrite Hlt. cbn [Page N]. rewrite ?neg_in_range by lia.
  repeat split; lia.
Qed.

Lemma single_frame_retry_keeps_n_witness :
  N (multiPageOptions Sim.processor
       (GoInt.neg (fst (recalculated (mkImage 100 100 100 1 1) 3 2)))
       (GoInt.neg (snd (recalculated (mkImage 100 100 100 1 1) 3 2))) 0) = 3.
Proof.
  apply (single_frame_retry_keeps_n Sim.processor (mkImage 100 100 100 1 1) 3 2 0).
  - unfold GoInt.in_range. vm_compute. split; discriminate.
  - unfold GoInt.in_range. vm_compute. split; discriminate.
  - reflexivity.
  - lia.
  - lia.
Defined.

(** ** Who closes the image *)

(** X9.  [Thumbnail] and [FocalThumbnail] only resize and cut: whatever
    the library answers they return, after at most two calls into it,
    each a resize or an extraction; they never close the image they were
    given and never send an error to the error reporter. *)
Theorem resize_operations_keep_the_handle
        (E : Env) (v : Processor) (img : Image) (w h : Z)
        (crop : Interesting) (size : Size) (fx fy : Float64.t) (t : Trace) :
  (exists r d,
      Thumbnail E v img w h crop size t = (Ok r, t ++ d)
      /\ forallb isResizeCall d = true /\ (length d <= 2)%nat)
  /\ (exists r d,
         FocalThumbnail E v img w h fx fy t = (Ok r, t ++ d)
         /\ forallb isResizeCall d = true /\ (length d <= 2)%nat).
Proof.
  assert (Hanimated : exists r d,
             animatedThumbnailWithCrop E v img w h crop size t = (Ok r, t ++ d)
             /\ forallb isResizeCall d = true /\ (length d <= 2)%nat).
  { destruct (Size_eqb size SizeDown && (Width img <? w) && (PageHeight img <? h)) eqn:Hg.
    - unfold animatedThumbnailWithCrop. rewrite Hg. exists (img, None), [].
      rewrite app_nil_r. repeat split. simpl. lia.
    - rewrite animatedThumbnailWithCrop_eq by exact Hg.
      match goal with
      | |- context [vips_thumbnail_image ?e ?i ?a ?b ?c ?d] =>
          destruct (vips_thumbnail_image e i a b c d)
      end.
      + rewrite ExtractAreaMultiPage_eq, <- app_assoc.
        eexists _, _. split; [reflexivity |]. split; [reflexivity | simpl; lia].
      + eexists _, _. split; [reflexivity |]. split; [reflexivity | simpl; lia]. }
  split.
  - unfold Thumbnail.
    destruct (Interesting_eqb crop InterestingNone || Size_eqb size SizeForce
              || (Height img =? PageHeight img)); [| exact Hanimated].
    rewrite ThumbnailImage_eq. eexists _, _.
    split; [reflexivity |]. split; [reflexivity | simpl; lia].
  - rewrite FocalThumbnail_eq.
    match goal with
    | |- context [vips_thumbnail_image ?e ?i ?a ?b ?c ?d] =>
        destruct (vips_thumbnail_image e i a b c d)
    end.
    + rewrite ExtractAreaMultiPage_eq, <- app_assoc.
      eexists _, _. split; [reflexivity |]. split; [reflexivity | simpl; lia].
    + eexists _, _. split; [reflexivity |]. split; [reflexivity | simpl; lia].
Qed.

(** ** Equal aspect ratios *)

Lemma SFltb_irrefl (x : spec_float) : SFltb x x = false.
Proof.
  unfold SFltb, SFcompare.
  change Corelib.BinNums.IntDef.Z.compare with Z.compare.
  destruct x as [s | s | | s m e]; try destruct s; try reflexivity;
    rewrite Z.compare_refl, Pos.compare_cont_refl; reflexivity.
Qed.

(** X10.  The aspect comparison is strict: a target with exactly the
    extents of the source is resized by height, with the width capped at
    [MaxWidth], in the animated path whatever the size policy, and in the
    focal-point path for an upright image. *)
Theorem equal_aspect_scales_by_height
        (E : Env) (v : Processor) (img : Image) (crop : Interesting) (size : Size)
        (fx fy : Float64.t) (t : Trace) :
  (exists rest,
     snd (animatedThumbnailWithCrop E v img (Width img) (PageHeight img) crop size t)
     = t ++ EvThumbnailImage img (MaxWidth v) (PageHeight img) InterestingNone size :: rest)
  /\ (Orientation img <= 4 ->
      exists rest,
        snd (FocalThumbnail E v img (Width img) (PageHeight img) fx fy t)
        = t ++ EvThumbnailImage img (MaxWidth v) (PageHeight img) InterestingNone SizeBoth
               :: rest).
Proof.
  assert (Htie : aspectGreater (Width img) (PageHeight img) (Width img) (PageHeight img)
                 = false) by apply SFltb_irrefl.
  split.
  - rewrite animatedThumbnailWithCrop_eq
      by (rewrite Z.ltb_irrefl, andb_false_r; reflexivity).
    rewrite Htie.
    destruct (vips_thumbnail_image E img (MaxWidth v) (PageHeight img)
                                   InterestingNone size).
    + rewrite ExtractAreaMultiPage_eq. cbn [snd]. rewrite <- app_assoc.
      eexists. reflexivity.
    + exists []. reflexivity.
  - intros Ho. rewrite FocalThumbnail_eq.
    assert (Hb : (Orientation img >? 4) = false)
      by (rewrite Z.gtb_ltb; apply Z.ltb_ge; lia).
    rewrite Hb, Htie.
    destruct (vips_thumbnail_image E img (MaxWidth v) (PageHeight img)
                                   InterestingNone SizeBoth).
    + rewrite ExtractAreaMultiPage_eq. cbn [snd]. rewrite <- app_assoc.
      eexists. reflexivity.
    + exists []. reflexivity.
Qed.

Lemma equal_aspect_scales_by_height_witness :
  exists rest,
    snd (animatedThumbnailWithCrop (Sim.env (Sim.still 1 1 1)) Sim.processor
                                   (Sim.animation 300 200 4) 300 200
                                   InterestingCentre SizeBoth [])
    = [] ++ EvThumbnailImage (Sim.animation 300 200 4) 9999 200 InterestingNone SizeBoth
            :: rest.
Proof.
  apply (proj1 (equal_aspect_scales_by_height
                  (Sim.env (Sim.still 1 1 1)) Sim.processor (Sim.animation 300 200 4)
                  InterestingCentre SizeBoth Sim.half Sim.half [])).
Defined.

(** *** The retry of [NewImage] *)

Lemma NewImage_no_recalculation (E : Env) (v : Processor) (blob : option Blob)
      (n page dpi : Z) :
  isMultiPage blob n page && needsRecalculation n page = false ->
  fuel_free (NewImage E 1 v blob n page dpi)
  /\ forall k t, NewImage E (S k) v blob n page dpi t = NewImage E 1 v blob n page dpi t.
Proof.
  intros Hno. split.
  - cbn [NewImage].
    destruct (isMultiPage blob n page); simpl in Hno; [rewrite Hno |]; fuel_free_cases.
  - intros k t. cbn [NewImage].
    destruct (isMultiPage blob n page); simpl in Hno; [rewrite Hno |]; reflexivity.
Qed.

(** Every call of [NewImage] either closes the decoded image and calls
    itself with the recalculated indices negated, or ends without calling
    itself. *)
Lemma NewImage_step (E : Env) (v : Processor) (blob : option Blob)
      (n page dpi : Z) (t : Trace) :
  (exists b img,
      blob = Some b
      /\ isMultiPage blob n page = true /\ needsRecalculation n page = true
      /\ vips_load E b (multiPageOptions v n page dpi) = inl img
      /\ withinLimits v img
      /\ forall k,
          NewImage E (S k) v blob n page dpi t
          = NewImage E k v blob (GoInt.neg (fst (recalculated img n page)))
                     (GoInt.neg (snd (recalculated img n page))) dpi
                     (t ++ [EvLoad b (multiPageOptions v n page dpi); EvClose img]))
  \/ (fst (NewImage E 1 v blob n page dpi t) <> OutOfFuel
      /\ forall k, NewImage E (S k) v blob n page dpi t = NewImage E 1 v blob n page dpi t).
Proof.
  destruct (isMultiPage blob n page && needsRecalculation n page) eqn:Hcond.
  2:{ right. destruct (NewImage_no_recalculation E v blob n page dpi Hcond) as [Hf Hk].
      split; [apply Hf | intros k; apply Hk]. }
  apply andb_true_iff in Hcond. destruct Hcond as [Hmp Hrec].
  destruct blob as [b |]; [| discriminate].
  set (o := multiPageOptions v n page dpi).
  assert (Hfail : forall err t1,
             (forall k, NewImage E (S k) v (Some b) n page dpi t
                        = bind (WrapErr E (Some err)) (fun e => ret (None, e)) t1) ->
             fst (NewImage E 1 v (Some b) n page dpi t) <> OutOfFuel
             /\ forall k, NewImage E (S k) v (Some b) n page dpi t
                          = NewImage E 1 v (Some b) n page dpi t).
  { intros err t1 Hk. split.
    - rewrite (Hk 0%nat). apply fuel_free_bind; fuel_free_cases.
    - intros k. rewrite (Hk k), (Hk 0%nat). reflexivity. }
  destruct (IsEmpty b) eqn:Hb.
  { right. apply (Hfail (ErrImagor (ErrNotFound E)) t). intros k.
    cbn [NewImage]. rewrite Hmp. unfold newImageFromBlob. rewrite Hb. reflexivity. }
  destruct (vips_load E b o) as [img | err] eqn:Hload.
  2:{ right. apply (Hfail err (t ++ [EvLoad b o])). intros k.
      cbn [NewImage]. rewrite Hmp. fold (multiPageOptions v n page dpi). fold o.
      unfold bind at 1; rewrite newImageFromBlob_eq, Hload by exact Hb. reflexivity. }
  set (t1 := t ++ [EvLoad b o]).
  destruct (CheckResolution_image E v img t1) as [[Hck Hw] | Hck].
  - left. exists b, img. repeat split; auto. intros k.
    cbn [NewImage]. rewrite Hmp, Hrec. fold (multiPageOptions v n page dpi). fold o.
    unfold bind at 1; rewrite newImageFromBlob_eq, Hload by exact Hb.
    unfold bind at 1. cbn [fst snd]. fold t1. rewrite Hck.
    unfold bind at 1. rewrite recalculateImage_eq. unfold t1.
    rewrite <- app_assoc. reflexivity.
  - right. apply (Hfail (ErrImagor (ErrMaxResolutionExceeded E)) (t1 ++ [EvClose img])).
    intros k. cbn [NewImage]. rewrite Hmp.
    fold (multiPageOptions v n page dpi). fold o.
    unfold bind at 1; rewrite newImageFromBlob_eq, Hload by exact Hb.
    unfold bind at 1. cbn [fst snd]. fold t1. rewrite Hck. reflexivity.
Qed.

(** X11.  [NewImage] retries at most once under the sign convention of
    a first call (n >= -1, page >= -1) on a source with at least one
    frame: a recalculation happens only for a multi-frame request with
    n > 1 or page > 1, the image decoded first has passed the resolution
    guard and is closed before the reload, and the reload, made with the
    negated recalculated indices, never recalculates again. *)
Theorem NewImage_single_retry
        (E : Env) (v : Processor) (blob : option Blob) (n page dpi : Z) (t : Trace) :
  GoInt.in_range n -> GoInt.in_range page -> -1 <= n -> -1 <= page ->
  (forall b o img, vips_load E b o = inl img -> 1 <= Pages img <= GoInt.MaxInt) ->
  (fst (NewImage E 1 v blob n page dpi t) = OutOfFuel ->
   isMultiPage blob n page = true /\ (n > 1 \/ page > 1)
   /\ exists b img,
       blob = Some b
       /\ vips_load E b (multiPageOptions v n page dpi) = inl img
       /\ withinLimits v img
       /\ forall k,
           NewImage E (S (S k)) v blob n page dpi t
           = NewImage E 1 v blob (GoInt.neg (fst (recalculated img n page)))
                      (GoInt.neg (snd (recalculated img n page))) dpi
                      (t ++ [EvLoad b (multiPageOptions v n page dpi); EvClose img]))
  /\ fst (NewImage E 2 v blob n page dpi t) <> OutOfFuel
  /\ forall k, NewImage E (2 + k) v blob n page dpi t = NewImage E 2 v blob n page dpi t.
Proof.
  intros Hn Hp Hn1 Hp1 Hpages.
  destruct (NewImage_step E v blob n page dpi t)
    as [(b & img & -> & Hmp & Hrec & Hload & Hw & Hk) | [Hfree Hk]].
  - pose proof (retried_indices_settled img n page Hn Hp Hn1 Hp1 (Hpages _ _ _ Hload))
      as Hset.
    assert (Hnext : isMultiPage (Some b)
                      (GoInt.neg (fst (recalculated img n page)))
                      (GoInt.neg (snd (recalculated img n page)))
                    && needsRecalculation
                         (GoInt.neg (fst (recalculated img n page)))
                         (GoInt.neg (snd (recalculated img n page))) = false)
      by (rewrite Hset; apply andb_false_r).
    destruct (NewImage_no_recalculation E v (Some b) _ _ dpi Hnext) as [Hfree' Hk'].
    split; [| split].
    + intros _. split; [exact Hmp |]. split.
      * unfold needsRecalculation in Hrec. apply orb_true_iff in Hrec.
        destruct Hrec as [H | H]; apply Z.gtb_lt in H; lia.
      * exists b, img. repeat split; auto.
        intros k. rewrite Hk. apply Hk'.
    + rewrite Hk. apply Hfree'.
    + intros k. cbn [Nat.add]. rewrite (Hk (S k)), (Hk 1%nat), (Hk' k). reflexivity.
  - split; [| split].
    + intros Hoof. contradiction.
    + rewrite Hk. exact Hfree.
    + intros k. cbn [Nat.add]. rewrite (Hk (S k)), (Hk 1%nat). reflexivity.
Qed.

Lemma NewImage_single_retry_witness :
  fst (NewImage (Sim.env (Sim.animation 100 100 3)) 2 Sim.processor (Some Sim.gif) 1 5 0 [])
  <> OutOfFuel.
Proof.
  apply (NewImage_single_retry (Sim.env (Sim.animation 100 100 3)) Sim.processor
                               (Some Sim.gif) 1 5 0 []).
  - unfold GoInt.in_range. vm_compute. split; discriminate.
  - unfold GoInt.in_range. vm_compute. split; discriminate.
  - lia.
  - lia.
  - apply Sim_pages. vm_compute. split; discriminate.
Defined.

(** ** Construction of a processor *)

Lemma disable_all_fields (names : list string) (v : Setup.ProcessorStruct) :
  let v' := fold_left (fun v name => Setup.disable name v) names v in
  Setup.Filters v' = Setup.Filters v
  /\ Setup.FallbackFunc v' = Setup.FallbackFunc v
  /\ Setup.DisableFilters v' = Setup.DisableFilters v
  /\ Setup.Concurrency v' = Setup.Concurrency v
  /\ Setup.Limits v' = Setup.Limits v
  /\ Setup.PNGBufferThreshold v' = Setup.PNGBufferThreshold v.
Proof.
  revert v. induction names as [| name names IH]; intros v; cbn [fold_left].
  - repeat split.
  - exact (IH (Setup.disable name v)).
Qed.

Lemma disable_all_map (names : list string) (v : Setup.ProcessorStruct) (k : string) :
  Setup.disableFilters (fold_left (fun v name => Setup.disable name v) names v) k = true
  <-> In k names \/ Setup.disableFilters v k = true.
Proof.
  revert v. induction names as [| name names IH]; intros v; cbn [fold_left In].
  - tauto.
  - rewrite IH. cbn [Setup.disable Setup.disableFilters].
    destruct (String.eqb k name) eqn:Hk.
    + apply String.eqb_eq in Hk. subst. tauto.
    + apply String.eqb_neq in Hk.
      split; [intros [H | H]; auto | intros [[H | H] | H]; auto].
      all: try (symmetry in H; contradiction).
Qed.

(** X12.  [NewProcessor] disables exactly the filters the options listed in
    [DisableFilters] or marked in the map themselves, and [blur] and
    [sharpen] when [DisableBlur] is set; a concurrency of -1 becomes the
    number of CPUs and any other is kept; the filter map, the limits and
    the fallback are those the options left. *)
Theorem NewProcessor_disables_listed_filters
        (numCPU : Z) (options : list Setup.Option) (name : string) :
  let configured := fold_left (fun v option => option v) options Setup.defaults in
  let v := Setup.NewProcessor numCPU options in
  (Setup.disableFilters v name = true
   <-> In name (Setup.DisableFilters configured)
       \/ (Setup.DisableBlur configured = true
           /\ (name = "blur"%string \/ name = "sharpen"%string))
       \/ Setup.disableFilters configured name = true)
  /\ Setup.DisableFilters v
     = Setup.DisableFilters configured
       ++ (if Setup.DisableBlur configured then ["blur"; "sharpen"]%string else [])
  /\ Setup.Concurrency v
     = (if Setup.Concurrency configured =? -1 then numCPU
        else Setup.Concurrency configured)
  /\ Setup.Filters v = Setup.Filters configured
  /\ Setup.Limits v = Setup.Limits configured
  /\ Setup.FallbackFunc v = Setup.FallbackFunc configured.
Proof.
  intros configured v. subst v. unfold Setup.NewProcessor. fold configured.
  set (listed := if Setup.DisableBlur configured
                 then Setup.set_DisableFilters
                        (Setup.DisableFilters configured ++ ["blur"; "sharpen"]%string)
                        configured
                 else configured).
  pose proof (disable_all_fields (Setup.DisableFilters listed) listed) as Hf.
  pose proof (disable_all_map (Setup.DisableFilters listed) listed name) as Hm.
  cbv zeta in Hf.
  set (marked := fold_left (fun v name => Setup.disable name v)
                           (Setup.DisableFilters listed) listed) in *.
  destruct Hf as (HF & HFb & HD & HC & HL & _).
  assert (Hlisted : Setup.DisableFilters listed
                    = Setup.DisableFilters configured
                      ++ (if Setup.DisableBlur configured
                          then ["blur"; "sharpen"]%string else [])
                    /\ Setup.disableFilters listed = Setup.disableFilters configured
                    /\ Setup.Concurrency listed = Setup.Concurrency configured
                    /\ Setup.Filters listed = Setup.Filters configured
                    /\ Setup.Limits listed = Setup.Limits configured
                    /\ Setup.FallbackFunc listed = Setup.FallbackFunc configured).
  { subst listed. destruct (Setup.DisableBlur configured); cbn.
    - repeat split.
    - rewrite app_nil_r. repeat split. }
  destruct Hlisted as (HlD & Hlm & HlC & HlF & HlL & HlFb).
  assert (Hfinal : forall (A : Type) (f : Setup.ProcessorStruct -> A),
             (forall c w, f (Setup.set_Concurrency c w) = f w) ->
             f (if Setup.Concurrency marked =? -1
                then Setup.set_Concurrency numCPU marked else marked) = f marked).
  { intros A f Hset. destruct (Setup.Concurrency marked =? -1); auto. }
  repeat match goal with |- _ /\ _ => split end.
  - rewrite (Hfinal _ (fun w => Setup.disableFilters w name)) by reflexivity.
    rewrite Hm, HlD, Hlm, in_app_iff.
    destruct (Setup.DisableBlur configured); cbn [In].
    + split.
      * intros [[H | [H | [H | []]]] | H]; auto.
      * intros [H | [[_ [H | H]] | H]]; subst; auto.
    + split.
      * intros [[H | []] | H]; auto.
      * intros [H | [[H _] | H]]; auto. discriminate.
  - rewrite (Hfinal _ Setup.DisableFilters) by reflexivity. congruence.
  - rewrite <- HlC, <- HC. destruct (Setup.Concurrency marked =? -1); reflexivity.
  - rewrite (Hfinal _ Setup.Filters) by reflexivity. congruence.
  - rewrite (Hfinal _ Setup.Limits) by reflexivity. congruence.
  - rewrite (Hfinal _ Setup.FallbackFunc) by reflexivity. congruence.
Qed.

Lemma NewProcessor_disables_listed_filters_witness :
  Setup.disableFilters (Setup.NewProcessor 8 [SetupSim.disableBlur]) "sharpen" = true.
Proof.
  apply (proj1 (NewProcessor_disables_listed_filters 8 [SetupSim.disableBlur] "sharpen")).
  right. left. split; [reflexivity | right; reflexivity].
Defined.

(** ** Start-up and shut-down *)

Lemma libraryUp_app (a b : list Setup.LibCall) :
  Setup.libraryUp (a ++ b) = Setup.libraryUp a + Setup.libraryUp b.
Proof.
  induction a as [| c a IH]; cbn [app Setup.libraryUp]; [lia |].
  destruct c; lia.
Qed.

Lemma Startup_counted (hasMagick : bool) (v : Setup.ProcessorStruct) (g : Setup.Global) :
  counted g -> Setup.processorCount g < GoInt.MaxInt ->
  counted (snd (Setup.Startup hasMagick v g))
  /\ Setup.processorCount (snd (Setup.Startup hasMagick v g)) = Setup.processorCount g + 1.
Proof.
  unfold counted, GoInt.MaxInt. intros [Hc Hl] Hmax.
  unfold Setup.Startup. cbn [snd Setup.processorCount Setup.libCalls].
  rewrite wrap_in_range
    by (unfold GoInt.in_range, GoInt.MinInt, GoInt.MaxInt; lia).
  split; [| reflexivity]. split; [lia |].
  destruct (Setup.processorCount g + 1 <=? 1) eqn:H1.
  - apply Z.leb_le in H1. assert (H0 : Setup.processorCount g = 0) by lia.
    rewrite H0 in *. rewrite libraryUp_app, Hl. reflexivity.
  - apply Z.leb_gt in H1.
    rewrite Hl.
    destruct (Setup.processorCount g =? 0) eqn:H0; [apply Z.eqb_eq in H0; lia |].
    destruct (Setup.processorCount g + 1 =? 0) eqn:H2; [apply Z.eqb_eq in H2; lia |].
    reflexivity.
Qed.

Lemma Shutdown_counted (g : Setup.Global) :
  counted g -> Setup.processorCount g <= GoInt.MaxInt ->
  counted (Setup.Shutdown g)
  /\ Setup.processorCount (Setup.Shutdown g) = Z.max 0 (Setup.processorCount g - 1).
Proof.
  unfold counted, GoInt.MaxInt. intros [Hc Hl] Hmax. unfold Setup.Shutdown.
  destruct (Setup.processorCount g <=? 0) eqn:H0.
  - apply Z.leb_le in H0. split; [split; assumption | lia].
  - apply Z.leb_gt in H0. cbn [Setup.processorCount Setup.libCalls].
    rewrite wrap_in_range
      by (unfold GoInt.in_range, GoInt.MinInt, GoInt.MaxInt; lia).
    split; [| lia]. split; [lia |].
    destruct (Setup.processorCount g =? 0) eqn:H1; [apply Z.eqb_eq in H1; lia |].
    destruct (Setup.processorCount g - 1 =? 0).
    + rewrite libraryUp_app, Hl. reflexivity.
    + exact Hl.
Qed.

Lemma run_counted (hasMagick : bool) (calls : list Setup.LifecycleCall) :
  forall g, counted g ->
    Setup.processorCount g + Z.of_nat (length calls) <= GoInt.MaxInt ->
    counted (Setup.run hasMagick calls g)
    /\ Setup.processorCount (Setup.run hasMagick calls g)
       <= Setup.processorCount g + Z.of_nat (length calls).
Proof.
  induction calls as [| c calls IH]; intros g Hg Hlen.
  - cbn. split; [assumption | lia].
  - cbn [length] in Hlen. rewrite Nat2Z.inj_succ in Hlen.
    cbn [length]. rewrite Nat2Z.inj_succ.
    pose proof (proj1 Hg) as Hpos.
    destruct c as [v |]; cbn [Setup.run].
    + destruct (Startup_counted hasMagick v g Hg) as [Hs Hn]; [lia |].
      destruct (IH _ Hs) as [Hr Hb]; [lia |]. split; [exact Hr | lia].
    + destruct (Shutdown_counted g Hg) as [Hs Hn]; [lia |].
      destruct (IH _ Hs) as [Hr Hb]; [lia |]. split; [exact Hr | lia].
Qed.

(** X13.  Whatever the order of start-ups and shut-downs, as long as the
    counter cannot overflow: the counter of started processors is never
    negative, and the library start-ups not yet matched by a library
    shut-down number exactly one while the counter is positive and none
    while it is zero.  So the library is never started twice in a row,
    and never shut down while a processor is still counted. *)
Theorem lifecycle_library_balanced (hasMagick : bool) (calls : list Setup.LifecycleCall) :
  Z.of_nat (length calls) <= GoInt.MaxInt ->
  let g := Setup.run hasMagick calls Setup.initial in
  0 <= Setup.processorCount g <= Z.of_nat (length calls)
  /\ Setup.libraryUp (Setup.libCalls g) = (if Setup.processorCount g =? 0 then 0 else 1).
Proof.
  intros Hlen g.
  assert (H0 : counted Setup.initial) by (split; cbn; [lia | reflexivity]).
  destruct (run_counted hasMagick calls Setup.initial H0) as [[Hc Hl] Hb];
    [cbn [Setup.initial Setup.processorCount]; lia |].
  cbn [Setup.initial Setup.processorCount] in Hb. fold g in Hc, Hl, Hb.
  split; [lia | exact Hl].
Qed.

Lemma lifecycle_library_balanced_witness :
  let g := Setup.run true
             [Setup.CallShutdown; Setup.CallStartup Setup.defaults;
              Setup.CallStartup Setup.defaults; Setup.CallShutdown;
              Setup.CallShutdown; Setup.CallShutdown;
              Setup.CallStartup Setup.defaults] Setup.initial in
  0 <= Setup.processorCount g <= 7
  /\ Setup.libraryUp (Setup.libCalls g) = (if Setup.processorCount g =? 0 then 0 else 1).
Proof.
  apply (lifecycle_library_balanced true
           [Setup.CallShutdown; Setup.CallStartup Setup.defaults;
            Setup.CallStartup Setup.defaults; Setup.CallShutdown;
            Setup.CallShutdown; Setup.CallShutdown;
            Setup.CallStartup Setup.defaults]).
  vm_compute. discriminate.
Defined.

(** ** Decoding a blob *)

Lemma streamed_newImageFromBlob (L : Setup.LoaderLib) (errNotFound : ImagorError)
      (v : Setup.ProcessorStruct) (b : Blob) (options : LoadOptions) :
  streamed L v b -> Setup.blobNewReader L b = None ->
  Setup.newImageFromBlob L errNotFound v (Some b) options
  = match Setup.NewImageFromSource L b options, Setup.FallbackFunc v with
    | inr _, Some f =>
        (Setup.runFallback L f b options,
         [Setup.CallNewReader; Setup.CallNewImageFromSource; Setup.CallSourceClose;
          Setup.CallFallbackFunc f])
    | r, _ => (r, [Setup.CallNewReader; Setup.CallNewImageFromSource])
    end.
Proof.
  intros (He & Hm & Hp) Hr. unfold Setup.newImageFromBlob. rewrite He.
  destruct (blobType b) eqn:Hb; try congruence; cbn [andb]; try (rewrite Hr; reflexivity).
  assert (Hc : (Setup.blobSize L b >? 0) && (Setup.blobSize L b >? Setup.PNGBufferThreshold v)
               = false).
  { destruct (Hp eq_refl) as [H | H].
    - apply andb_false_iff. left. rewrite Z.gtb_ltb. apply Z.ltb_ge. exact H.
    - apply andb_false_iff. right. rewrite Z.gtb_ltb. apply Z.ltb_ge. exact H. }
  rewrite Hc, Hr. reflexivity.
Qed.

Lemma streamed_dec (L : Setup.LoaderLib) (v : Setup.ProcessorStruct) (b : Blob) :
  IsEmpty b = false -> blobType b <> BlobTypeMemory ->
  (match blobType b with BlobTypePNG => true | _ => false end
   && (Setup.blobSize L b >? 0) && (Setup.blobSize L b >? Setup.PNGBufferThreshold v)) = false ->
  streamed L v b.
Proof.
  intros He Hm Hc. split; [exact He | split; [exact Hm |]].
  intros Hp. rewrite Hp in Hc. cbn [andb] in Hc.
  apply andb_false_iff in Hc. rewrite !Z.gtb_ltb, !Z.ltb_ge in Hc. exact Hc.
Qed.

Lemma not_streamed_no_source (L : Setup.LoaderLib) (errNotFound : ImagorError)
      (v : Setup.ProcessorStruct) (blob : option Blob) (options : LoadOptions) (c : Setup.LoadCall) :
  In c (snd (Setup.newImageFromBlob L errNotFound v blob options)) ->
  c = Setup.CallNewImageFromSource \/ c = Setup.CallSourceClose
  \/ (exists f, c = Setup.CallFallbackFunc f) ->
  exists b, blob = Some b /\ streamed L v b /\ Setup.blobNewReader L b = None.
Proof.
  unfold Setup.newImageFromBlob. intros Hin Hc.
  assert (Hno : forall l, In c l ->
                  (forall x, In x l -> x = Setup.CallMemory \/ x = Setup.CallNewImageFromMemory
                                       \/ x = Setup.CallReadAll
                                       \/ x = Setup.CallNewImageFromBuffer
                                       \/ x = Setup.CallNewReader) -> False).
  { intros l Hl Hall. specialize (Hall c Hl).
    destruct Hc as [Hc | [Hc | [f Hc]]]; subst c;
      repeat (destruct Hall as [Hall | Hall]; try discriminate); discriminate. }
  destruct blob as [b |]; [| destruct Hin].
  destruct (IsEmpty b) eqn:He; [destruct Hin |].
  assert (Hstream :
            match blobType b with BlobTypePNG => true | _ => false end
            && (Setup.blobSize L b >? 0)
            && (Setup.blobSize L b >? Setup.PNGBufferThreshold v) = false ->
            blobType b <> BlobTypeMemory ->
            In c (snd match Setup.blobNewReader L b with
                      | Some err => (inr err, [Setup.CallNewReader])
                      | None =>
                          match Setup.NewImageFromSource L b options, Setup.FallbackFunc v with
                          | inr _, Some f =>
                              (Setup.runFallback L f b options,
                               [Setup.CallNewReader; Setup.CallNewImageFromSource;
                                Setup.CallSourceClose; Setup.CallFallbackFunc f])
                          | r, _ => (r, [Setup.CallNewReader; Setup.CallNewImageFromSource])
                          end
                      end) ->
            exists b0, Some b = Some b0 /\ streamed L v b0 /\ Setup.blobNewReader L b0 = None).
  { intros Hcond Hm Hin'. destruct (Setup.blobNewReader L b) eqn:Hr.
    - exfalso. cbn [snd] in Hin'. apply (Hno _ Hin'). cbn [In]. intuition auto.
    - exists b. split; [reflexivity | split; [| exact Hr]].
      apply streamed_dec; assumption. }
  destruct (blobType b) eqn:Hb; cbn [andb] in *; cbv iota in Hin;
    try (apply Hstream; [reflexivity | discriminate | exact Hin]).
  - exfalso. cbn [snd] in Hin. apply (Hno _ Hin). cbn [In]. intuition auto.
  - destruct ((Setup.blobSize L b >? 0)
              && (Setup.blobSize L b >? Setup.PNGBufferThreshold v)) eqn:Hcond.
    + exfalso. destruct (Setup.blobReadAll L b); cbn [snd] in Hin;
        apply (Hno _ Hin); cbn [In]; intuition auto.
    + apply Hstream; [reflexivity | discriminate | exact Hin].
Qed.

(** X14.  After [Startup] a processor has a fallback loader: the one it
    was configured with, else the buffer fallback when the library can
    load through ImageMagick and the bitmap fallback when it cannot.  So
    on a started processor a blob whose streaming decode fails never
    yields the decoder's error: the source is closed and the result is
    whatever the fallback returns. *)
Theorem started_processor_falls_back
        (L : Setup.LoaderLib) (errNotFound : ImagorError) (hasMagick : bool)
        (v : Setup.ProcessorStruct) (g : Setup.Global)
        (b : Blob) (options : LoadOptions) (err : error) :
  streamed L v b ->
  Setup.blobNewReader L b = None ->
  Setup.NewImageFromSource L b options = inr err ->
  let started := fst (Setup.Startup hasMagick v g) in
  exists f,
    Setup.FallbackFunc started = Some f
    /\ (Setup.FallbackFunc v = None ->
        f = if hasMagick then Setup.bufferFallbackFunc else Setup.bmpFallbackFunc)
    /\ (forall f0, Setup.FallbackFunc v = Some f0 -> f = f0)
    /\ Setup.newImageFromBlob L errNotFound started (Some b) options
       = (Setup.runFallback L f b options,
          [Setup.CallNewReader; Setup.CallNewImageFromSource; Setup.CallSourceClose;
           Setup.CallFallbackFunc f]).
Proof.
  intros Hs Hr Herr started.
  assert (Hst : streamed L started b).
  { destruct Hs as (He & Hm & Hp). split; [exact He | split; [exact Hm |]].
    subst started. unfold Setup.Startup. cbn [fst].
    destruct (Setup.FallbackFunc v); exact Hp. }
  pose proof (streamed_newImageFromBlob L errNotFound started b options Hst Hr) as Heq.
  rewrite Herr in Heq.
  subst started. unfold Setup.Startup in *. cbn [fst] in *.
  destruct (Setup.FallbackFunc v) as [f0 |] eqn:Hf.
  - exists f0. rewrite ?Hf in Heq.
    split; [exact Hf | split; [discriminate | split; [congruence | exact Heq]]].
  - cbn [Setup.set_FallbackFunc Setup.FallbackFunc] in *.
    eexists. split; [reflexivity | split; [reflexivity | split; [discriminate | exact Heq]]].
Qed.

Lemma started_processor_falls_back_witness :
  exists f,
    Setup.FallbackFunc (fst (Setup.Startup true Setup.defaults Setup.initial)) = Some f
    /\ (Setup.FallbackFunc Setup.defaults = None ->
        f = Setup.bufferFallbackFunc)
    /\ (forall f0, Setup.FallbackFunc Setup.defaults = Some f0 -> f = f0)
    /\ Setup.newImageFromBlob SetupSim.failingLib (NewError "not found"%string 404)
         (fst (Setup.Startup true Setup.defaults Setup.initial)) (Some SetupSim.smallPng)
         (mkLoadOptions 0 0 0 false)
       = (Setup.runFallback SetupSim.failingLib f SetupSim.smallPng (mkLoadOptions 0 0 0 false),
          [Setup.CallNewReader; Setup.CallNewImageFromSource; Setup.CallSourceClose;
           Setup.CallFallbackFunc f]).
Proof.
  apply (started_processor_falls_back SetupSim.failingLib (NewError "not found"%string 404) true
           Setup.defaults Setup.initial SetupSim.smallPng (mkLoadOptions 0 0 0 false)
           (ErrOther "source"%string)).
  - split; [reflexivity | split; [discriminate | intros _; left; cbn; lia]].
  - reflexivity.
  - reflexivity.
Defined.

(** X15.  [newImageFromBlob] tries at most one of the library's three
    loaders, and it calls a fallback loader in exactly one situation: the
    blob is not empty, not raw memory and not a PNG above the buffering
    threshold, its reader could be opened, the streaming load failed and
    the processor has a fallback.  In particular a large PNG that fails to
    decode from its buffer, a failed read and a failed memory load are
    returned as they are, never retried through the fallback. *)
Theorem fallback_only_after_failed_streaming
        (L : Setup.LoaderLib) (errNotFound : ImagorError) (v : Setup.ProcessorStruct)
        (blob : option Blob) (options : LoadOptions) :
  let r := Setup.newImageFromBlob L errNotFound v blob options in
  (length (filter decodes (snd r)) <= 1)%nat
  /\ forall f,
       In (Setup.CallFallbackFunc f) (snd r)
       <-> exists b err,
             blob = Some b /\ streamed L v b /\ Setup.blobNewReader L b = None
             /\ Setup.NewImageFromSource L b options = inr err
             /\ Setup.FallbackFunc v = Some f.
Proof.
  intros r. split.
  - subst r. unfold Setup.newImageFromBlob.
    destruct blob as [b |]; [| cbn; lia].
    destruct (IsEmpty b); [cbn; lia |].
    destruct (blobType b); cbn [andb];
      repeat match goal with
             | |- context [if ?c then _ else _] => destruct c
             | |- context [match ?x with _ => _ end] => destruct x
             end; cbn; lia.
  - intros f. split.
    + intros Hin.
      destruct (not_streamed_no_source L errNotFound v blob options _ Hin)
        as (b & -> & Hs & Hr); [right; right; eexists; reflexivity |].
      subst r. rewrite (streamed_newImageFromBlob L errNotFound v b options Hs Hr) in Hin.
      destruct (Setup.NewImageFromSource L b options) as [img | err] eqn:Hsrc.
      * exfalso. destruct (Setup.FallbackFunc v); cbn [snd In] in Hin;
          repeat (destruct Hin as [Hin | Hin]; try discriminate); exact Hin.
      * destruct (Setup.FallbackFunc v) as [f0 |] eqn:Hf; cbn [snd In] in Hin.
        -- repeat (destruct Hin as [Hin | Hin]; try discriminate); [| destruct Hin].
           inversion Hin; subst. exists b, err. auto.
        -- exfalso. repeat (destruct Hin as [Hin | Hin]; try discriminate); exact Hin.
    + intros (b & err & -> & Hs & Hr & Hsrc & Hf). subst r.
      rewrite (streamed_newImageFromBlob L errNotFound v b options Hs Hr), Hsrc, Hf.
      cbn [snd In]. auto.
Qed.

Lemma fallback_only_after_failed_streaming_witness :
  In (Setup.CallFallbackFunc Setup.bmpFallbackFunc)
     (snd (Setup.newImageFromBlob SetupSim.failingLib (NewError "not found"%string 404)
             (fst (Setup.Startup false Setup.defaults Setup.initial))
             (Some SetupSim.smallPng) (mkLoadOptions 0 0 0 false))).
Proof.
  apply (proj2 (fallback_only_after_failed_streaming SetupSim.failingLib
                  (NewError "not found"%string 404)
                  (fst (Setup.Startup false Setup.defaults Setup.initial))
                  (Some SetupSim.smallPng) (mkLoadOptions 0 0 0 false))).
  exists SetupSim.smallPng, (ErrOther "source"%string).
  split; [reflexivity |].
  split; [split; [reflexivity | split; [discriminate | intros _; left; cbn; lia]] |].
  repeat split.
Defined.

(** The loader of the pipeline is this one, seen from outside: when the
    pipeline's collaborator [vips_load] stands for the choice between the
    loaders, the pipeline's [newImageFromBlob] returns what the detailed
    one returns. *)
Lemma loaders_agree (E : Env) (L : Setup.LoaderLib) (v : Setup.ProcessorStruct) :
  (forall b options,
      vips_load E b options
      = fst (Setup.newImageFromBlob L (ErrNotFound E) v (Some b) options)) ->
  forall blob options t,
    fst (newImageFromBlob E blob options t)
    = Ok match fst (Setup.newImageFromBlob L (ErrNotFound E) v blob options) with
         | inl img => (Some img, None)
         | inr err => (None, Some err)
         end.
Proof.
  intros Hload blob options t.
  destruct blob as [b |]; [| reflexivity].
  destruct (IsEmpty b) eqn:He.
  - unfold newImageFromBlob, Setup.newImageFromBlob. rewrite He. reflexivity.
  - rewrite newImageFromBlob_eq by exact He. rewrite Hload.
    destruct (fst (Setup.newImageFromBlob L (ErrNotFound E) v (Some b) options));
      reflexivity.
Qed.

(** ** S3 targets *)

Lemma string_length_app (a b : string) :
  String.length (a ++ b) = (String.length a + String.length b)%nat.
Proof. induction a as [| c a IH]; cbn; [reflexivity | rewrite IH; reflexivity]. Qed.

Lemma substring_all (k : string) : String.substring 0 (String.length k) k = k.
Proof. induction k as [| c k IH]; cbn; [reflexivity | rewrite IH; reflexivity]. Qed.

Lemma substring_app_r (a k : string) :
  String.substring (String.length a) (String.length k) (a ++ k) = k.
Proof. induction a as [| c a IH]; cbn; [apply substring_all | exact IH]. Qed.

Lemma prefix_app (p x : string) : String.prefix p (p ++ x) = true.
Proof.
  induction p as [| c p IH]; cbn.
  - destruct x; reflexivity.
  - destruct (Ascii.ascii_dec c c); [exact IH | contradiction].
Qed.

Lemma HasPrefix_app (p x : string) : strings.HasPrefix (p ++ x) p = true.
Proof. apply prefix_app. Qed.

Lemma HasSuffix_app (a k : string) : strings.HasSuffix (a ++ k) k = true.
Proof.
  unfold strings.HasSuffix. rewrite string_length_app.
  replace (String.length a + String.length k - String.length k)%nat
    with (String.length a) by lia.
  rewrite substring_app_r, String.eqb_refl.
  rewrite andb_true_r. apply Nat.leb_le. lia.
Qed.

Lemma append_nil_r (a : string) : (a ++ "")%string = a.
Proof. induction a as [| x a IH]; cbn; [reflexivity | rewrite IH; reflexivity]. Qed.

Lemma append_assoc (a b c : string) : ((a ++ b) ++ c = a ++ (b ++ c))%string.
Proof. induction a as [| x a IH]; cbn; [reflexivity | rewrite IH; reflexivity]. Qed.

(** X16.  With a bucket prefix, [buildKeyWithBucketPrefix] answers a key
    that starts with the prefix and ends with the given key, the two
    joined by exactly one slash: a key is prefixed the same with and
    without one leading slash.  An empty key gives the prefix alone, and
    an empty prefix changes nothing. *)
Theorem buildKeyWithBucketPrefix_joins (key bucketPrefix : string) :
  bucketPrefix <> ""%string ->
  let result := s3storage.buildKeyWithBucketPrefix key bucketPrefix in
  strings.HasPrefix result bucketPrefix = true
  /\ strings.HasSuffix result key = true
  /\ (key = ""%string -> result = bucketPrefix)
  /\ (key <> ""%string ->
      exists rest, result = (bucketPrefix ++ "/" ++ rest)%string
                   /\ (key = rest \/ key = ("/" ++ rest)%string)
                   /\ s3storage.buildKeyWithBucketPrefix ("/" ++ rest) bucketPrefix = result)
  /\ s3storage.buildKeyWithBucketPrefix key "" = key.
Proof.
  intros Hp result. subst result. unfold s3storage.buildKeyWithBucketPrefix.
  apply String.eqb_neq in Hp. rewrite Hp. cbn [String.eqb].
  destruct key as [| c key].
  - repeat split.
    + rewrite <- (append_nil_r bucketPrefix) at 1. apply HasPrefix_app.
    + rewrite <- (append_nil_r bucketPrefix). apply HasSuffix_app.
    + intros H. contradiction.
  - destruct (Ascii.eqb c "/") eqn:Hc.
    + apply Ascii.eqb_eq in Hc. subst c.
      repeat split.
      * apply HasPrefix_app.
      * apply HasSuffix_app.
      * discriminate.
      * intros _. exists key. cbn [append Ascii.eqb]. repeat split. right. reflexivity.
    + repeat split.
      * apply HasPrefix_app.
      * rewrite <- append_assoc. apply HasSuffix_app.
      * discriminate.
      * intros _. exists (String c key). repeat split. left. reflexivity.
Qed.

Lemma buildKeyWithBucketPrefix_joins_witness :
  strings.HasPrefix (s3storage.buildKeyWithBucketPrefix "a/b.jpg" "shop") "shop" = true
  /\ strings.HasSuffix (s3storage.buildKeyWithBucketPrefix "a/b.jpg" "shop") "a/b.jpg" = true
  /\ ("a/b.jpg" = "" -> s3storage.buildKeyWithBucketPrefix "a/b.jpg" "shop" = "shop")%string
  /\ ("a/b.jpg" <> "" ->
      exists rest, s3storage.buildKeyWithBucketPrefix "a/b.jpg" "shop"
                   = ("shop" ++ "/" ++ rest)
                   /\ ("a/b.jpg" = rest \/ "a/b.jpg" = ("/" ++ rest))
                   /\ s3storage.buildKeyWithBucketPrefix ("/" ++ rest) "shop"
                      = s3storage.buildKeyWithBucketPrefix "a/b.jpg" "shop")%string
  /\ s3storage.buildKeyWithBucketPrefix "a/b.jpg" "" = "a/b.jpg"%string.
Proof.
  apply (buildKeyWithBucketPrefix_joins "a/b.jpg" "shop"). discriminate.
Defined.

Section Middleware.

Variable TrimSpace : string -> string.

Lemma stringValue_WithValue_same (ctx : s3storage.Context) (key v : string) :
  s3storage.stringValue (s3storage.WithValue ctx key (s3storage.VString v)) key
  = if s3storage.nonEmpty v then Some v else None.
Proof.
  unfold s3storage.stringValue, s3storage.WithValue. rewrite String.eqb_refl. reflexivity.
Qed.

Lemma stringValue_WithValue_other (ctx : s3storage.Context) (key key' : string)
      (v : s3storage.Value) :
  String.eqb key' key = false ->
  s3storage.stringValue (s3storage.WithValue ctx key v) key'
  = s3storage.stringValue ctx key'.
Proof.
  intros H. unfold s3storage.stringValue, s3storage.WithValue. rewrite H. reflexivity.
Qed.

Lemma middleware_header (r : s3storage.Request) :
  s3storage.Header (s3storage.S3ConfigMiddleware TrimSpace r) = s3storage.Header r.
Proof.
  unfold s3storage.S3ConfigMiddleware.
  destruct (s3storage.nonEmpty (s3storage.Header r "AWS-BUCKET"));
    destruct (s3storage.nonEmpty (s3storage.Header r "AWS-REGION")); reflexivity.
Qed.

Lemma middleware_bucket (r : s3storage.Request) :
  s3storage.stringValue (s3storage.Ctx (s3storage.S3ConfigMiddleware TrimSpace r)) "aws-bucket"
  = if s3storage.nonEmpty (s3storage.Header r "AWS-BUCKET")
    then (if s3storage.nonEmpty (TrimSpace (s3storage.Header r "AWS-BUCKET"))
          then Some (TrimSpace (s3storage.Header r "AWS-BUCKET")) else None)
    else s3storage.stringValue (s3storage.Ctx r) "aws-bucket".
Proof.
  unfold s3storage.S3ConfigMiddleware.
  destruct (s3storage.nonEmpty (s3storage.Header r "AWS-BUCKET"));
    destruct (s3storage.nonEmpty (s3storage.Header r "AWS-REGION"));
    cbn [s3storage.Ctx s3storage.Header];
    rewrite ?stringValue_WithValue_other by reflexivity;
    rewrite ?stringValue_WithValue_same; reflexivity.
Qed.

Lemma middleware_region (r : s3storage.Request) :
  s3storage.stringValue (s3storage.Ctx (s3storage.S3ConfigMiddleware TrimSpace r)) "aws-region"
  = if s3storage.nonEmpty (s3storage.Header r "AWS-REGION")
    then (if s3storage.nonEmpty (TrimSpace (s3storage.Header r "AWS-REGION"))
          then Some (TrimSpace (s3storage.Header r "AWS-REGION")) else None)
    else s3storage.stringValue (s3storage.Ctx r) "aws-region".
Proof.
  unfold s3storage.S3ConfigMiddleware.
  destruct (s3storage.nonEmpty (s3storage.Header r "AWS-BUCKET"));
    destruct (s3storage.nonEmpty (s3storage.Header r "AWS-REGION"));
    cbn [s3storage.Ctx s3storage.Header];
    rewrite ?stringValue_WithValue_same;
    rewrite ?stringValue_WithValue_other by reflexivity; reflexivity.
Qed.

(** X17.  Behind [S3ConfigMiddleware], reading and writing address the same
    object: when the bucket and region headers carry no surrounding white
    space, and the incoming context holds no bucket or region of its own,
    the bucket, region and key that [Get] takes from the request are the
    ones [Put], [Delete] and [Stat] take from the request's context,
    whatever the storage's settings. *)
Theorem request_and_context_targets_agree
        (s : s3storage.S3Storage) (r : s3storage.Request) (image : string) :
  TrimSpace (s3storage.Header r "AWS-BUCKET") = s3storage.Header r "AWS-BUCKET" ->
  TrimSpace (s3storage.Header r "AWS-REGION") = s3storage.Header r "AWS-REGION" ->
  s3storage.stringValue (s3storage.Ctx r) "aws-bucket" = None ->
  s3storage.stringValue (s3storage.Ctx r) "aws-region" = None ->
  let served := s3storage.S3ConfigMiddleware TrimSpace r in
  s3storage.contextTarget s (s3storage.Ctx served) image
  = s3storage.requestTarget s served image.
Proof.
  intros Hb Hr Hcb Hcr served.
  unfold s3storage.contextTarget, s3storage.requestTarget,
    s3storage.getBucketFromContext, s3storage.getBucketFromRequest,
    s3storage.getRegionFromContext, s3storage.getRegionFromRequest,
    s3storage.getBucketFromContextForKey, s3storage.getBucketFromRequestForKey.
  subst served. rewrite middleware_bucket, middleware_region, middleware_header.
  rewrite Hb, Hr, Hcb, Hcr. unfold s3storage.nonEmpty.
  destruct (String.eqb (s3storage.Header r "AWS-BUCKET") "") eqn:H1;
    destruct (String.eqb (s3storage.Header r "AWS-REGION") "") eqn:H2;
    cbn [negb];
    try (apply String.eqb_eq in H1; rewrite ?H1);
    try (apply String.eqb_eq in H2; rewrite ?H2);
    destruct (s3storage.bucketFromRequest s), (s3storage.regionFromRequest s);
    reflexivity.
Qed.

(** X18.  [Get] reads the bucket header as it came, the other operations
    read what the middleware trimmed: when the storage takes its bucket
    from the request and the header has white space around a name, [Get]
    addresses the bucket with the white space and [Put], [Delete] and
    [Stat] the bucket without, under the same key. *)
Theorem untrimmed_bucket_header_splits_targets
        (s : s3storage.S3Storage) (r : s3storage.Request) (image : string) :
  s3storage.bucketFromRequest s = true ->
  s3storage.Header r "AWS-BUCKET" <> ""%string ->
  TrimSpace (s3storage.Header r "AWS-BUCKET") <> ""%string ->
  TrimSpace (s3storage.Header r "AWS-BUCKET") <> s3storage.Header r "AWS-BUCKET" ->
  let served := s3storage.S3ConfigMiddleware TrimSpace r in
  s3storage.targetBucket (s3storage.requestTarget s served image)
  = s3storage.Header r "AWS-BUCKET"
  /\ s3storage.targetBucket (s3storage.contextTarget s (s3storage.Ctx served) image)
     = TrimSpace (s3storage.Header r "AWS-BUCKET")
  /\ s3storage.targetBucket (s3storage.requestTarget s served image)
     <> s3storage.targetBucket (s3storage.contextTarget s (s3storage.Ctx served) image)
  /\ s3storage.targetKey (s3storage.requestTarget s served image)
     = s3storage.targetKey (s3storage.contextTarget s (s3storage.Ctx served) image).
Proof.
  intros Hs Hh Ht Hne served.
  apply String.eqb_neq in Hh. apply String.eqb_neq in Ht.
  assert (Hreq : s3storage.targetBucket (s3storage.requestTarget s served image)
                 = s3storage.Header r "AWS-BUCKET").
  { subst served. cbn [s3storage.requestTarget s3storage.targetBucket].
    unfold s3storage.getBucketFromRequest. rewrite middleware_header, Hs, Hh. reflexivity. }
  assert (Hctx : s3storage.targetBucket
                   (s3storage.contextTarget s (s3storage.Ctx served) image)
                 = TrimSpace (s3storage.Header r "AWS-BUCKET")).
  { subst served. cbn [s3storage.contextTarget s3storage.targetBucket].
    unfold s3storage.getBucketFromContext. rewrite middleware_bucket, Hs.
    unfold s3storage.nonEmpty. rewrite Hh, Ht. reflexivity. }
  split; [exact Hreq | split; [exact Hctx | split]].
  - rewrite Hreq, Hctx. auto.
  - cbn [s3storage.requestTarget s3storage.contextTarget s3storage.targetKey].
    unfold s3storage.getBucketFromRequestForKey, s3storage.getBucketFromContextForKey.
    rewrite Hs. reflexivity.
Qed.

End Middleware.

Lemma request_and_context_targets_agree_witness :
  s3storage.contextTarget SetupSim.storage
    (s3storage.Ctx (s3storage.S3ConfigMiddleware Sim.TrimSpace
                      (SetupSim.request "shop" "eu-west-1"))) "a/b.jpg"
  = s3storage.requestTarget SetupSim.storage
      (s3storage.S3ConfigMiddleware Sim.TrimSpace (SetupSim.request "shop" "eu-west-1"))
      "a/b.jpg".
Proof.
  apply (request_and_context_targets_agree Sim.TrimSpace SetupSim.storage
           (SetupSim.request "shop" "eu-west-1") "a/b.jpg"); reflexivity.
Defined.

Lemma untrimmed_bucket_header_splits_targets_witness :
  s3storage.targetBucket
    (s3storage.requestTarget SetupSim.storage
       (s3storage.S3ConfigMiddleware Sim.TrimSpace (SetupSim.request " shop" "")) "a/b.jpg")
  <> s3storage.targetBucket
       (s3storage.contextTarget SetupSim.storage
          (s3storage.Ctx (s3storage.S3ConfigMiddleware Sim.TrimSpace
                            (SetupSim.request " shop" ""))) "a/b.jpg").
Proof.
  apply (untrimmed_bucket_header_splits_targets Sim.TrimSpace SetupSim.storage
           (SetupSim.request " shop" "") "a/b.jpg").
  - reflexivity.
  - vm_compute. discriminate.
  - vm_compute. discriminate.
  - vm_compute. discriminate.
Defined.

(** ** Construction of a storage *)

Lemma Index_slash_cons (c : ascii) (s : string) :
  s3storage.Index (String c s) "/"
  = if Ascii.eqb c "/" then 0
    else if s3storage.Index s "/" <? 0 then -1 else s3storage.Index s "/" + 1.
Proof.
  cbn [s3storage.Index String.prefix].
  destruct (Ascii.ascii_dec "/" c) as [<- | Hne].
  - replace (String.prefix "" s) with true by (destruct s; reflexivity). reflexivity.
  - destruct (Ascii.eqb c "/") eqn:Hc; [| reflexivity].
    apply Ascii.eqb_eq in Hc. subst c. contradiction.
Qed.

Lemma Index_slash_range (s : string) :
  s3storage.Index s "/" = -1
  \/ 0 <= s3storage.Index s "/" < Z.of_nat (String.length s).
Proof.
  induction s as [| c s IH].
  - left. reflexivity.
  - rewrite Index_slash_cons. cbn [String.length]. rewrite Nat2Z.inj_succ.
    destruct (Ascii.eqb c "/"); [right; lia |].
    destruct IH as [-> | IH]; [left; reflexivity |].
    destruct (s3storage.Index s "/" <? 0) eqn:Hi; [apply Z.ltb_lt in Hi; lia |].
    right. lia.
Qed.

Lemma Index_slash_split (s : string) :
  0 <= s3storage.Index s "/" ->
  let i := Z.to_nat (s3storage.Index s "/") in
  (String.substring 0 i s ++ String.substring i (String.length s - i) s)%string = s
  /\ strings.HasPrefix (String.substring i (String.length s - i) s) "/" = true
  /\ s3storage.Index (String.substring 0 i s) "/" = -1.
Proof.
  induction s as [| c s IH]; intros Hi i; subst i.
  - exfalso. cbn in Hi. lia.
  - rewrite Index_slash_cons in *.
    destruct (Ascii.eqb c "/") eqn:Hc.
    + apply Ascii.eqb_eq in Hc. subst c.
      change (Z.to_nat 0) with 0%nat. rewrite Nat.sub_0_r.
      rewrite substring_all. cbn [String.substring append].
      repeat split. exact (HasPrefix_app "/" s).
    + destruct (s3storage.Index s "/" <? 0) eqn:Hneg; [lia |].
      apply Z.ltb_ge in Hneg. specialize (IH Hneg). cbv zeta in IH.
      destruct IH as (Hcat & Hpre & Hno).
      rewrite Z2Nat.inj_add by lia. rewrite Nat.add_comm.
      change (Z.to_nat 1) with 1%nat. cbn [Nat.add String.length Nat.sub String.substring].
      repeat split.
      * cbn [append]. rewrite Hcat. reflexivity.
      * exact Hpre.
      * rewrite Index_slash_cons, Hc, Hno. reflexivity.
Qed.

(** X19.  [New] splits its bucket argument at the first slash: the part
    before it is the bucket, which holds no slash, and the rest, slash
    included, is the base directory, so that bucket and base directory
    put together give the argument back; without a slash the argument is
    the bucket and the base directory is the root.  The path prefix starts
    as the root, no ACL is set, the bucket and the region are not taken
    from the request, and the options are applied to this storage in
    order. *)
Theorem New_splits_bucket (region bucket : string) (options : list s3storage.Option) :
  let s := s3storage.New region bucket [] in
  String.append (s3storage.Bucket s)
                (if s3storage.Index bucket "/" =? -1 then ""%string
                 else s3storage.BaseDir s) = bucket
  /\ s3storage.Index (s3storage.Bucket s) "/" = -1
  /\ strings.HasPrefix (s3storage.BaseDir s) "/" = true
  /\ (s3storage.Index bucket "/" = -1 -> s3storage.BaseDir s = "/"%string)
  /\ s3storage.PathPrefix s = "/"%string
  /\ s3storage.ACL s = ""%string
  /\ s3storage.bucketFromRequest s = false
  /\ s3storage.regionFromRequest s = false
  /\ s3storage.Region s = region
  /\ s3storage.New region bucket options = fold_left (fun s option => option s) options s.
Proof.
  intros s. subst s. unfold s3storage.New. cbn [fold_left].
  destruct (Index_slash_range bucket) as [Hi | Hi].
  - rewrite Hi. cbn [Z.gtb Z.compare Z.eqb
                     s3storage.Bucket s3storage.BaseDir s3storage.PathPrefix s3storage.ACL
                     s3storage.bucketFromRequest s3storage.regionFromRequest
                     s3storage.Region].
    rewrite append_nil_r. repeat split. exact Hi.
  - destruct (Index_slash_split bucket (proj1 Hi)) as (Hcat & Hpre & Hno).
    assert (Hgt : (s3storage.Index bucket "/" >? -1) = true)
      by (rewrite Z.gtb_ltb; apply Z.ltb_lt; lia).
    assert (Hne : (s3storage.Index bucket "/" =? -1) = false) by (apply Z.eqb_neq; lia).
    rewrite Hgt, Hne.
    cbn [s3storage.Bucket s3storage.BaseDir s3storage.PathPrefix s3storage.ACL
         s3storage.bucketFromRequest s3storage.regionFromRequest s3storage.Region].
    repeat split; try assumption. lia.
Qed.

(** ** Reading an object *)

(** X20.  The reader of a blob made by [Get] lets no not-found error of
    the client through as it is: an error it returns is [ErrNotFound], or
    [ErrExpired] for an object that was found and is older than a
    positive [Expiration], or the error of [GetObject] itself, and then
    one that [isNotFoundError] rejects. *)
Theorem reader_errors_classified
        (s : s3storage.S3Storage) (W : s3storage.World) (r : s3storage.Request)
        (image : string) (once : bool) (e : s3storage.ReadError) :
  s3storage.result (s3storage.reader s W r image once) = inr e ->
  let target := s3storage.requestTarget s r image in
  let answer := s3storage.GetObject W
                  (s3storage.getClientWithRegion s (s3storage.targetRegion target))
                  (s3storage.targetBucket target) (s3storage.targetKey target) in
  e = s3storage.ErrNotFound
  \/ (e = s3storage.ErrExpired /\ 0 < s3storage.Expiration s
      /\ exists out modified,
           answer = inl out /\ s3storage.LastModified out = Some modified
           /\ s3storage.Expiration s < s3storage.Since W modified)
  \/ (exists err, e = s3storage.ErrS3 err /\ s3storage.isNotFoundError err = false
                  /\ answer = inr err).
Proof.
  intros Hres target answer. subst answer target.
  unfold s3storage.reader in Hres.
  cbn [s3storage.requestTarget s3storage.targetRegion s3storage.targetBucket
       s3storage.targetKey].
  destruct (s3storage.GetObject W _ _ _) as [out | err].
  - destruct (s3storage.Expiration s >? 0) eqn:Hexp; cbn [andb] in Hres.
    + destruct (s3storage.LastModified out) as [modified |] eqn:Hm.
      * destruct (s3storage.Since W modified >? s3storage.Expiration s) eqn:Hold;
          cbn [s3storage.result] in Hres; [| discriminate].
        injection Hres as <-. right. left.
        rewrite Z.gtb_ltb in Hexp, Hold. apply Z.ltb_lt in Hexp, Hold.
        split; [reflexivity | split; [exact Hexp |]].
        exists out, modified. auto.
      * discriminate.
    + discriminate.
  - destruct (s3storage.isNotFoundError err) eqn:Hnf; cbn [andb] in Hres.
    + destruct (s3storage.ImgixFallbackEnabled s); cbn [s3storage.result] in Hres.
      * left. unfold s3storage.fetchFromImgixAndSave in Hres.
        repeat match type of Hres with
               | context [if ?c then _ else _] => destruct c
               | context [match ?x with _ => _ end] => destruct x
               end; cbn [fst] in Hres; congruence.
      * left. congruence.
    + cbn [s3storage.result] in Hres. injection Hres as <-.
      right. right. exists err. auto.
Qed.

Lemma reader_errors_classified_witness :
  s3storage.ErrS3 SetupSim.denied = s3storage.ErrNotFound
  \/ (s3storage.ErrS3 SetupSim.denied = s3storage.ErrExpired
      /\ 0 < s3storage.Expiration SetupSim.storage
      /\ exists out modified,
           @inr s3storage.GetObjectOutput _ SetupSim.denied = inl out
           /\ s3storage.LastModified out = Some modified
           /\ s3storage.Expiration SetupSim.storage
              < s3storage.Since (SetupSim.world (inr SetupSim.denied)) modified)
  \/ (exists err, s3storage.ErrS3 SetupSim.denied = s3storage.ErrS3 err
                  /\ s3storage.isNotFoundError err = false
                  /\ @inr s3storage.GetObjectOutput _ SetupSim.denied = inr err).
Proof.
  apply (reader_errors_classified SetupSim.storage (SetupSim.world (inr SetupSim.denied))
           (SetupSim.request "shop" "") "a/b.jpg" false (s3storage.ErrS3 SetupSim.denied)).
  reflexivity.
Defined.

(** X21.  With the imgix fallback enabled, an object that [GetObject]
    reports missing is read from imgix, at the host named after the S3
    bucket and the path without the bucket prefix: the reader answers
    the body, with its length, exactly when the request could be made,
    imgix answered 200 and the body could be read, and [ErrNotFound] in
    every other case.  The body is then stored with one [PutObject], by
    the client, in the bucket and under the key of the failed
    [GetObject], with an ACL only if one is configured, and answered
    whatever the [PutObject] gives.  No expiry applies, and the blob gets
    neither a content type nor a [Stat]. *)
Theorem missing_object_served_from_imgix
        (s : s3storage.S3Storage) (W : s3storage.World) (r : s3storage.Request)
        (image : string) (once : bool) (err : s3storage.S3Error) :
  let target := s3storage.requestTarget s r image in
  let client := s3storage.getClientWithRegion s (s3storage.targetRegion target) in
  let bucket := s3storage.targetBucket target in
  let key := s3storage.targetKey target in
  let url := ("https://" ++ bucket ++ ".imgix.net/" ++ image ++ "?q=100&w=1")%string in
  let timeout := if s3storage.ImgixFallbackTimeout s =? 0 then 30 * s3storage.Second
                 else s3storage.ImgixFallbackTimeout s in
  let rd := s3storage.reader s W r image once in
  s3storage.ImgixFallbackEnabled s = true ->
  s3storage.GetObject W client bucket key = inr err ->
  s3storage.isNotFoundError err = true ->
  (forall body size,
      s3storage.result rd = inl (body, size)
      <-> s3storage.NewRequest W url = true
          /\ size = Z.of_nat (List.length body)
          /\ exists resp, s3storage.Do W url timeout = Some resp
                          /\ s3storage.StatusCode resp = 200
                          /\ s3storage.ResponseBody resp = Some body)
  /\ (forall e, s3storage.result rd = inr e -> e = s3storage.ErrNotFound)
  /\ (forall body size,
         s3storage.result rd = inl (body, size) ->
         exists resp,
           s3storage.calls rd
           = [s3storage.CallGetObject client bucket key;
              s3storage.CallImgix url timeout;
              s3storage.CallPutObject client
                (s3storage.mkPutObjectInput bucket key body
                   (s3storage.ResponseContentType resp) size (s3storage.StorageClass s)
                   (if String.eqb (s3storage.ACL s) "" then None
                    else Some (s3storage.ACL s)))])
  /\ (forall e, s3storage.result rd = inr e ->
                forall region input, ~ In (s3storage.CallPutObject region input)
                                          (s3storage.calls rd))
  /\ s3storage.onceDone rd = once
  /\ s3storage.blobSet rd = None.
Proof.
  intros target client bucket key url timeout rd Hen Hget Hnf.
  subst rd. unfold s3storage.reader.
  change (s3storage.getBucketFromRequest s r) with bucket.
  change (s3storage.buildKeyWithBucketPrefix image (s3storage.getBucketFromRequestForKey s r))
    with key.
  change (s3storage.getClientWithRegion s (s3storage.getRegionFromRequest s r)) with client.
  rewrite Hget, Hnf, Hen. cbn [andb s3storage.result s3storage.calls s3storage.onceDone
                                 s3storage.blobSet].
  unfold s3storage.fetchFromImgixAndSave. fold url. fold timeout.
  change (s3storage.getClientWithRegion s (s3storage.getRegionFromRequest s r)) with client.
  destruct (s3storage.NewRequest W url) eqn:Hreq; cbn [negb].
  2:{ cbn [fst snd]. repeat split; try congruence.
      - intros [H _]. discriminate.
      - intros e _ region input [H | []]. discriminate. }
  destruct (s3storage.Do W url timeout) as [resp |] eqn:Hdo.
  2:{ cbn [fst snd]. repeat split; try congruence.
      - intros (_ & _ & resp & H & _). discriminate.
      - intros e _ region input [H | [H | []]]; discriminate. }
  destruct (s3storage.StatusCode resp =? 200) eqn:Hst; cbn [negb].
  2:{ cbn [fst snd]. repeat split; try congruence.
      - intros (_ & _ & resp' & H & Hs & _). injection H as <-.
        apply Z.eqb_neq in Hst. contradiction.
      - intros e _ region input [H | [H | []]]; discriminate. }
  apply Z.eqb_eq in Hst.
  destruct (s3storage.ResponseBody resp) as [body |] eqn:Hbody.
  2:{ cbn [fst snd]. repeat split; try congruence.
      - intros (_ & _ & resp' & H & _ & Hb). injection H as <-. congruence.
      - intros e _ region input [H | [H | []]]; discriminate. }
  cbn [fst snd].
  split; [| split; [| split; [| split; [| split; reflexivity]]]].
  - intros body' size'. split.
    + intros H. injection H as <- <-.
      split; [reflexivity | split; [reflexivity |]]. exists resp. auto.
    + intros (_ & -> & resp' & H & _ & Hb). injection H as <-.
      rewrite Hbody in Hb. injection Hb as <-. reflexivity.
  - intros e H. discriminate.
  - intros body' size' H. injection H as <- <-. exists resp.
    destruct (String.eqb (s3storage.ACL s) ""); reflexivity.
  - intros e H. discriminate.
Qed.

Lemma missing_object_served_from_imgix_witness :
  s3storage.result
    (s3storage.reader SetupSim.storage (SetupSim.world (inr SetupSim.missing))
                      (SetupSim.request "shop" "") "a/b.jpg" false)
  = inl ([Byte.x2a], 1).
Proof.
  apply (proj2 (proj1 (missing_object_served_from_imgix
                         SetupSim.storage (SetupSim.world (inr SetupSim.missing))
                         (SetupSim.request "shop" "") "a/b.jpg" false SetupSim.missing
                         eq_refl eq_refl eq_refl)
                      [Byte.x2a] 1)).
  split; [reflexivity | split; [reflexivity |]].
  eexists. split; [reflexivity | split; reflexivity].
Defined.

(** ** Request metrics *)

Lemma fold_record (l : list prometheusmetrics.WriterCall)
      (rec : prometheusmetrics.responseRecorder) :
  fold_left prometheusmetrics.record l rec
  = prometheusmetrics.mkResponseRecorder
      (prometheusmetrics.forwarded rec ++ l)
      (last (prometheusmetrics.statuses l) (prometheusmetrics.statusCode rec)).
Proof.
  revert rec. induction l as [| c l IH]; intros rec.
  - cbn. rewrite app_nil_r. destruct rec; reflexivity.
  - cbn [fold_left]. rewrite IH. destruct c as [st | data]; cbn [prometheusmetrics.record
      prometheusmetrics.forwarded prometheusmetrics.statusCode].
    + rewrite <- app_assoc. cbn [app]. f_equal.
      unfold prometheusmetrics.statuses. cbn [flat_map app].
      fold (prometheusmetrics.statuses l).
      destruct (prometheusmetrics.statuses l) as [| x xs]; [reflexivity |].
      cbn [last]. clear. revert x. induction xs as [| y ys IHxs]; intros x; [reflexivity |].
      cbn [last] in *. apply IHxs.
    + rewrite <- app_assoc. reflexivity.
Qed.

(** X22.  The handler made by [Handle] passes every call of the wrapped
    handler on to the writer, in order, and makes one observation per
    request: its code is the last status the wrapped handler wrote, or
    200 if it wrote none, its method is the request's, and its source is
    the bucket header, or "unknown" for a request without one, so never
    empty. *)
Theorem Handle_observes_last_status
        (Itoa : Z -> string) (next : prometheusmetrics.Request -> list prometheusmetrics.WriterCall)
        (r : prometheusmetrics.Request) (elapsed : Float64.t) :
  let handled := prometheusmetrics.Handle Itoa next r elapsed in
  fst handled = next r
  /\ prometheusmetrics.code (snd handled)
     = Itoa (last (prometheusmetrics.statuses (next r)) 200)
  /\ prometheusmetrics.method (snd handled) = prometheusmetrics.Method r
  /\ prometheusmetrics.seconds (snd handled) = elapsed
  /\ prometheusmetrics.source (snd handled)
     = (if String.eqb (prometheusmetrics.Header r "AWS-BUCKET") "" then "unknown"
        else prometheusmetrics.Header r "AWS-BUCKET")%string
  /\ prometheusmetrics.source (snd handled) <> ""%string.
Proof.
  intros handled. subst handled. unfold prometheusmetrics.Handle.
  rewrite fold_record. cbn [fst snd prometheusmetrics.forwarded prometheusmetrics.statusCode
                              prometheusmetrics.code prometheusmetrics.method
                              prometheusmetrics.seconds prometheusmetrics.source app].
  repeat split.
  destruct (String.eqb (prometheusmetrics.Header r "AWS-BUCKET") "") eqn:H.
  - discriminate.
  - apply String.eqb_neq in H. exact H.
Qed.
